(** * Conversation workflow engine of the WhatsApp support bot

    A shallow embedding of [chatbot/whatssms_service.py],
    [chatbot/message_classifier.py] and [chatbot/llama_helper.py], and the
    properties of the phone normaliser, the message classifier and the
    reply ladder of [handle_incoming_message]. *)

From Stdlib Require Import List ZArith NArith Bool Lia Ascii String DecimalString PrimFloat.
From stdpp Require Import base option list gmap.
Import ListNotations.

Local Open Scope Z_scope.
Set Warnings "-inexact-float".

(** ** Python strings

    A Python [str] is a sequence of Unicode code points.  Literals of the
    source are written as UTF-8 text and decoded by [lit]. *)

Definition char := N.
Definition str := list char.

(** One step of UTF-8 decoding: a continuation byte extends the code point
    under construction, any other byte starts a new one. *)
Definition utf8_step (acc : list N) (b : N) : list N :=
  if (b <? 128)%N then b :: acc
  else if (b <? 192)%N then
    match acc with
    | c :: acc' => (c * 64 + (b - 128))%N :: acc'
    | [] => []
    end
  else if (b <? 224)%N then (b - 192)%N :: acc
  else if (b <? 240)%N then (b - 224)%N :: acc
  else (b - 240)%N :: acc.

Definition lit (s : string) : str :=
  rev (fold_left utf8_step (List.map N_of_ascii (list_ascii_of_string s)) []).
Arguments lit s%_string.

(** [len(s)], [s.startswith(p)], [s[n:]], [needle in hay], [not s]. *)
Definition len (s : str) : Z := Z.of_nat (length s).

Fixpoint startswith (p s : str) : bool :=
  match p, s with
  | [], _ => true
  | _ :: _, [] => false
  | a :: p', b :: s' => (a =? b)%N && startswith p' s'
  end.

Definition slice_from (n : nat) (s : str) : str := drop n s.

Fixpoint contains (needle hay : str) : bool :=
  startswith needle hay ||
  match hay with
  | [] => false
  | _ :: hay' => contains needle hay'
  end.

Definition falsy (s : str) : bool :=
  match s with [] => true | _ => false end.

(** [str(n)] for an [int]. *)
Definition str_of_int (n : Z) : str :=
  List.map N_of_ascii (list_ascii_of_string (NilZero.string_of_int (Z.to_int n))).

(** ** The interpreter's Unicode database

    [str.isdigit], [str.lower], [str.strip], [str.title] and the regular
    expression engine's [\w] and case-insensitive comparison consult the
    Unicode tables of the Python runtime.  On ASCII their behaviour is
    written out below; outside ASCII it is whatever the tables say, and the
    tables are a parameter of the development. *)

Record unicode_db := {
  isdigit_hi : char -> bool;
  isspace_hi : char -> bool;
  isword_hi : char -> bool;
  ignorecase_hi : char -> char -> bool;
  lower_hi : str -> str;
  title_hi : str -> str
}.

Definition is_ascii (c : char) : bool := (c <? 128)%N.
Definition between (lo hi c : N) : bool := (lo <=? c)%N && (c <=? hi)%N.
Definition ascii_upper_letter (c : char) : bool := between 65 90 c.
Definition ascii_lower_letter (c : char) : bool := between 97 122 c.
Definition ascii_letter (c : char) : bool :=
  ascii_upper_letter c || ascii_lower_letter c.
Definition ascii_digit (c : char) : bool := between 48 57 c.
Definition ascii_lower (c : char) : char :=
  if ascii_upper_letter c then (c + 32)%N else c.
Definition ascii_upper (c : char) : char :=
  if ascii_lower_letter c then (c - 32)%N else c.
(** Whitespace of [str.isspace] below 128: TAB, LF, VT, FF, CR, FS, GS, RS,
    US and SPACE. *)
Definition ascii_space (c : char) : bool :=
  between 9 13 c || between 28 32 c.

(** [str.title] on ASCII text: a letter that follows a letter is lowered,
    any other letter is raised. *)
Fixpoint ascii_title (prev_cased : bool) (s : str) : str :=
  match s with
  | [] => []
  | c :: s' =>
      if ascii_letter c
      then (if prev_cased then ascii_lower c else ascii_upper c)
             :: ascii_title true s'
      else c :: ascii_title false s'
  end.

Section Runtime.

Variable U : unicode_db.

Definition isdigit (c : char) : bool :=
  if is_ascii c then ascii_digit c else isdigit_hi U c.

Definition isspace (c : char) : bool :=
  if is_ascii c then ascii_space c else isspace_hi U c.

(** [\w] of the [re] module on [str] patterns. *)
Definition isword (c : char) : bool :=
  if is_ascii c then ascii_letter c || ascii_digit c || (c =? 95)%N
  else isword_hi U c.

(** Does pattern character [p] match subject character [c] under
    [re.IGNORECASE]? *)
Definition ignorecase_eq (p c : char) : bool :=
  if is_ascii p && is_ascii c then (ascii_lower p =? ascii_lower c)%N
  else ignorecase_hi U p c.

Definition lower (s : str) : str :=
  if forallb is_ascii s then List.map ascii_lower s else lower_hi U s.

Definition title (s : str) : str :=
  if forallb is_ascii s then ascii_title false s else title_hi U s.

Fixpoint lstrip (s : str) : str :=
  match s with
  | c :: s' => if isspace c then lstrip s' else s
  | [] => []
  end.

Definition strip (s : str) : str := rev (lstrip (rev (lstrip s))).

(** ** Phone normaliser ([WhatsSMSService.normalize_to_e164]) *)

Definition digits_of (phone_number : str) : str :=
  List.filter isdigit phone_number.

Definition normalize_to_e164 (phone_number : str) : str :=
  if falsy phone_number then phone_number
  else
    let digits := digits_of phone_number in
    if startswith (lit "92") digits && (len digits >=? 12) then
      lit "+" ++ digits
    else if startswith (lit "0") digits && (len digits =? 11) then
      lit "+92" ++ slice_from 1 digits
    else if len digits =? 10 then
      lit "+92" ++ digits
    else
      lit "+" ++ digits.

End Runtime.

(** A database that knows no character outside ASCII, to run the
    definitions on ASCII and emoji-decorated text. *)
Definition ascii_only_db : unicode_db :=
  {| isdigit_hi := fun _ => false;
     isspace_hi := fun _ => false;
     isword_hi := fun _ => false;
     ignorecase_hi := fun p c => (p =? c)%N;
     lower_hi := fun s => List.map ascii_lower s;
     title_hi := fun s => ascii_title false s |}.

(** ** Message classifier ([message_classifier.py])

    The fragment of regular expressions the classifier's patterns use:
    literal characters, concatenation, alternation and [\b], matched
    case-insensitively ([re.IGNORECASE]). *)

Inductive regex :=
| Chr (c : char)
| Eps
| Cat (r1 r2 : regex)
| Alt (r1 r2 : regex)
| WordB.

Definition literal (w : str) : regex :=
  fold_right (fun c r => Cat (Chr c) r) Eps w.

Fixpoint alternation (w : str) (ws : list str) : regex :=
  match ws with
  | [] => literal w
  | w' :: ws' => Alt (literal w) (alternation w' ws')
  end.

(** [r'\b(w|w1|...)\b'] *)
Definition word_group (w : string) (ws : list string) : regex :=
  Cat WordB (Cat (alternation (lit w) (List.map lit ws)) WordB).

Section Classifier.

Variable U : unicode_db.

Definition opt_isword (c : option char) : bool :=
  match c with Some c => isword U c | None => false end.

(** [\b]: exactly one of the characters before and after the position is a
    word character; the ends of the text count as non-word. *)
Definition at_boundary (prev : option char) (s : str) : bool :=
  xorb (opt_isword prev) (opt_isword (head s)).

(** All the ways [r] matches a prefix of [s], [prev] being the character
    before [s]: each as the last character consumed and the text left. *)
Fixpoint rmatch (r : regex) (prev : option char) (s : str)
  : list (option char * str) :=
  match r with
  | Chr p =>
      match s with
      | c :: s' => if ignorecase_eq U p c then [(Some c, s')] else []
      | [] => []
      end
  | Eps => [(prev, s)]
  | Cat r1 r2 =>
      flat_map (fun ps => rmatch r2 (fst ps) (snd ps)) (rmatch r1 prev s)
  | Alt r1 r2 => rmatch r1 prev s ++ rmatch r2 prev s
  | WordB => if at_boundary prev s then [(prev, s)] else []
  end.

Fixpoint search_from (r : regex) (prev : option char) (s : str) : bool :=
  match rmatch r prev s with
  | _ :: _ => true
  | [] =>
      match s with
      | c :: s' => search_from r (Some c) s'
      | [] => false
      end
  end.

(** [re.search(pattern, message, re.IGNORECASE)] as a truth value. *)
Definition re_search (pattern : regex) (message : str) : bool :=
  search_from pattern None message.

Definition pricing_patterns : list regex :=
  [ word_group "price" ["cost"; "budget"; "expensive"; "cheap"; "affordable"];
    word_group "how much" ["pricing"; "quote"; "estimate"; "fee"; "charge"];
    word_group "payment" ["money"; "dollar"; "rupee"; "costs"];
    word_group "rate" ["rates"; "tariff"; "tariffs"] ]%string.

Definition support_patterns : list regex :=
  [ word_group "help" ["support"; "issue"; "problem"; "error"; "bug"; "fix"];
    word_group "not working" ["broken"; "down"; "trouble"; "difficulty"];
    word_group "how to" ["how do"; "tutorial"; "guide"; "instructions"];
    word_group "complaint" ["complaints"; "dissatisfied"; "unhappy"] ]%string.

Definition general_patterns : list regex :=
  [ word_group "thank" ["thanks"; "appreciate"; "grateful"];
    word_group "information" ["info"; "details"; "more"];
    word_group "contact" ["reach"; "get in touch"] ]%string.

(** The pattern list written inline in the greeting test of
    [classify_message]. *)
Definition greeting_inline_patterns : list regex :=
  [ word_group "hello"
      ["hi"; "hey"; "good morning"; "good afternoon"; "good evening"] ]%string.

(** [MessageClassifier._matches_patterns] *)
Definition matches_patterns (message : str) (patterns : list regex) : bool :=
  existsb (fun pattern => re_search pattern message) patterns.

End Classifier.

(** The dict [classify_message] returns. *)
Record classification := {
  c_type : str;
  c_response : str;
  c_confidence : float
}.

Section Classify.

Variable U : unicode_db.

(** [MessageClassifier.classify_message] *)
Definition classify_message (message : str) : classification :=
  let message_lower := strip U (lower U message) in
  if matches_patterns U message_lower (pricing_patterns) then
    {| c_type := lit "pricing";
       c_response := lit "Our pricing starts from $99. Would you like the full details?";
       c_confidence := 0.9 |}
  else if matches_patterns U message_lower (support_patterns) then
    {| c_type := lit "support";
       c_response := lit "I'm here to help. Could you share more details about the issue?";
       c_confidence := 0.8 |}
  else if matches_patterns U message_lower (general_patterns) then
    {| c_type := lit "general";
       c_response := lit "Thanks for your message! Our team will respond shortly.";
       c_confidence := 0.7 |}
  else if matches_patterns U message_lower (greeting_inline_patterns) then
    {| c_type := lit "greeting";
       c_response := lit "Hello 👋 How can I help you today?";
       c_confidence := 0.9 |}
  else
    {| c_type := lit "other";
       c_response := lit "Thanks for your message! Our team will respond shortly.";
       c_confidence := 0.5 |}.

End Classify.

(** ** Keyword tests of the workflow ([llama_helper.py] and the inline list
    of [handle_incoming_message]) *)

Definition completion_keywords : list str :=
  List.map lit
    [ "finalize"; "complete"; "done"; "finished"; "ready"; "proceed";
      "start project"; "begin"; "go ahead"; "confirm"; "approve";
      "that's all"; "that's it"; "nothing else"; "perfect"; "sounds good" ]%string.

Definition team_contact_keywords : list str :=
  List.map lit
    [ "team reach out"; "contact me"; "call me"; "reach out"; "team contact";
      "speak with team"; "talk to team"; "team call"; "contact team";
      "team reach" ]%string.

Section Keywords.

Variable U : unicode_db.

(** [any(keyword in message.lower() for keyword in keywords)] *)
Definition any_keyword_in (keywords : list str) (message : str) : bool :=
  let message_lower := lower U message in
  existsb (fun keyword => contains keyword message_lower) keywords.

Definition check_for_completion_keywords (message : str) : bool :=
  any_keyword_in completion_keywords message.

Definition wants_team_contact (message_content : str) : bool :=
  any_keyword_in team_contact_keywords message_content.

End Keywords.

(** ** Data model ([models.py]) *)

Record ConversationMessage := {
  role : str;
  message : str;
  timestamp : Z
}.

Record WhatsAppConversation := {
  id : option str;
  client_name : option str;
  phone_number : str;
  conversation : list ConversationMessage;
  status : str;
  messages_used : Z;
  created_at : Z;
  updated_at : Z
}.

(** A document of the collection [whatsapp_conversations], without its
    [_id], which is the key it is stored under.  A field is [None] when the
    key is absent from the document (for [client_name], also when it is
    null). *)
Record document := {
  d_client_name : option str;
  d_phone_number : option str;
  d_conversation : option (list ConversationMessage);
  d_status : option str;
  d_messages_used : option Z;
  d_created_at : option Z;
  d_updated_at : option Z
}.

(** ** The world outside the engine *)

(** What the messaging gateway answers to a request: the call raises, or
    an HTTP status code comes back with, when the body is a JSON object
    that has one, the number under its ["status"] key. *)
Inductive gateway_response :=
| GatewayRaised
| GatewayHttp (status_code : Z) (json_status : option Z).

(** What the completion API answers: the call raises, or an HTTP status
    code comes back with, when the body has one, the text under
    [choices[0].message.content]. *)
Inductive groq_response :=
| GroqRaised
| GroqHttp (status_code : Z) (content : option str).

(** The state the engine reads and writes: the collection, the clock
    behind [datetime.utcnow()] and the requests posted to the gateway,
    oldest first, each with its recipient and text. *)
Record world := {
  collection : gmap str document;
  clock : Z;
  posted : list (str * str)
}.

(** The answers of the outside world during one run of the handler:
    whether each datastore call goes through, what the gateway answers to
    the request that follows [n] earlier ones, whether the completion API
    key is configured and what that API answers to a list of chat
    messages. *)
Record env := {
  find_one_ok : bool;
  insert_one_ok : bool;
  replace_one_ok : bool;
  gateway : nat -> gateway_response;
  groq_api_key : bool;
  groq : list (str * str) -> groq_response
}.

(** Computations of the engine: they read and write the world and either
    return a value or raise. *)
Inductive result (A : Type) :=
| Ok (a : A)
| Raised.
Arguments Ok {A} a.
Arguments Raised {A}.

Definition M (A : Type) : Type := world -> result A * world.

Definition ret {A} (a : A) : M A := fun w => (Ok a, w).
Definition raise {A} : M A := fun w => (Raised, w).
Definition bind {A B} (m : M A) (k : A -> M B) : M B :=
  fun w =>
    match m w with
    | (Ok a, w') => k a w'
    | (Raised, w') => (Raised, w')
    end.
(** [try: m except Exception: h] *)
Definition try_except {A} (m : M A) (h : M A) : M A :=
  fun w =>
    match m w with
    | (Ok a, w') => (Ok a, w')
    | (Raised, w') => h w'
    end.

Notation "x <- m ;; k" := (bind m (fun x => k))
  (at level 100, m at next level, right associativity).
Notation "m ;;; k" := (bind m (fun _ => k))
  (at level 100, right associativity).

Definition utcnow : M Z :=
  fun w =>
    (Ok (clock w),
     {| collection := collection w; clock := clock w + 1; posted := posted w |}).

Definition post (recipient text : str) : M nat :=
  fun w =>
    (Ok (length (posted w)),
     {| collection := collection w; clock := clock w;
        posted := posted w ++ [(recipient, text)] |}).

Definition find_one (key : str) : M (option document) :=
  fun w => (Ok (collection w !! key), w).

Definition put_document (key : str) (d : document) : M unit :=
  fun w =>
    (Ok tt,
     {| collection := <[key := d]> (collection w); clock := clock w;
        posted := posted w |}).

Definition guard (ok : bool) : M unit :=
  if ok then ret tt else raise.

Definition nl : str := [10%N].

Fixpoint str_eqb (a b : str) : bool :=
  match a, b with
  | [], [] => true
  | x :: a', y :: b' => (x =? y)%N && str_eqb a' b'
  | _, _ => false
  end.

(** Truth value of an [Optional[str]]: [None] and the empty string are
    false. *)
Definition truthy (o : option str) : bool :=
  match o with
  | Some (_ :: _) => true
  | _ => false
  end.

Definition opt_eqb (o : option str) (s : str) : bool :=
  match o with
  | Some a => str_eqb a s
  | None => false
  end.

(** How an f-string renders an [Optional[str]]. *)
Definition fmt_opt (o : option str) : str :=
  match o with
  | Some s => s
  | None => lit "None"
  end.

(** ** Completion client ([llama_helper.py]) *)

Definition SYSTEM_PROMPT : str :=
  lit "You are a helpful AI assistant for Vertex AI Tech, a company that builds custom apps, websites, and advanced clones.

Your role:
- Help potential clients understand our services
- Gather information about their project requirements
- Be friendly, professional, and conversational
- Guide them through our service offerings

Our services include:
- App & Website Cloning (Slack, Netflix, TikTok, SoundCloud, E-commerce clones)
- Enhanced Features (real-time chat, AI recommendations, payment gateways, etc.)
- AI & Data Science Solutions
- Web & App Development
- AI Consulting & Training

Keep responses concise (under 200 words) and always be helpful. If they ask about pricing or want to finalize their project, let them know our team will reach out soon.".

(** The chat messages sent to the API: the system prompt, the history with
    role [client] renamed [user] and roles other than [client] and
    [assistant] dropped, then the new message. *)
Definition chat_messages (conversation_history : list (str * str))
    (user_message : str) : list (str * str) :=
  (lit "system", SYSTEM_PROMPT)
  :: flat_map
       (fun msg =>
          if str_eqb (fst msg) (lit "client") then [(lit "user", snd msg)]
          else if str_eqb (fst msg) (lit "assistant")
               then [(lit "assistant", snd msg)]
               else [])
       conversation_history
  ++ [(lit "user", user_message)].

Definition get_llama_response (E : env)
    (conversation_history : list (str * str)) (user_message : str) : str :=
  if negb (groq_api_key E) then
    lit "I'm sorry, I'm having trouble connecting to my AI service right now. Please try again later."
  else
    match groq E (chat_messages conversation_history user_message) with
    | GroqHttp status_code content =>
        if status_code =? 200 then
          match content with
          | Some assistant_reply => assistant_reply
          | None =>
              lit "I'm sorry, I encountered an error while processing your message. Please try again later."
          end
        else
          lit "I'm sorry, I'm having trouble processing your message right now. Please try again later."
    | GroqRaised =>
        lit "I'm sorry, I encountered an error while processing your message. Please try again later."
    end.

(** ** The service ([WhatsSMSService]) *)

Definition with_client_name (c : WhatsAppConversation) (n : option str)
  : WhatsAppConversation :=
  {| id := id c; client_name := n; phone_number := phone_number c;
     conversation := conversation c; status := status c;
     messages_used := messages_used c; created_at := created_at c;
     updated_at := updated_at c |}.

Definition with_status (c : WhatsAppConversation) (s : str)
  : WhatsAppConversation :=
  {| id := id c; client_name := client_name c; phone_number := phone_number c;
     conversation := conversation c; status := s;
     messages_used := messages_used c; created_at := created_at c;
     updated_at := updated_at c |}.

Definition with_updated_at (c : WhatsAppConversation) (t : Z)
  : WhatsAppConversation :=
  {| id := id c; client_name := client_name c; phone_number := phone_number c;
     conversation := conversation c; status := status c;
     messages_used := messages_used c; created_at := created_at c;
     updated_at := t |}.

(** [conversation.conversation.append(m)] *)
Definition append_message (c : WhatsAppConversation) (m : ConversationMessage)
  : WhatsAppConversation :=
  {| id := id c; client_name := client_name c; phone_number := phone_number c;
     conversation := conversation c ++ [m]; status := status c;
     messages_used := messages_used c; created_at := created_at c;
     updated_at := updated_at c |}.

(** [conversation.messages_used += 1] *)
Definition count_message (c : WhatsAppConversation) : WhatsAppConversation :=
  {| id := id c; client_name := client_name c; phone_number := phone_number c;
     conversation := conversation c; status := status c;
     messages_used := messages_used c + 1; created_at := created_at c;
     updated_at := updated_at c |}.

Section Service.

Variable U : unicode_db.
(** [self.team_number], read from the environment at start-up. *)
Variable team_number : str.
(** What a [datetime] becomes on its way through the datastore driver. *)
Variable bson_datetime : Z -> Z.
Variable E : env.

Definition stored_message (m : ConversationMessage) : ConversationMessage :=
  {| role := role m; message := message m;
     timestamp := bson_datetime (timestamp m) |}.

(** [conversation.dict(by_alias=True)] as the datastore keeps it. *)
Definition to_document (c : WhatsAppConversation) : document :=
  {| d_client_name := client_name c;
     d_phone_number := Some (phone_number c);
     d_conversation := Some (List.map stored_message (conversation c));
     d_status := Some (status c);
     d_messages_used := Some (messages_used c);
     d_created_at := Some (bson_datetime (created_at c));
     d_updated_at := Some (bson_datetime (updated_at c)) |}.

Definition send_whatsapp_message (client_phone text : str) : M bool :=
  let recipient := normalize_to_e164 U client_phone in
  n <- post recipient text ;;
  ret match gateway E n with
      | GatewayHttp status_code (Some json_status) =>
          (status_code =? 200) && (json_status =? 200)
      | _ => false
      end.

Definition get_or_create_conversation (phone : str) : M WhatsAppConversation :=
  guard (find_one_ok E) ;;;
  let normalized_phone := normalize_to_e164 U phone in
  conversation_doc <- find_one normalized_phone ;;
  match conversation_doc with
  | Some doc =>
      match d_phone_number doc with
      | None => raise
      | Some p =>
          t1 <- utcnow ;;
          t2 <- utcnow ;;
          ret {| id := Some normalized_phone;
                 client_name := d_client_name doc;
                 phone_number := p;
                 conversation := default [] (d_conversation doc);
                 status := default (lit "pending") (d_status doc);
                 messages_used := default 0 (d_messages_used doc);
                 created_at := default t1 (d_created_at doc);
                 updated_at := default t2 (d_updated_at doc) |}
      end
  | None =>
      t1 <- utcnow ;;
      t2 <- utcnow ;;
      let new_conversation :=
        {| id := None; client_name := None; phone_number := normalized_phone;
           conversation := []; status := lit "pending"; messages_used := 0;
           created_at := t1; updated_at := t2 |} in
      guard (insert_one_ok E) ;;;
      put_document normalized_phone (to_document new_conversation) ;;;
      ret new_conversation
  end.

(** Returns the conversation object as the call leaves it: [updated_at] is
    assigned in place. *)
Definition save_conversation (conversation : WhatsAppConversation)
  : M WhatsAppConversation :=
  t <- utcnow ;;
  let conversation := with_updated_at conversation t in
  guard (replace_one_ok E) ;;;
  put_document (phone_number conversation) (to_document conversation) ;;;
  ret conversation.

Definition team_alert_text (text : str) (phone client project_details : option str)
  : str :=
  lit "🚨 TEAM ALERT 🚨" ++ nl ++ nl ++ text
  ++ (if truthy client then nl ++ lit "👤 Client Name: " ++ fmt_opt client else [])
  ++ (if truthy phone then nl ++ lit "📱 Client Phone: " ++ fmt_opt phone else [])
  ++ (if truthy project_details
      then nl ++ lit "💼 Project Details: " ++ fmt_opt project_details else [])
  ++ nl ++ nl
  ++ lit "🤖 Bot Response: Please reach out to this client for further discussion about their project requirements.".

Definition notify_team (text : str) (phone client project_details : option str)
  : M bool :=
  send_whatsapp_message team_number
    (team_alert_text text phone client project_details).

Definition render_turn (msg : ConversationMessage) : str :=
  let role_emoji :=
    if str_eqb (role msg) (lit "client") then lit "👤" else lit "🤖" in
  role_emoji ++ lit " " ++ title U (role msg) ++ lit ": " ++ message msg ++ nl.

Definition format_conversation_summary (conv : WhatsAppConversation) : str :=
  let summary := lit "Client: " ++ fmt_opt (client_name conv) ++ nl in
  let summary := summary ++ lit "Phone: " ++ phone_number conv ++ nl in
  let summary :=
    summary ++ lit "Messages: " ++ str_of_int (messages_used conv) ++ nl in
  let summary := summary ++ lit "Status: " ++ status conv ++ nl ++ nl in
  let summary := summary ++ lit "Conversation:" ++ nl in
  fold_left (fun summary msg => summary ++ render_turn msg)
    (conversation conv) summary.

(** The reply ladder of [handle_incoming_message]: from the conversation
    with the inbound turn appended and counted, the conversation as the
    selected branch leaves it and the reply text. *)
Definition respond (phone message_content : str) (conv : WhatsAppConversation)
  : M (WhatsAppConversation * str) :=
  let classification := classify_message U message_content in
  if negb (truthy (client_name conv)) && (messages_used conv =? 1) then
    ret (with_client_name conv (Some (lit "Unknown")),
         lit "Hello! What is your name, sir?")
  else if negb (truthy (client_name conv))
          || opt_eqb (client_name conv) (lit "Unknown") then
    let conv := with_client_name conv (Some (strip U message_content)) in
    ret (conv,
         lit "Nice to meet you, " ++ fmt_opt (client_name conv)
         ++ lit "! I'm here to help you with your project requirements. What type of app or website are you looking to build?")
  else if (0.8 <=? c_confidence classification)%float then
    (if str_eqb (c_type classification) (lit "pricing") then
       notify_team
         (lit "💰 PRICING INQUIRY" ++ nl ++ nl ++ lit "Message: " ++ message_content)
         (Some phone) (client_name conv)
         (Some (lit "Client is asking about pricing for our services"))
     else ret false) ;;;
    ret (conv, c_response classification)
  else if wants_team_contact U message_content then
    notify_team
      (lit "📞 CLIENT WANTS TEAM CONTACT" ++ nl ++ nl ++ lit "Message: "
       ++ message_content)
      (Some phone) (client_name conv)
      (Some (lit "Client specifically requested team to reach out for project discussion")) ;;;
    ret (conv,
         lit "Perfect! I'll have our team reach out to you shortly to discuss your project requirements in detail.")
  else if check_for_completion_keywords U message_content then
    let conv := with_status conv (lit "finalized") in
    let conversation_summary := format_conversation_summary conv in
    notify_team
      (lit "✅ PROJECT FINALIZED" ++ nl ++ nl ++ conversation_summary)
      (Some phone) (client_name conv)
      (Some (lit "Client has finalized their project requirements")) ;;;
    ret (conv,
         lit "Great! Your project description has been saved. Our team will reach out to you soon.")
  else if messages_used conv >=? 20 then
    notify_team
      (lit "⚠️ MESSAGE LIMIT REACHED" ++ nl ++ nl ++ lit "Messages used: "
       ++ str_of_int (messages_used conv))
      (Some phone) (client_name conv)
      (Some (lit "Client has reached the message limit and needs team follow-up")) ;;;
    ret (conv,
         lit "You've reached the message limit. Our team will contact you shortly.")
  else
    let conversation_history :=
      List.map (fun msg => (role msg, message msg))
        (removelast (conversation conv)) in
    ret (conv, get_llama_response E conversation_history message_content).

Definition handle_incoming_message (phone message_content : str) : M bool :=
  try_except
    (conv <- get_or_create_conversation phone ;;
     t <- utcnow ;;
     let client_message :=
       {| role := lit "client"; message := message_content; timestamp := t |} in
     let conv := count_message (append_message conv client_message) in
     reply <- respond phone message_content conv ;;
     let conv := fst reply in
     let response_message := snd reply in
     t <- utcnow ;;
     let assistant_message :=
       {| role := lit "assistant"; message := response_message;
          timestamp := t |} in
     let conv := append_message conv assistant_message in
     save_conversation conv ;;;
     success <- send_whatsapp_message phone response_message ;;
     ret success)
    (ret false).

End Service.

(** ** Calls that overlap

    [handle_incoming_message], [get_or_create_conversation] and
    [save_conversation] are coroutines, and [main.py] awaits one per
    request.  A coroutine runs until it awaits the datastore driver
    ([find_one], [insert_one], [replace_one]) or the completion API
    ([client.post]); while it is suspended the event loop runs the other
    calls.  The gateway is called with the blocking [requests.post], and
    [notify_team] and [get_database] await nothing, so they do not
    suspend. *)

(** A coroutine between two stretches of running: finished, with a result
    or an exception, or suspended.  Resumed in the world [w], a suspended
    coroutine goes on as [next w] and leaves the world [effect w]. *)
Inductive paused (A : Type) : Type :=
| Done (r : result A)
| Paused (next : world -> paused A) (effect : world -> world).
Arguments Done {A} r.
Arguments Paused {A} next effect.

(** A coroutine that is started or resumed runs up to its next suspension
    or to its end. *)
Definition C (A : Type) : Type := world -> paused A * world.

Definition suspend {A} (c : C A) : paused A :=
  Paused (fun w => fst (c w)) (fun w => snd (c w)).

Definition finished {A} (p : paused A) : bool :=
  match p with
  | Done _ => true
  | Paused _ _ => false
  end.

(** Code that awaits nothing. *)
Definition now {A} (m : M A) : C A :=
  fun w => let (r, w') := m w in (Done r, w').

(** [await] of a call to the datastore driver or to the completion API:
    the coroutine is suspended, the call takes effect while it is, and it
    is resumed with the outcome later on. *)
Definition await {A} (m : M A) : C A :=
  fun w =>
    (suspend (fun w1 => let (r, w2) := m w1 in
                        (suspend (fun w3 => (Done r, w3)), w2)),
     w).

Fixpoint after {A B} (p : paused A) (k : A -> C B) : C B :=
  match p with
  | Done (Ok a) => k a
  | Done Raised => fun w => (Done Raised, w)
  | Paused next effect =>
      fun w => (suspend (fun w1 => after (next w1) k (effect w1)), w)
  end.

Definition co_bind {A B} (c : C A) (k : A -> C B) : C B :=
  fun w => let (p, w') := c w in after p k w'.

Fixpoint rescue {A} (p : paused A) (h : C A) : C A :=
  match p with
  | Done (Ok a) => fun w => (Done (Ok a), w)
  | Done Raised => h
  | Paused next effect =>
      fun w => (suspend (fun w1 => rescue (next w1) h (effect w1)), w)
  end.

(** [try: c except Exception: h] around code that awaits. *)
Definition co_try {A} (c : C A) (h : C A) : C A :=
  fun w => let (p, w') := c w in rescue p h w'.

Notation "x <~ c ;; k" := (co_bind c (fun x => k))
  (at level 100, c at next level, right associativity).
Notation "c ;;~ k" := (co_bind c (fun _ => k))
  (at level 100, right associativity).

(** A suspended coroutine resumed as soon as it can be, nothing else
    running in between. *)
Fixpoint finish {A} (p : paused A) (w : world) : result A * world :=
  match p with
  | Done r => (r, w)
  | Paused next effect => finish (next w) (effect w)
  end.

Definition alone {A} (c : C A) : M A :=
  fun w => let (p, w') := c w in finish p w'.

(** How often a suspended coroutine is resumed before it ends, nothing
    else running in between. *)
Fixpoint suspensions {A} (p : paused A) (w : world) : nat :=
  match p with
  | Done _ => 0%nat
  | Paused next effect => S (suspensions (next w) (effect w))
  end.

(** [insert_one] on a collection: [_id] is its unique key, and the
    datastore refuses a document whose [_id] is taken.  In a call that
    runs alone the [_id] is free, [find_one] having just found nothing
    under it, and the insertion is the [put_document] of
    [get_or_create_conversation] above. *)
Definition insert_document (key : str) (d : document) : M unit :=
  fun w =>
    match collection w !! key with
    | None => put_document key d w
    | Some _ => (Raised, w)
    end.

Module Async.
Section Service.

Variable U : unicode_db.
Variable team_number : str.
Variable bson_datetime : Z -> Z.
Variable E : env.

Definition get_or_create_conversation (phone : str) : C WhatsAppConversation :=
  let normalized_phone := normalize_to_e164 U phone in
  conversation_doc <~
    await (guard (find_one_ok E) ;;; find_one normalized_phone) ;;
  match conversation_doc with
  | Some doc =>
      match d_phone_number doc with
      | None => now raise
      | Some p =>
          now (t1 <- utcnow ;;
               t2 <- utcnow ;;
               ret {| id := Some normalized_phone;
                      client_name := d_client_name doc;
                      phone_number := p;
                      conversation := default [] (d_conversation doc);
                      status := default (lit "pending") (d_status doc);
                      messages_used := default 0 (d_messages_used doc);
                      created_at := default t1 (d_created_at doc);
                      updated_at := default t2 (d_updated_at doc) |})
      end
  | None =>
      new_conversation <~
        now (t1 <- utcnow ;;
             t2 <- utcnow ;;
             ret {| id := None; client_name := None;
                    phone_number := normalized_phone;
                    conversation := []; status := lit "pending";
                    messages_used := 0;
                    created_at := t1; updated_at := t2 |}) ;;
      await (guard (insert_one_ok E) ;;;
             insert_document normalized_phone
               (to_document bson_datetime new_conversation)) ;;~
      now (ret new_conversation)
  end.

Definition save_conversation (conversation : WhatsAppConversation)
  : C WhatsAppConversation :=
  t <~ now utcnow ;;
  let conversation := with_updated_at conversation t in
  await (guard (replace_one_ok E) ;;;
         put_document (phone_number conversation)
           (to_document bson_datetime conversation)) ;;~
  now (ret conversation).

(** [get_llama_response] awaits [client.post] when an API key is
    configured and returns at once when none is; what it returns is
    [get_llama_response] of the section above. *)
Definition get_llama_response (conversation_history : list (str * str))
    (user_message : str) : C str :=
  if negb (groq_api_key E) then
    now (ret (get_llama_response E conversation_history user_message))
  else
    await (ret (get_llama_response E conversation_history user_message)).

Definition respond (phone message_content : str) (conv : WhatsAppConversation)
  : C (WhatsAppConversation * str) :=
  let classification := classify_message U message_content in
  if negb (truthy (client_name conv)) && (messages_used conv =? 1) then
    now (ret (with_client_name conv (Some (lit "Unknown")),
              lit "Hello! What is your name, sir?"))
  else if negb (truthy (client_name conv))
          || opt_eqb (client_name conv) (lit "Unknown") then
    let conv := with_client_name conv (Some (strip U message_content)) in
    now (ret (conv,
              lit "Nice to meet you, " ++ fmt_opt (client_name conv)
              ++ lit "! I'm here to help you with your project requirements. What type of app or website are you looking to build?"))
  else if (0.8 <=? c_confidence classification)%float then
    now ((if str_eqb (c_type classification) (lit "pricing") then
            notify_team U team_number E
              (lit "💰 PRICING INQUIRY" ++ nl ++ nl ++ lit "Message: "
               ++ message_content)
              (Some phone) (client_name conv)
              (Some (lit "Client is asking about pricing for our services"))
          else ret false) ;;;
         ret (conv, c_response classification))
  else if wants_team_contact U message_content then
    now (notify_team U team_number E
           (lit "📞 CLIENT WANTS TEAM CONTACT" ++ nl ++ nl ++ lit "Message: "
            ++ message_content)
           (Some phone) (client_name conv)
           (Some (lit "Client specifically requested team to reach out for project discussion")) ;;;
         ret (conv,
              lit "Perfect! I'll have our team reach out to you shortly to discuss your project requirements in detail."))
  else if check_for_completion_keywords U message_content then
    let conv := with_status conv (lit "finalized") in
    let conversation_summary := format_conversation_summary U conv in
    now (notify_team U team_number E
           (lit "✅ PROJECT FINALIZED" ++ nl ++ nl ++ conversation_summary)
           (Some phone) (client_name conv)
           (Some (lit "Client has finalized their project requirements")) ;;;
         ret (conv,
              lit "Great! Your project description has been saved. Our team will reach out to you soon."))
  else if messages_used conv >=? 20 then
    now (notify_team U team_number E
           (lit "⚠️ MESSAGE LIMIT REACHED" ++ nl ++ nl ++ lit "Messages used: "
            ++ str_of_int (messages_used conv))
           (Some phone) (client_name conv)
           (Some (lit "Client has reached the message limit and needs team follow-up")) ;;;
         ret (conv,
              lit "You've reached the message limit. Our team will contact you shortly."))
  else
    let conversation_history :=
      List.map (fun msg => (role msg, message msg))
        (removelast (conversation conv)) in
    response_message <~
      get_llama_response conversation_history message_content ;;
    now (ret (conv, response_message)).

Definition handle_incoming_message (phone message_content : str) : C bool :=
  co_try
    (conv <~ get_or_create_conversation phone ;;
     t <~ now utcnow ;;
     let client_message :=
       {| role := lit "client"; message := message_content; timestamp := t |} in
     let conv := count_message (append_message conv client_message) in
     reply <~ respond phone message_content conv ;;
     let conv := fst reply in
     let response_message := snd reply in
     t <~ now utcnow ;;
     let assistant_message :=
       {| role := lit "assistant"; message := response_message;
          timestamp := t |} in
     let conv := append_message conv assistant_message in
     save_conversation conv ;;~
     success <~ now (send_whatsapp_message U E phone response_message) ;;
     now (ret success))
    (now (ret false)).

End Service.
End Async.

(** ** The older phone formatters ([whatssms_service.py])

    The module-level [format_phone_number] strips with the regular
    expression [\D], whose digits are the decimal digits of the Unicode
    tables: [0-9] below 128, and outside ASCII what the parameter [D]
    says. *)

Definition re_digit (D : char -> bool) (c : char) : bool :=
  if is_ascii c then ascii_digit c else D c.

(** [re.sub(r'\D', '', s)] *)
Definition strip_non_digits (D : char -> bool) (s : str) : str :=
  List.filter (re_digit D) s.

(** The function [format_phone_number] of the module. *)
Definition format_phone_number (D : char -> bool) (phone_number : str) : str :=
  if falsy phone_number then phone_number
  else
    let cleaned := strip_non_digits D phone_number in
    if startswith (lit "92") cleaned then cleaned
    else if startswith (lit "0") cleaned then lit "92" ++ slice_from 1 cleaned
    else if len cleaned =? 10 then lit "92" ++ cleaned
    else if (len cleaned =? 11) && startswith (lit "3") cleaned then
      lit "92" ++ cleaned
    else cleaned.

(** The method [WhatsSMSService.format_phone_number]. *)
Definition WhatsSMSService_format_phone_number (U : unicode_db)
    (phone_number : str) : str :=
  let digits := digits_of U phone_number in
  if negb (startswith (lit "+") phone_number) then
    if len digits =? 10 then lit "92" ++ digits
    else if (len digits =? 11) && startswith (lit "0") digits then
      lit "92" ++ slice_from 1 digits
    else digits
  else digits.

(** ** Pricing keywords ([llama_helper.py]) and the classifier's
    [get_enhanced_response] *)

Definition pricing_keywords : list str :=
  List.map lit
    [ "price"; "cost"; "budget"; "expensive"; "cheap"; "affordable";
      "how much"; "pricing"; "quote"; "estimate"; "fee"; "charge";
      "payment"; "money"; "dollar"; "rupee"; "costs" ]%string.

Definition check_for_pricing_keywords (U : unicode_db) (message : str) : bool :=
  any_keyword_in U pricing_keywords message.

(** [MessageClassifier.get_enhanced_response]; [None] is Python's [None].
    The history argument is not looked at. *)
Definition get_enhanced_response (U : unicode_db) (message : str)
  : option str :=
  let classification := classify_message U message in
  if (0.8 <=? c_confidence classification)%float
  then Some (c_response classification)
  else None.

(** * The specification's side

    What the specification says, worded as definitions of their own; the
    forms of the source definitions that the proofs go through; and the
    worlds and runs the properties are stated on. *)

(** ** Phone normaliser *)

(** The normalisation rules as the specification words them, on the
    digit-only projection [d] of the input: each rule applies when the
    rules before it do not. *)
Definition has_country_code (d : str) : Prop :=
  startswith (lit "92") d = true /\ 12 <= len d.

Definition has_local_zero (d : str) : Prop :=
  startswith (lit "0") d = true /\ len d = 11.

Inductive e164_rule (d : str) : str -> Prop :=
| rule_country_code :
    has_country_code d -> e164_rule d (lit "+" ++ d)
| rule_local_zero :
    ~ has_country_code d -> has_local_zero d ->
    e164_rule d (lit "+92" ++ drop 1 d)
| rule_ten_digits :
    ~ has_country_code d -> ~ has_local_zero d -> len d = 10 ->
    e164_rule d (lit "+92" ++ d)
| rule_fallback :
    ~ has_country_code d -> ~ has_local_zero d -> len d <> 10 ->
    e164_rule d (lit "+" ++ d).

(** The branches of [normalize_to_e164] on the digits, literals decoded. *)
Definition from_digits (d : str) : str :=
  if startswith [57; 50]%N d && (12 <=? len d) then 43%N :: d
  else if startswith [48]%N d && (len d =? 11) then
    43%N :: 57%N :: 50%N :: drop 1 d
  else if len d =? 10 then 43%N :: 57%N :: 50%N :: d
  else 43%N :: d.

(** ** Message classifier *)

(** The classifier as the specification words it: an ordered table of
    pattern groups, each with its type, canned response and confidence;
    the first group with a matching pattern wins, and no match is [other]. *)
Record pattern_group := {
  g_type : str;
  g_patterns : list regex;
  g_response : str;
  g_confidence : float
}.

Definition ordered_groups : list pattern_group :=
  [ {| g_type := lit "pricing"; g_patterns := pricing_patterns;
       g_response := lit "Our pricing starts from $99. Would you like the full details?";
       g_confidence := 0.9 |};
    {| g_type := lit "support"; g_patterns := support_patterns;
       g_response := lit "I'm here to help. Could you share more details about the issue?";
       g_confidence := 0.8 |};
    {| g_type := lit "general"; g_patterns := general_patterns;
       g_response := lit "Thanks for your message! Our team will respond shortly.";
       g_confidence := 0.7 |};
    {| g_type := lit "greeting"; g_patterns := greeting_inline_patterns;
       g_response := lit "Hello 👋 How can I help you today?";
       g_confidence := 0.9 |} ].

Definition classify_by_priority (U : unicode_db) (text : str) : classification :=
  let normalized := strip U (lower U text) in
  match List.find (fun g => matches_patterns U normalized (g_patterns g))
          ordered_groups with
  | Some g =>
      {| c_type := g_type g; c_response := g_response g;
         c_confidence := g_confidence g |}
  | None =>
      {| c_type := lit "other";
         c_response := lit "Thanks for your message! Our team will respond shortly.";
         c_confidence := 0.5 |}
  end.

(** ** The reply ladder *)

(** The seven reply branches, in the order the specification lists them. *)
Inductive branch :=
| NameRequest
| NameCapture
| Classified
| TeamContact
| Finalize
| BudgetExhausted
| Fallback.

(** The guarded branches, in priority order; [Fallback] is what is left. *)
Definition ladder : list branch :=
  [NameRequest; NameCapture; Classified; TeamContact; Finalize; BudgetExhausted].

(** Two readings of "the client name is unset": no name at all, and what
    Python's [not client_name] tests, no name or an empty one. *)
Definition name_absent (o : option str) : bool :=
  match o with None => true | Some _ => false end.

Definition name_falsy (o : option str) : bool := negb (truthy o).

Section Ladder.

Variable U : unicode_db.
Variable team_number : str.
Variable E : env.
Variable unset : option str -> bool.

(** The test of each branch, on the conversation after the inbound turn
    was appended and counted. *)
Definition branch_test (text : str) (conv : WhatsAppConversation) (b : branch)
  : bool :=
  match b with
  | NameRequest => unset (client_name conv) && (messages_used conv =? 1)
  | NameCapture =>
      unset (client_name conv) || opt_eqb (client_name conv) (lit "Unknown")
  | Classified => (0.8 <=? c_confidence (classify_message U text))%float
  | TeamContact => wants_team_contact U text
  | Finalize => check_for_completion_keywords U text
  | BudgetExhausted => 20 <=? messages_used conv
  | Fallback => true
  end.

(** First match wins. *)
Definition select_branch (text : str) (conv : WhatsAppConversation) : branch :=
  default Fallback (List.find (branch_test text conv) ladder).

(** What each branch does: the team alert it posts, if any, the
    conversation as it leaves it and the reply. *)
Definition branch_body (b : branch) (phone text : str)
    (conv : WhatsAppConversation) : M (WhatsAppConversation * str) :=
  match b with
  | NameRequest =>
      ret (with_client_name conv (Some (lit "Unknown")),
           lit "Hello! What is your name, sir?")
  | NameCapture =>
      ret (with_client_name conv (Some (strip U text)),
           lit "Nice to meet you, " ++ strip U text
           ++ lit "! I'm here to help you with your project requirements. What type of app or website are you looking to build?")
  | Classified =>
      let c := classify_message U text in
      (if str_eqb (c_type c) (lit "pricing") then
         notify_team U team_number E
           (lit "💰 PRICING INQUIRY" ++ nl ++ nl ++ lit "Message: " ++ text)
           (Some phone) (client_name conv)
           (Some (lit "Client is asking about pricing for our services"))
       else ret false) ;;;
      ret (conv, c_response c)
  | TeamContact =>
      notify_team U team_number E
        (lit "📞 CLIENT WANTS TEAM CONTACT" ++ nl ++ nl ++ lit "Message: " ++ text)
        (Some phone) (client_name conv)
        (Some (lit "Client specifically requested team to reach out for project discussion")) ;;;
      ret (conv,
           lit "Perfect! I'll have our team reach out to you shortly to discuss your project requirements in detail.")
  | Finalize =>
      let finalized := with_status conv (lit "finalized") in
      notify_team U team_number E
        (lit "✅ PROJECT FINALIZED" ++ nl ++ nl
         ++ format_conversation_summary U finalized)
        (Some phone) (client_name conv)
        (Some (lit "Client has finalized their project requirements")) ;;;
      ret (finalized,
           lit "Great! Your project description has been saved. Our team will reach out to you soon.")
  | BudgetExhausted =>
      notify_team U team_number E
        (lit "⚠️ MESSAGE LIMIT REACHED" ++ nl ++ nl ++ lit "Messages used: "
         ++ str_of_int (messages_used conv))
        (Some phone) (client_name conv)
        (Some (lit "Client has reached the message limit and needs team follow-up")) ;;;
      ret (conv,
           lit "You've reached the message limit. Our team will contact you shortly.")
  | Fallback =>
      ret (conv,
           get_llama_response E
             (List.map (fun msg => (role msg, message msg))
                (removelast (conversation conv)))
             text)
  end.

(** The ladder as a table: run the body of the selected branch. *)
Definition respond_by_table (phone text : str) (conv : WhatsAppConversation)
  : M (WhatsAppConversation * str) :=
  branch_body (select_branch text conv) phone text conv.

End Ladder.

(** Below the name branches: a named client whose message is neither
    classified with confidence nor a request for the team. *)
Definition past_team_contact (U : unicode_db) (name : option str)
    (text : str) : Prop :=
  truthy name = true
  /\ opt_eqb name (lit "Unknown") = false
  /\ (0.8 <=? c_confidence (classify_message U text))%float = false
  /\ wants_team_contact U text = false.

(** ** Running the engine *)

(** The gateway accepted a request: HTTP 200 and JSON status 200. *)
Definition accepted (r : gateway_response) : bool :=
  match r with
  | GatewayHttp status_code (Some json_status) =>
      (status_code =? 200) && (json_status =? 200)
  | _ => false
  end.

Definition client_turn (text : str) (t : Z) : ConversationMessage :=
  {| role := lit "client"; message := text; timestamp := t |}.

Definition assistant_turn (text : str) (t : Z) : ConversationMessage :=
  {| role := lit "assistant"; message := text; timestamp := t |}.

(** The conversation [get_or_create_conversation] builds from a document
    found under [key], and the one it creates when it finds none. *)
Definition conversation_of_document (key p : str) (doc : document) (t : Z)
  : WhatsAppConversation :=
  {| id := Some key;
     client_name := d_client_name doc;
     phone_number := p;
     conversation := default [] (d_conversation doc);
     status := default (lit "pending") (d_status doc);
     messages_used := default 0 (d_messages_used doc);
     created_at := default t (d_created_at doc);
     updated_at := default (t + 1) (d_updated_at doc) |}.

Definition fresh_conversation (key : str) (t : Z) : WhatsAppConversation :=
  {| id := None; client_name := None; phone_number := key;
     conversation := []; status := lit "pending"; messages_used := 0;
     created_at := t; updated_at := t + 1 |}.

(** ** Replies and alerts *)

Definition name_request_reply : str := lit "Hello! What is your name, sir?".

Definition project_inquiry_reply (name : str) : str :=
  lit "Nice to meet you, " ++ name
  ++ lit "! I'm here to help you with your project requirements. What type of app or website are you looking to build?".

Definition limit_reply : str :=
  lit "You've reached the message limit. Our team will contact you shortly.".

Definition limit_alert (phone : str) (name : option str) (used : Z) : str :=
  team_alert_text
    (lit "⚠️ MESSAGE LIMIT REACHED" ++ nl ++ nl ++ lit "Messages used: "
     ++ str_of_int used)
    (Some phone) name
    (Some (lit "Client has reached the message limit and needs team follow-up")).

Definition finalized_reply : str :=
  lit "Great! Your project description has been saved. Our team will reach out to you soon.".

(** What [notify_team] puts before and after the text it is given. *)
Definition alert_banner : str := lit "🚨 TEAM ALERT 🚨" ++ nl ++ nl.

Definition alert_footer (phone client project_details : option str) : str :=
  (if truthy client then nl ++ lit "👤 Client Name: " ++ fmt_opt client else [])
  ++ (if truthy phone then nl ++ lit "📱 Client Phone: " ++ fmt_opt phone else [])
  ++ (if truthy project_details
      then nl ++ lit "💼 Project Details: " ++ fmt_opt project_details else [])
  ++ nl ++ nl
  ++ lit "🤖 Bot Response: Please reach out to this client for further discussion about their project requirements.".

(** The lines of the summary above the transcript. *)
Definition summary_header (conv : WhatsAppConversation) : str :=
  ((((lit "Client: " ++ fmt_opt (client_name conv) ++ nl)
     ++ lit "Phone: " ++ phone_number conv ++ nl)
    ++ lit "Messages: " ++ str_of_int (messages_used conv) ++ nl)
   ++ lit "Status: " ++ status conv ++ nl ++ nl)
  ++ lit "Conversation:" ++ nl.

(** A turn as the summary shows it: a mark for who speaks and the role
    with a capital, which for the two roles the engine writes are
    "👤 Client" and "🤖 Assistant", then the text, on a line of its own. *)
Definition speaker (U : unicode_db) (r : str) : str :=
  if str_eqb r (lit "client") then lit "👤 Client"
  else if str_eqb r (lit "assistant") then lit "🤖 Assistant"
  else lit "🤖 " ++ title U r.

Definition transcript_line (U : unicode_db) (m : ConversationMessage) : str :=
  speaker U (role m) ++ lit ": " ++ message m ++ nl.

(** ** Concrete runs

    A store with nothing in it, an outside world where every call goes
    through and the completion API answers a fixed text, and the handler
    run there with the ASCII-only tables. *)

Definition empty_world : world :=
  {| collection := ∅; clock := 0; posted := [] |}.

Definition all_ok : env :=
  {| find_one_ok := true; insert_one_ok := true; replace_one_ok := true;
     gateway := fun _ => GatewayHttp 200 (Some 200);
     groq_api_key := true;
     groq := fun _ => GroqHttp 200 (Some (lit "Tell me more.")) |}.

Definition with_gateway (E : env) (g : nat -> gateway_response) : env :=
  {| find_one_ok := find_one_ok E; insert_one_ok := insert_one_ok E;
     replace_one_ok := replace_one_ok E; gateway := g;
     groq_api_key := groq_api_key E; groq := groq E |}.

Definition with_replace_one (E : env) (ok : bool) : env :=
  {| find_one_ok := find_one_ok E; insert_one_ok := insert_one_ok E;
     replace_one_ok := ok; gateway := gateway E;
     groq_api_key := groq_api_key E; groq := groq E |}.

Definition TEAM : str := lit "+920000000000".
Definition PHONE : str := lit "03001112233".

Definition handle_at (E : env) (phone text : str) (w : world)
  : result bool * world :=
  handle_incoming_message ascii_only_db TEAM (fun t => t) E phone text w.

(** The world after one more inbound message, all going well. *)
Definition then_inbound (text : str) (w : world) : world :=
  snd (handle_at all_ok PHONE text w).

(** The conversation as the ladder sees it when [text] arrives. *)
Definition seen_by_ladder (text : str) (w : world) : option WhatsAppConversation :=
  match get_or_create_conversation ascii_only_db (fun t => t) all_ok PHONE w with
  | (Ok conv0, w0) =>
      Some (count_message (append_message conv0 (client_turn text (clock w0))))
  | (Raised, _) => None
  end.

Definition after_messages (texts : list str) (w : world) : world :=
  fold_left (fun w text => then_inbound text w) texts w.

(** The world after a new client said hello, gave the name John and sent
    seventeen more messages that no earlier branch takes. *)
Definition nineteen_messages : world :=
  after_messages (lit "hi" :: lit "John" :: repeat (lit "ok") 17) empty_world.

(** The world after a new client said hello, gave the name John and
    described the project. *)
Definition project_described : world :=
  after_messages [lit "hi"; lit "John"; lit "I need an online store"] empty_world.

Definition sample_conversation : WhatsAppConversation :=
  {| id := None; client_name := Some (lit "John");
     phone_number := lit "+923001112233";
     conversation :=
       [client_turn (lit "hi") 2; assistant_turn name_request_reply 3;
        client_turn (lit "John") 7;
        assistant_turn (project_inquiry_reply (lit "John")) 8];
     status := lit "finalized"; messages_used := 2;
     created_at := 0; updated_at := 9 |}.

(** ** The status of a conversation *)

(** What reaches the store from outside: an inbound message handled by
    [handle_incoming_message], or a lookup through
    [get_or_create_conversation] alone. *)
Inductive operation :=
| Inbound (E : env) (phone text : str)
| Lookup (E : env) (phone : str).

Definition pending_or_finalized (s : option str) : Prop :=
  s = Some (lit "pending") \/ s = Some (lit "finalized").

(** Every document sits under its own phone number and has one of the two
    statuses. *)
Definition well_kept (m : gmap str document) : Prop :=
  forall k d, m !! k = Some d ->
    d_phone_number d = Some k /\ pending_or_finalized (d_status d).

(** From [m] to [m']: documents stay, and a finalized one stays finalized. *)
Definition keeps_finalized (m m' : gmap str document) : Prop :=
  forall k d, m !! k = Some d ->
    exists d', m' !! k = Some d'
      /\ (d_status d = Some (lit "finalized")
          -> d_status d' = Some (lit "finalized")).

(** From [m] to [m']: a document that appears is pending. *)
Definition new_are_pending (m m' : gmap str document) : Prop :=
  forall k d', m !! k = None -> m' !! k = Some d' ->
    d_status d' = Some (lit "pending").

Section Operations.

Variable U : unicode_db.
Variable team_number : str.
Variable bson_datetime : Z -> Z.

Definition step (op : operation) (w : world) : world :=
  match op with
  | Inbound E phone text => snd (handle_incoming_message U team_number bson_datetime E phone text w)
  | Lookup E phone => snd (get_or_create_conversation U bson_datetime E phone w)
  end.

(** The requests taken in turn: each call runs to its end before the next
    is started.  Calls that overlap are the schedules of the event loop,
    [exec] below, of which this is one ([in_turn_is_run]). *)
Definition run (ops : list operation) (w : world) : world :=
  fold_left (fun w op => step op w) ops w.

(** One operation leaves the store as it is or writes one conversation
    under [key], whose status is one of the two, is "finalized" when the
    document it replaces was, and is "pending" when it replaces none. *)
Definition writes_at (key : str) (m m' : gmap str document) : Prop :=
  m' = m
  \/ exists conv,
       m' = <[key := to_document bson_datetime conv]> m
       /\ phone_number conv = key
       /\ (status conv = lit "pending" \/ status conv = lit "finalized")
       /\ (forall d, m !! key = Some d ->
             d_status d = Some (lit "finalized") ->
             status conv = lit "finalized")
       /\ (m !! key = None -> status conv = lit "pending").

End Operations.

(** ** Forms of the older formatters that the proofs go through *)

(** The branches of the module's [format_phone_number] on the cleaned
    digits, literals decoded. *)
Definition from_cleaned (c : str) : str :=
  if startswith [57; 50]%N c then c
  else if startswith [48]%N c then 57%N :: 50%N :: drop 1 c
  else if len c =? 10 then 57%N :: 50%N :: c
  else if (len c =? 11) && startswith [51]%N c then 57%N :: 50%N :: c
  else c.

(** ** Stores and transcripts *)

(** Every document sits under its own phone number. *)
Definition keyed (m : gmap str document) : Prop :=
  forall k d, m !! k = Some d -> d_phone_number d = Some k.

(** The turns and the count of a document as a fetch reads them. *)
Definition turns_of (d : document) : list ConversationMessage :=
  default [] (d_conversation d).

Definition used_of (d : document) : Z := default 0 (d_messages_used d).

(** Who said what, without the timestamp. *)
Definition said (m : ConversationMessage) : str * str := (role m, message m).

(** The roles of [n] exchanges: client, assistant, client, assistant... *)
Definition alternating (n : nat) : list str :=
  concat (repeat [lit "client"; lit "assistant"] n).

(** Each transcript is a sequence of exchanges, as many as were counted. *)
Definition balanced (m : gmap str document) : Prop :=
  forall k d, m !! k = Some d ->
    0 <= used_of d
    /\ List.map role (turns_of d) = alternating (Z.to_nat (used_of d)).

(** From [m] to [m']: documents stay, transcripts only grow at the end and
    counts do not go down. *)
Definition extends (m m' : gmap str document) : Prop :=
  forall k d, m !! k = Some d ->
    exists d' more,
      m' !! k = Some d'
      /\ List.map said (turns_of d') = List.map said (turns_of d) ++ more
      /\ used_of d <= used_of d'.

Definition with_d_status (d : document) (s : str) : document :=
  {| d_client_name := d_client_name d; d_phone_number := d_phone_number d;
     d_conversation := d_conversation d; d_status := Some s;
     d_messages_used := d_messages_used d; d_created_at := d_created_at d;
     d_updated_at := d_updated_at d |}.

(** What a document holds for the next fetch, [None] standing for no
    document. *)
Definition old_turns (o : option document) : list ConversationMessage :=
  match o with Some d => turns_of d | None => [] end.

Definition old_used (o : option document) : Z :=
  match o with Some d => used_of d | None => 0 end.

(** From [m] to [m'] by one operation on [key]: nothing, a new empty
    record, or one exchange appended to the transcript under [key]. *)
Definition one_operation (bson_datetime : Z -> Z) (key : str)
    (m m' : gmap str document) : Prop :=
  m' = m
  \/ (m !! key = None
      /\ exists t,
           m' = <[key := to_document bson_datetime (fresh_conversation key t)]> m)
  \/ exists conv inbound reply t t',
       m' = <[key := to_document bson_datetime conv]> m
       /\ phone_number conv = key
       /\ conversation conv
          = old_turns (m !! key)
            ++ [client_turn inbound t; assistant_turn reply t']
       /\ messages_used conv = old_used (m !! key) + 1.

(** ** What a pattern can consume *)

(** The texts a pattern of the fragment can match, word boundaries
    consuming nothing. *)
Fixpoint alternatives (r : regex) : list str :=
  match r with
  | Chr c => [[c]]
  | Eps => [[]]
  | Cat r1 r2 =>
      flat_map (fun a => List.map (fun b => a ++ b) (alternatives r2))
        (alternatives r1)
  | Alt r1 r2 => alternatives r1 ++ alternatives r2
  | WordB => [[]]
  end.

Definition group_words (g : pattern_group) : list str :=
  flat_map alternatives (g_patterns g).

(** An ASCII character that lower-casing leaves alone. *)
Definition lowercase_ascii (c : char) : bool :=
  is_ascii c && (ascii_lower c =? c)%N.

(** Pattern character [p] matches text character [c]. *)
Definition matches_char (U : unicode_db) (p c : char) : Prop :=
  ignorecase_eq U p c = true.

(** ** The event loop *)

(** A call in the event loop: the request it serves and how far it is. *)
Record task := {
  request : operation;
  state : paused unit
}.

(** The event loop: the world and the calls that were started, in the
    order they were. *)
Record system := {
  store : world;
  pool : list task
}.

(** Nothing running. *)
Definition idle (w : world) : system := {| store := w; pool := [] |}.

(** What the event loop does next: it starts the coroutine of a request
    that came in, or it resumes the call started as number [i]. *)
Inductive event :=
| Start (op : operation)
| Resume (i : nat).

Definition caller (op : operation) : str :=
  match op with
  | Inbound _ phone _ => phone
  | Lookup _ phone => phone
  end.

Section EventLoop.

Variable U : unicode_db.
Variable team_number : str.
Variable bson_datetime : Z -> Z.

(** The coroutine of a request; the event loop does not look at what it
    returns. *)
Definition call (op : operation) : C unit :=
  match op with
  | Inbound E phone text =>
      Async.handle_incoming_message U team_number bson_datetime E phone text ;;~
      now (ret tt)
  | Lookup E phone =>
      Async.get_or_create_conversation U bson_datetime E phone ;;~
      now (ret tt)
  end.

Definition happen (e : event) (s : system) : system :=
  match e with
  | Start op =>
      let (p, w) := call op (store s) in
      {| store := w; pool := pool s ++ [{| request := op; state := p |}] |}
  | Resume i =>
      match pool s !! i with
      | Some {| request := op; state := Paused next effect |} =>
          {| store := effect (store s);
             pool := <[i := {| request := op; state := next (store s) |}]>
                       (pool s) |}
      | _ => s
      end
  end.

Definition exec (sched : list event) (s : system) : system :=
  fold_left (fun s e => happen e s) sched s.

(** The key of the record a request is about. *)
Definition record_of (op : operation) : str := normalize_to_e164 U (caller op).

(** The call [t] is over, or is about another record than [op]. *)
Definition out_of_the_way (op : operation) (t : task) : bool :=
  finished (state t) || negb (str_eqb (record_of (request t)) (record_of op)).

(** No call is started while another call about the same record is
    suspended. *)
Fixpoint one_call_per_number (sched : list event) (s : system) : bool :=
  match sched with
  | [] => true
  | e :: rest =>
      match e with
      | Start op => forallb (out_of_the_way op) (pool s)
      | Resume _ => true
      end
      && one_call_per_number rest (happen e s)
  end.

(** The schedule that takes the requests in turn, each call resumed until
    it ends before the next is started. *)
Fixpoint in_turn (ops : list operation) (s : system) : list event :=
  match ops with
  | [] => []
  | op :: rest =>
      let (p, w) := call op (store s) in
      let this :=
        Start op :: repeat (Resume (length (pool s))) (suspensions p w) in
      this ++ in_turn rest (exec this s)
  end.

End EventLoop.

(** ** What a call does to the store

    A call is followed from one suspension to the next.  While it is
    suspended other calls run: [rely] relates the store it left to the
    store it finds when it is resumed.  [guar] relates the store at a
    resumption to the store at the next suspension.  [Q] is what holds at
    the end of the result, of the store [ms] at the last resumption and of
    the store [m] at the end. *)

Definition post_of (A : Type) : Type :=
  result A -> gmap str document -> gmap str document -> Prop.

Section Unfolding.

Variable rely guar : gmap str document -> gmap str document -> Prop.

Fixpoint unfolds {A} (Q : post_of A) (p : paused A)
    (ms m : gmap str document) : Prop :=
  match p with
  | Done r => Q r ms m
  | Paused next effect =>
      guar ms m
      /\ forall w, rely m (collection w) ->
           unfolds Q (next w) (collection w) (collection (effect w))
  end.

Definition runs {A} (Q : post_of A) (c : C A) (ms m : gmap str document)
  : Prop :=
  forall w, collection w = m ->
    unfolds Q (fst (c w)) ms (collection (snd (c w))).

End Unfolding.

(** Every record sits under its own phone number and is [good]. *)
Definition every (good : document -> Prop) (m : gmap str document) : Prop :=
  forall k d, m !! k = Some d -> d_phone_number d = Some k /\ good d.

(** [conv] is the record [doc] with one exchange added. *)
Definition one_exchange_on (doc : document) (conv : WhatsAppConversation)
  : Prop :=
  exists inbound reply t t',
    conversation conv
    = turns_of doc ++ [client_turn inbound t; assistant_turn reply t']
    /\ messages_used conv = used_of doc + 1
    /\ (status conv = default (lit "pending") (d_status doc)
        \/ status conv = lit "finalized").

(** A property of records that a new record has and that adding an
    exchange keeps. *)
Definition kept_by_the_engine (bson_datetime : Z -> Z)
    (good : document -> Prop) : Prop :=
  (forall key t, good (to_document bson_datetime (fresh_conversation key t)))
  /\ (forall doc conv,
        good doc -> one_exchange_on doc conv ->
        good (to_document bson_datetime conv)).

Section CallsOnARecord.

Variable bson_datetime : Z -> Z.
Variable key : str.
Variable good : document -> Prop.
(** Whether the other calls leave the record under [key] alone while this
    one is suspended. *)
Variable undisturbed : Prop.

(** What a suspended call about [key] finds when it is resumed: the store
    is in order and the record is still there. *)
Definition found_on_resumption (m m1 : gmap str document) : Prop :=
  every good m1
  /\ (is_Some (m !! key) -> is_Some (m1 !! key))
  /\ (undisturbed -> m1 !! key = m !! key).

(** What a call about [key] does between two suspensions: nothing, or it
    creates the record, empty, or it replaces it by a [good] one, which
    is the record with one exchange added if the call was [undisturbed]. *)
Definition done_between_suspensions (m m' : gmap str document) : Prop :=
  m' = m
  \/ (m !! key = None
      /\ exists t,
           m' = <[key := to_document bson_datetime (fresh_conversation key t)]> m)
  \/ exists conv,
       m' = <[key := to_document bson_datetime conv]> m
       /\ phone_number conv = key
       /\ good (to_document bson_datetime conv)
       /\ is_Some (m !! key)
       /\ (undisturbed ->
           exists doc, m !! key = Some doc /\ one_exchange_on doc conv).

(** What a call knows of the record [doc] it holds a copy of. *)
Definition holds_copy (doc : document) (m : gmap str document) : Prop :=
  every good m /\ good doc /\ is_Some (m !! key)
  /\ (undisturbed -> m !! key = Some doc).

Definition fetched (r : result WhatsAppConversation)
    (ms m : gmap str document) : Prop :=
  match r with
  | Raised => done_between_suspensions ms m
  | Ok conv =>
      ms = m
      /\ exists doc,
           holds_copy doc m
           /\ phone_number conv = key
           /\ conversation conv = turns_of doc
           /\ messages_used conv = used_of doc
           /\ status conv = default (lit "pending") (d_status doc)
  end.

(** A call about [key] that is over, or that goes on as it should from
    the store [m]. *)
Definition goes_on (p : paused unit) (m : gmap str document) : Prop :=
  exists ms,
    unfolds found_on_resumption done_between_suspensions
      (fun _ ms m => done_between_suspensions ms m) p ms m.

End CallsOnARecord.

Section Calm.

Variable U : unicode_db.
Variable bson_datetime : Z -> Z.
Variable good : document -> Prop.
Variable undisturbed : Prop.

(** The store is in order and every suspended call goes on as it should;
    when calls are to be [undisturbed], no two suspended calls are about
    the same record. *)
Definition calm (s : system) : Prop :=
  every good (collection (store s))
  /\ forall i t, pool s !! i = Some t ->
       finished (state t) = true
       \/ (goes_on bson_datetime (record_of U (request t)) good undisturbed
             (state t) (collection (store s))
           /\ (undisturbed ->
               forall j t', pool s !! j = Some t' -> j <> i ->
                 finished (state t') = true
                 \/ record_of U (request t') <> record_of U (request t))).

End Calm.

(** A transcript of whole exchanges, as many as were counted. *)
Definition balanced_record (d : document) : Prop :=
  0 <= used_of d
  /\ List.map role (turns_of d) = alternating (Z.to_nat (used_of d)).

(** The status of a record is one of the two. *)
Definition status_in_range (d : document) : Prop :=
  pending_or_finalized (d_status d).

(** A second phone number. *)
Definition OTHER : str := lit "0321 5556677".

(** * Properties *)

(** ** Literals *)

Lemma str_eqb_eq (a b : str) : str_eqb a b = true <-> a = b.
Proof.
  revert b. induction a as [|x a IH]; intros [|y b]; cbn [str_eqb];
    try (split; [discriminate|discriminate]); [tauto|].
  rewrite andb_true_iff, N.eqb_eq, IH. split.
  - intros [-> ->]. reflexivity.
  - intros H. injection H as -> ->. tauto.
Qed.

Example lit_ascii : lit "+92" = [43; 57; 50]%N.
Proof. reflexivity. Qed.

Example lit_emoji : lit "👋 ok" = [128075; 32; 111; 107]%N.
Proof. reflexivity. Qed.

Example lit_bmp : lit "⚠️" = [9888; 65039]%N.
Proof. reflexivity. Qed.

Example str_of_int_20 :
  str_of_int 20 = lit "20" /\ str_of_int 0 = lit "0"
  /\ str_of_int (-3) = lit "-3".
Proof. repeat split; reflexivity. Qed.

Example normalize_docstring :
  forall U,
    normalize_to_e164 U (lit "+923001112233") = lit "+923001112233" /\
    normalize_to_e164 U (lit "923001112233") = lit "+923001112233" /\
    normalize_to_e164 U (lit "03001112233") = lit "+923001112233" /\
    normalize_to_e164 U (lit "3001112233") = lit "+923001112233" /\
    normalize_to_e164 U (lit "(0300) 111-2233") = lit "+923001112233".
Proof. intros U. repeat split; reflexivity. Qed.

(** ** Phone normaliser *)

Lemma e164_rule_functional d r1 r2 :
  e164_rule d r1 -> e164_rule d r2 -> r1 = r2.
Proof.
  intros H1 H2; destruct H1; destruct H2; try reflexivity; tauto.
Qed.

Lemma e164_rule_nonempty d r : e164_rule d r -> r <> [].
Proof. intros H; destruct H; discriminate. Qed.

Lemma normalize_nonempty_rule U (s : str) :
  s <> [] -> e164_rule (digits_of U s) (normalize_to_e164 U s).
Proof.
  intros Hs. unfold normalize_to_e164.
  destruct s as [|c s]; [congruence|]. cbn [falsy].
  generalize (digits_of U (c :: s)) as d. intros d. rewrite Z.geb_leb.
  destruct (startswith (lit "92") d && (12 <=? len d)) eqn:H1.
  - apply andb_prop in H1 as [Ha Hb]. apply rule_country_code.
    split; [exact Ha | lia].
  - assert (N1 : ~ has_country_code d).
    { intros [Ha Hb]. rewrite Ha in H1. cbn in H1. lia. }
    destruct (startswith (lit "0") d && (len d =? 11)) eqn:H2.
    + apply andb_prop in H2 as [Ha Hb]. apply rule_local_zero; [exact N1|].
      split; [exact Ha | lia].
    + assert (N2 : ~ has_local_zero d).
      { intros [Ha Hb]. rewrite Ha in H2. cbn in H2. lia. }
      destruct (len d =? 10) eqn:H3.
      * apply rule_ten_digits; [exact N1 | exact N2 | lia].
      * apply rule_fallback; [exact N1 | exact N2 | lia].
Qed.

(** C7, as amended.  The empty string is returned as it is; for every
    other input the result is the one, and the only one, that the four
    ordered rules give on the digits of the input. *)
Theorem normalize_to_e164_applies_rules U (s : str) :
  s <> [] ->
  normalize_to_e164 U [] = []
  /\ e164_rule (digits_of U s) (normalize_to_e164 U s)
  /\ forall r, e164_rule (digits_of U s) r -> r = normalize_to_e164 U s.
Proof.
  intros Hs. split; [reflexivity|]. split.
  - apply normalize_nonempty_rule, Hs.
  - intros r Hr.
    exact (e164_rule_functional _ _ _ Hr (normalize_nonempty_rule U s Hs)).
Qed.

Lemma normalize_to_e164_applies_rules_witness :
  lit "0300-1112233" <> []
  /\ normalize_to_e164 ascii_only_db [] = []
  /\ e164_rule (digits_of ascii_only_db (lit "0300-1112233"))
       (normalize_to_e164 ascii_only_db (lit "0300-1112233")).
Proof.
  assert (H : lit "0300-1112233" <> []) by (vm_compute; discriminate).
  destruct (normalize_to_e164_applies_rules ascii_only_db _ H) as (H0 & H1 & _).
  exact (conj H (conj H0 H1)).
Defined.

(** C7, as stated, fails at the empty string: the rules on its (empty)
    digits give ["+"], the function returns the empty string. *)
Lemma normalize_to_e164_empty_input_breaks_rules :
  normalize_to_e164 ascii_only_db (lit "") = lit ""
  /\ e164_rule (digits_of ascii_only_db (lit "")) (lit "+")
  /\ ~ e164_rule (digits_of ascii_only_db (lit ""))
        (normalize_to_e164 ascii_only_db (lit "")).
Proof.
  split; [reflexivity|]. split.
  - apply (rule_fallback []).
    + intros [H _]. discriminate H.
    + intros [H _]. discriminate H.
    + discriminate.
  - intros H. apply e164_rule_nonempty in H. apply H. reflexivity.
Qed.

(** *** Idempotence *)

Section Idempotence.

Variable U : unicode_db.

Lemma normalize_unfold (s : str) :
  normalize_to_e164 U s =
  if falsy s then s else from_digits (digits_of U s).
Proof.
  unfold normalize_to_e164, from_digits. rewrite Z.geb_leb. reflexivity.
Qed.

Lemma digits_of_all_digits (s : str) :
  forallb (isdigit U) (digits_of U s) = true.
Proof.
  unfold digits_of. induction s as [|c s IH]; [reflexivity|].
  cbn [List.filter]. destruct (isdigit U c) eqn:Hc; [|exact IH].
  cbn [forallb]. rewrite Hc, IH. reflexivity.
Qed.

Lemma digits_of_fixed (d : str) :
  forallb (isdigit U) d = true -> digits_of U d = d.
Proof.
  unfold digits_of. induction d as [|c d IH]; [reflexivity|].
  cbn [forallb List.filter]. intros H. apply andb_prop in H as [Hc Hd].
  rewrite Hc, (IH Hd). reflexivity.
Qed.

Lemma digits_of_plus (x : str) :
  digits_of U (43%N :: x) = digits_of U x.
Proof. reflexivity. Qed.

Lemma digits_of_92 (x : str) :
  digits_of U (57%N :: 50%N :: x) = 57%N :: 50%N :: digits_of U x.
Proof. reflexivity. Qed.

Lemma len_cons (c : char) (s : str) : len (c :: s) = len s + 1.
Proof. unfold len. cbn [length]. lia. Qed.

Lemma len_nonneg (s : str) : 0 <= len s.
Proof. unfold len. lia. Qed.

Lemma from_digits_stable (d : str) :
  forallb (isdigit U) d = true ->
  from_digits (digits_of U (from_digits d)) = from_digits d.
Proof.
  intros Hd. unfold from_digits at 2 3.
  destruct (startswith [57; 50]%N d && (12 <=? len d)) eqn:H1.
  - rewrite digits_of_plus, (digits_of_fixed d Hd).
    unfold from_digits. rewrite H1. reflexivity.
  - destruct (startswith [48]%N d && (len d =? 11)) eqn:H2.
    + apply andb_prop in H2 as [Hz Hl].
      destruct d as [|z d']; [discriminate Hz|].
      cbn [drop]. rewrite len_cons in Hl.
      cbn [forallb] in Hd. apply andb_prop in Hd as [_ Hd'].
      change (drop 0 d') with d'.
      rewrite digits_of_plus, digits_of_92, (digits_of_fixed d' Hd').
      unfold from_digits.
      replace (startswith [57; 50]%N (57%N :: 50%N :: d')) with true
        by reflexivity.
      rewrite !len_cons.
      replace (12 <=? len d' + 1 + 1) with true by lia.
      reflexivity.
    + destruct (len d =? 10) eqn:H3.
      * rewrite digits_of_plus, digits_of_92, (digits_of_fixed d Hd).
        unfold from_digits.
        replace (startswith [57; 50]%N (57%N :: 50%N :: d)) with true
          by reflexivity.
        rewrite !len_cons.
        replace (12 <=? len d + 1 + 1) with true by lia.
        reflexivity.
      * rewrite digits_of_plus, (digits_of_fixed d Hd).
        unfold from_digits. rewrite H1, H2, H3. reflexivity.
Qed.

Lemma from_digits_nonempty (d : str) : falsy (from_digits d) = false.
Proof.
  unfold from_digits.
  repeat match goal with |- context [if ?b then _ else _] => destruct b end;
    reflexivity.
Qed.

Lemma normalize_idempotent (s : str) :
  normalize_to_e164 U (normalize_to_e164 U s) = normalize_to_e164 U s.
Proof.
  rewrite (normalize_unfold s).
  destruct s as [|c s]; [reflexivity|]. cbn [falsy].
  rewrite normalize_unfold, from_digits_nonempty.
  apply from_digits_stable, digits_of_all_digits.
Qed.

End Idempotence.

(** C10.  Normalising twice is normalising once, on every input and
    whatever the Unicode tables say outside ASCII: a result of the
    country-code, local-zero or ten-digit rule has twelve or more digits
    starting with 92, and a result of the fallback rule keeps its digits. *)
Theorem normalize_to_e164_idempotent :
  forall (U : unicode_db) (s : str),
    normalize_to_e164 U (normalize_to_e164 U s) = normalize_to_e164 U s.
Proof. intros U s. apply normalize_idempotent. Qed.

(** ** Message classifier *)

Lemma classify_message_first_group U (text : str) :
  classify_message U text = classify_by_priority U text.
Proof.
  unfold classify_message, classify_by_priority, ordered_groups.
  cbn [List.find g_patterns g_type g_response g_confidence].
  repeat match goal with
         | |- context [if ?b then _ else _] => destruct b; try reflexivity
         end.
Qed.

(** C6.  [classify_message] is a function of its argument alone, defined
    on every string; its result is that of the first matching group in the
    order pricing, support, general, greeting, and [other] when none
    matches; the type fixes the confidence (0.9, 0.8, 0.7, 0.9, 0.5) and
    the response; and "how much does support cost", which a support
    pattern matches too, is classified as pricing. *)
Theorem classify_message_priority_order :
  forall (U : unicode_db) (text : str),
    classify_message U text = classify_by_priority U text
    /\ List.map g_type ordered_groups
       = [lit "pricing"; lit "support"; lit "general"; lit "greeting"]
    /\ List.map g_confidence ordered_groups
       = [0.9; 0.8; 0.7; 0.9]%float
    /\ (let r := classify_message U text in
        (r = {| c_type := lit "pricing";
                c_response := lit "Our pricing starts from $99. Would you like the full details?";
                c_confidence := 0.9 |})
        \/ (r = {| c_type := lit "support";
                   c_response := lit "I'm here to help. Could you share more details about the issue?";
                   c_confidence := 0.8 |})
        \/ (r = {| c_type := lit "general";
                   c_response := lit "Thanks for your message! Our team will respond shortly.";
                   c_confidence := 0.7 |})
        \/ (r = {| c_type := lit "greeting";
                   c_response := lit "Hello 👋 How can I help you today?";
                   c_confidence := 0.9 |})
        \/ (r = {| c_type := lit "other";
                   c_response := lit "Thanks for your message! Our team will respond shortly.";
                   c_confidence := 0.5 |}
            /\ forall g, In g ordered_groups ->
                 matches_patterns U (strip U (lower U text)) (g_patterns g)
                 = false))
    /\ c_type (classify_message U (lit "how much does support cost"))
       = lit "pricing"
    /\ matches_patterns U
         (strip U (lower U (lit "how much does support cost")))
         support_patterns = true.
Proof.
  intros U text. split; [apply classify_message_first_group|].
  split; [reflexivity|]. split; [reflexivity|]. split.
  - cbv zeta. unfold classify_message.
    destruct (matches_patterns U _ pricing_patterns) eqn:H1; [tauto|].
    destruct (matches_patterns U _ support_patterns) eqn:H2; [tauto|].
    destruct (matches_patterns U _ general_patterns) eqn:H3; [tauto|].
    destruct (matches_patterns U _ greeting_inline_patterns) eqn:H4; [tauto|].
    do 4 right. split; [reflexivity|].
    intros g [<-|[<-|[<-|[<-|[]]]]]; assumption.
  - split; vm_compute; reflexivity.
Qed.

Example classify_examples :
  c_type (classify_message ascii_only_db (lit "  I need HELP please ")) = lit "support"
  /\ c_type (classify_message ascii_only_db (lit "Hi there")) = lit "greeting"
  /\ c_type (classify_message ascii_only_db (lit "this is history")) = lit "other"
  /\ c_type (classify_message ascii_only_db (lit "thanks a lot")) = lit "general".
Proof. repeat split; vm_compute; reflexivity. Qed.

(** ** The reply ladder *)

Ltac first_match_done :=
  cbn [default];
  split; [reflexivity | split; [first [assumption | reflexivity]
                               | repeat constructor; assumption]].

(** The selected branch passes its test and no branch before it does. *)
Lemma select_branch_first (U : unicode_db) (unset : option str -> bool)
    (text : str) (conv : WhatsAppConversation) :
  exists before after,
    ladder ++ [Fallback] = before ++ select_branch U unset text conv :: after
    /\ branch_test U unset text conv (select_branch U unset text conv) = true
    /\ Forall (fun b => branch_test U unset text conv b = false) before.
Proof.
  unfold select_branch, ladder. cbn [List.find].
  destruct (branch_test U unset text conv NameRequest) eqn:T1;
    [ exists [], [NameCapture; Classified; TeamContact; Finalize; BudgetExhausted; Fallback];
      first_match_done |].
  destruct (branch_test U unset text conv NameCapture) eqn:T2;
    [ exists [NameRequest], [Classified; TeamContact; Finalize; BudgetExhausted; Fallback];
      first_match_done |].
  destruct (branch_test U unset text conv Classified) eqn:T3;
    [ exists [NameRequest; NameCapture], [TeamContact; Finalize; BudgetExhausted; Fallback];
      first_match_done |].
  destruct (branch_test U unset text conv TeamContact) eqn:T4;
    [ exists [NameRequest; NameCapture; Classified], [Finalize; BudgetExhausted; Fallback];
      first_match_done |].
  destruct (branch_test U unset text conv Finalize) eqn:T5;
    [ exists [NameRequest; NameCapture; Classified; TeamContact], [BudgetExhausted; Fallback];
      first_match_done |].
  destruct (branch_test U unset text conv BudgetExhausted) eqn:T6;
    [ exists [NameRequest; NameCapture; Classified; TeamContact; Finalize], [Fallback];
      first_match_done |].
  exists [NameRequest; NameCapture; Classified; TeamContact; Finalize; BudgetExhausted], [].
  first_match_done.
Qed.

Lemma respond_is_table U team_number E (phone text : str)
    (conv : WhatsAppConversation) (w : world) :
  respond U team_number E phone text conv w
  = respond_by_table U team_number E name_falsy phone text conv w.
Proof.
  unfold respond, respond_by_table, select_branch, ladder.
  cbn [List.find branch_test]. unfold name_falsy. rewrite Z.geb_leb.
  destruct (negb (truthy (client_name conv)) && (messages_used conv =? 1));
    [reflexivity|].
  destruct (negb (truthy (client_name conv))
            || opt_eqb (client_name conv) (lit "Unknown")); [reflexivity|].
  destruct (0.8 <=? c_confidence (classify_message U text))%float;
    [reflexivity|].
  destruct (wants_team_contact U text); [reflexivity|].
  destruct (check_for_completion_keywords U text); [reflexivity|].
  destruct (20 <=? messages_used conv); reflexivity.
Qed.

(** ** Running the engine *)

Section Runs.

Variable U : unicode_db.
Variable team_number : str.
Variable bson_datetime : Z -> Z.
Variable E : env.

Local Abbreviation send := (send_whatsapp_message U E).
Local Abbreviation fetch := (get_or_create_conversation U bson_datetime E).
Local Abbreviation save := (save_conversation bson_datetime E).
Local Abbreviation ladder_of := (respond U team_number E).
Local Abbreviation handle := (handle_incoming_message U team_number bson_datetime E).
Local Abbreviation doc_of := (to_document bson_datetime).

Lemma send_run (phone text : str) (w : world) :
  send phone text w
  = (Ok (accepted (gateway E (length (posted w)))),
     {| collection := collection w; clock := clock w;
        posted := posted w ++ [(normalize_to_e164 U phone, text)] |}).
Proof. reflexivity. Qed.

Lemma notify_run (text : str) (phone client details : option str) (w : world) :
  notify_team U team_number E text phone client details w
  = (Ok (accepted (gateway E (length (posted w)))),
     {| collection := collection w; clock := clock w;
        posted := posted w
                  ++ [(normalize_to_e164 U team_number,
                       team_alert_text text phone client details)] |}).
Proof. reflexivity. Qed.

Lemma fetch_run (phone : str) (w : world) :
  fetch phone w =
  let key := normalize_to_e164 U phone in
  if find_one_ok E then
    match collection w !! key with
    | Some doc =>
        match d_phone_number doc with
        | Some p =>
            (Ok (conversation_of_document key p doc (clock w)),
             {| collection := collection w; clock := clock w + 1 + 1;
                posted := posted w |})
        | None => (Raised, w)
        end
    | None =>
        if insert_one_ok E then
          (Ok (fresh_conversation key (clock w)),
           {| collection :=
                <[key := doc_of (fresh_conversation key (clock w))]>
                  (collection w);
              clock := clock w + 1 + 1; posted := posted w |})
        else
          (Raised,
           {| collection := collection w; clock := clock w + 1 + 1;
              posted := posted w |})
    end
  else (Raised, w).
Proof.
  unfold get_or_create_conversation, bind, guard, find_one.
  destruct (find_one_ok E); [|reflexivity]. cbn.
  destruct (collection w !! normalize_to_e164 U phone) as [doc|].
  - destruct (d_phone_number doc); reflexivity.
  - cbn. destruct (insert_one_ok E); reflexivity.
Qed.

Lemma save_run (conv : WhatsAppConversation) (w : world) :
  save conv w =
  let saved := with_updated_at conv (clock w) in
  if replace_one_ok E then
    (Ok saved,
     {| collection := <[phone_number conv := doc_of saved]> (collection w);
        clock := clock w + 1; posted := posted w |})
  else
    (Raised,
     {| collection := collection w; clock := clock w + 1; posted := posted w |}).
Proof.
  unfold save_conversation, bind, guard. cbn.
  destruct (replace_one_ok E); reflexivity.
Qed.

Lemma world_eta (w : world) :
  w = {| collection := collection w; clock := clock w;
         posted := posted w ++ [] |}.
Proof. destruct w; cbn. rewrite app_nil_r. reflexivity. Qed.

(** What the ladder leaves alone.  Whatever the branch, it returns; it
    touches neither the store nor the clock; it posts at most one request,
    and that one to the team; of the conversation it changes at most the
    client name and the status, and the status only to ["finalized"]. *)
Lemma respond_effects (phone text : str) (conv : WhatsAppConversation)
    (w : world) :
  exists conv' reply alerts,
    ladder_of phone text conv w
    = (Ok (conv', reply),
       {| collection := collection w; clock := clock w;
          posted := posted w ++ alerts |})
    /\ (alerts = []
        \/ exists body, alerts = [(normalize_to_e164 U team_number, body)])
    /\ phone_number conv' = phone_number conv
    /\ conversation conv' = conversation conv
    /\ messages_used conv' = messages_used conv
    /\ (status conv' = status conv \/ status conv' = lit "finalized").
Proof.
  rewrite respond_is_table. unfold respond_by_table.
  destruct (select_branch U name_falsy text conv); cbn [branch_body].
  - do 3 eexists. split; [unfold ret; rewrite (world_eta w) at 1; reflexivity|].
    cbn. tauto.
  - do 3 eexists. split; [unfold ret; rewrite (world_eta w) at 1; reflexivity|].
    cbn. tauto.
  - destruct (str_eqb (c_type (classify_message U text)) (lit "pricing")).
    + unfold bind. rewrite notify_run. do 3 eexists.
      split; [reflexivity|]. cbn. eauto 10.
    + do 3 eexists.
      split; [unfold bind, ret; rewrite (world_eta w) at 1; reflexivity|].
      cbn. tauto.
  - unfold bind. rewrite notify_run. do 3 eexists.
    split; [reflexivity|]. cbn. eauto 10.
  - unfold bind. rewrite notify_run. do 3 eexists.
    split; [reflexivity|]. cbn. eauto 10.
  - unfold bind. rewrite notify_run. do 3 eexists.
    split; [reflexivity|]. cbn. eauto 10.
  - do 3 eexists. split; [unfold ret; rewrite (world_eta w) at 1; reflexivity|].
    cbn. tauto.
Qed.

(** The handler, step by step: fetch, append and count the inbound turn,
    run the ladder, append the reply, save, deliver. *)
Lemma handle_run (phone text : str) (w : world) :
  handle phone text w =
  match fetch phone w with
  | (Raised, w0) => (Ok false, w0)
  | (Ok conv0, w0) =>
      let conv1 :=
        count_message (append_message conv0 (client_turn text (clock w0))) in
      let w1 := {| collection := collection w0; clock := clock w0 + 1;
                   posted := posted w0 |} in
      match ladder_of phone text conv1 w1 with
      | (Raised, w2) => (Ok false, w2)
      | (Ok reply, w2) =>
          let conv3 :=
            append_message (fst reply)
              (assistant_turn (snd reply) (clock w2)) in
          let saved := with_updated_at conv3 (clock w2 + 1) in
          if replace_one_ok E then
            (Ok (accepted (gateway E (length (posted w2)))),
             {| collection :=
                  <[phone_number conv3 := doc_of saved]> (collection w2);
                clock := clock w2 + 1 + 1;
                posted := posted w2 ++ [(normalize_to_e164 U phone, snd reply)] |})
          else
            (Ok false,
             {| collection := collection w2; clock := clock w2 + 1 + 1;
                posted := posted w2 |})
      end
  end.
Proof.
  unfold handle_incoming_message, try_except.
  unfold bind at 1.
  destruct (fetch phone w) as [[conv0|] w0]; [|reflexivity].
  unfold bind at 1. cbn [utcnow].
  unfold bind at 1.
  destruct (ladder_of phone text _ _) as [[reply|] w2]; [|reflexivity].
  unfold bind at 1. cbn [utcnow].
  unfold bind at 1. rewrite save_run. cbv zeta.
  destruct (replace_one_ok E); reflexivity.
Qed.

End Runs.

(** C1, as amended.  The ladder of [handle_incoming_message] runs the body
    of exactly one branch, the first in the order name request, name
    capture, classification, team contact, finalisation, budget, fallback
    whose test passes, where the two name tests read "unset" as Python's
    [not client_name]: no name or an empty one.  The handler is: fetch,
    append and count the inbound turn, run that one branch, append its
    reply, save, deliver. *)
Theorem respond_selects_first_matching_branch :
  forall (U : unicode_db) (team_number : str) (bson_datetime : Z -> Z)
         (E : env) (phone text : str),
    (forall (conv : WhatsAppConversation) (w : world),
       let b := select_branch U name_falsy text conv in
       respond U team_number E phone text conv w
       = branch_body U team_number E b phone text conv w
       /\ exists before after,
            ladder ++ [Fallback] = before ++ b :: after
            /\ branch_test U name_falsy text conv b = true
            /\ Forall (fun b' => branch_test U name_falsy text conv b' = false)
                 before)
    /\ forall w : world,
         handle_incoming_message U team_number bson_datetime E phone text w
         = match get_or_create_conversation U bson_datetime E phone w with
           | (Raised, w0) => (Ok false, w0)
           | (Ok conv0, w0) =>
               let conv1 :=
                 count_message
                   (append_message conv0 (client_turn text (clock w0))) in
               let b := select_branch U name_falsy text conv1 in
               match branch_body U team_number E b phone text conv1
                       {| collection := collection w0; clock := clock w0 + 1;
                          posted := posted w0 |} with
               | (Raised, w2) => (Ok false, w2)
               | (Ok reply, w2) =>
                   match save_conversation bson_datetime E
                           (append_message (fst reply)
                              (assistant_turn (snd reply) (clock w2)))
                           {| collection := collection w2;
                              clock := clock w2 + 1; posted := posted w2 |} with
                   | (Raised, w3) => (Ok false, w3)
                   | (Ok _, w3) =>
                       send_whatsapp_message U E phone (snd reply) w3
                   end
               end
           end.
Proof.
  intros U team_number bson_datetime E phone text. split.
  - intros conv w b. split.
    + apply respond_is_table.
    + apply select_branch_first.
  - intros w. rewrite handle_run.
    destruct (get_or_create_conversation U bson_datetime E phone w)
      as [[conv0|] w0]; [|reflexivity].
    cbv zeta. rewrite respond_is_table. unfold respond_by_table.
    destruct (branch_body U team_number E _ phone text _ _)
      as [[reply|] w2]; [|reflexivity].
    rewrite save_run. cbv zeta. cbn [clock collection posted].
    destruct (replace_one_ok E); reflexivity.
Qed.

(** C1, as stated, fails once a client has answered the name request with
    a message that has no text: the name is then set, to the empty string;
    on the next message the ladder as stated (name unset, or equal to
    "Unknown") selects the fallback, and the code captures the message as
    the name. *)
Lemma stated_ladder_fails_after_blank_name :
  let w := then_inbound (lit "") (then_inbound (lit "hi") empty_world) in
  let text := lit "an online shop" in
  exists conv,
    seen_by_ladder text w = Some conv
    /\ client_name conv = Some []
    /\ messages_used conv = 3
    /\ select_branch ascii_only_db name_absent text conv = Fallback
    /\ fst (respond_by_table ascii_only_db TEAM all_ok name_absent
              PHONE text conv w)
       = Ok (conv, lit "Tell me more.")
    /\ fst (respond ascii_only_db TEAM all_ok PHONE text conv w)
       = Ok (with_client_name conv (Some text),
             lit "Nice to meet you, an online shop! I'm here to help you with your project requirements. What type of app or website are you looking to build?")
    /\ respond ascii_only_db TEAM all_ok PHONE text conv w
       <> respond_by_table ascii_only_db TEAM all_ok name_absent
            PHONE text conv w.
Proof.
  eexists. split; [vm_compute; reflexivity|].
  split; [reflexivity|]. split; [reflexivity|].
  split; [vm_compute; reflexivity|].
  split; [vm_compute; reflexivity|].
  split; [vm_compute; reflexivity|].
  intros H. apply (f_equal fst) in H. vm_compute in H. discriminate H.
Qed.

(** ** What the handler returns *)

Section Outcome.

Variable U : unicode_db.
Variable team_number : str.
Variable bson_datetime : Z -> Z.

Local Abbreviation fetch := (get_or_create_conversation U bson_datetime).
Local Abbreviation handle := (handle_incoming_message U team_number bson_datetime).

(** Neither the fetch nor the ladder looks at what the gateway answers. *)
Lemma fetch_ignores_gateway (E : env) (g : nat -> gateway_response)
    (phone : str) (w : world) :
  fetch (with_gateway E g) phone w = fetch E phone w.
Proof. rewrite !fetch_run. reflexivity. Qed.

Lemma respond_ignores_gateway (E : env) (g : nat -> gateway_response)
    (phone text : str) (conv : WhatsAppConversation) (w : world) :
  respond U team_number (with_gateway E g) phone text conv w
  = respond U team_number E phone text conv w.
Proof.
  rewrite !respond_is_table. unfold respond_by_table.
  destruct (select_branch U name_falsy text conv); cbn [branch_body];
    try reflexivity.
  destruct (str_eqb (c_type (classify_message U text)) (lit "pricing"));
    reflexivity.
Qed.

(** The outcome of a run: it never raises; the requests it posts are at
    most one team alert followed, when the conversation was fetched and
    saved, by the reply; the boolean is the gateway's verdict on the reply
    in that case and [false] otherwise. *)
Lemma handle_outcome (E : env) (phone text : str) (w : world) :
  exists b w' alerts,
    handle E phone text w = (Ok b, w')
    /\ (alerts = []
        \/ exists body, alerts = [(normalize_to_e164 U team_number, body)])
    /\ (((exists conv0 w0, fetch E phone w = (Ok conv0, w0))
         /\ replace_one_ok E = true
         /\ (exists reply,
               posted w' = (posted w ++ alerts)
                           ++ [(normalize_to_e164 U phone, reply)])
         /\ b = accepted (gateway E (length (posted w ++ alerts))))
        \/ (((exists w0, fetch E phone w = (Raised, w0))
             \/ replace_one_ok E = false)
            /\ posted w' = posted w ++ alerts
            /\ b = false)).
Proof.
  rewrite handle_run.
  pose proof (fetch_run U bson_datetime E phone w) as Hf. cbv zeta in Hf.
  destruct (fetch E phone w) as [[conv0|] w0] eqn:Hfetch.
  - assert (Hp : posted w0 = posted w).
    { destruct (find_one_ok E); [|discriminate Hf].
      destruct (collection w !! normalize_to_e164 U phone) as [doc|].
      - destruct (d_phone_number doc); [|discriminate Hf].
        injection Hf as _ ->. reflexivity.
      - destruct (insert_one_ok E); [|discriminate Hf].
        injection Hf as _ ->. reflexivity. }
    cbv zeta.
    destruct (respond_effects U team_number E phone text
                (count_message (append_message conv0
                                  (client_turn text (clock w0))))
                {| collection := collection w0; clock := clock w0 + 1;
                   posted := posted w0 |})
      as (conv' & reply & alerts & Hr & Hal & _).
    rewrite Hr. cbn [fst snd collection clock posted].
    destruct (replace_one_ok E) eqn:Hrep.
    + do 3 eexists. split; [reflexivity|]. split; [exact Hal|]. left.
      split; [eauto|]. split; [reflexivity|]. cbn [posted]. rewrite Hp.
      split; [eauto|reflexivity].
    + do 3 eexists. split; [reflexivity|]. split; [exact Hal|]. right.
      split; [right; reflexivity|]. cbn [posted]. rewrite Hp. split; reflexivity.
  - exists false, w0, []. split; [reflexivity|]. split; [left; reflexivity|].
    right. split; [left; eauto|]. split; [|reflexivity].
    rewrite app_nil_r.
    destruct (find_one_ok E); [|injection Hf as ->; reflexivity].
    destruct (collection w !! normalize_to_e164 U phone) as [doc|].
    + destruct (d_phone_number doc); [discriminate Hf|].
      injection Hf as ->. reflexivity.
    + destruct (insert_one_ok E); [discriminate Hf|].
      injection Hf as ->. reflexivity.
Qed.

Lemma handle_ignores_other_answers (E : env) (g : nat -> gateway_response)
    (phone text : str) (w : world) (b : bool) (w' : world) :
  handle E phone text w = (Ok b, w') ->
  g (pred (length (posted w'))) = gateway E (pred (length (posted w'))) ->
  handle (with_gateway E g) phone text w = (Ok b, w').
Proof.
  rewrite !handle_run, fetch_ignores_gateway.
  destruct (fetch E phone w) as [[conv0|] w0]; [|tauto].
  cbv zeta. rewrite respond_ignores_gateway.
  destruct (respond U team_number E phone text _ _) as [[reply|] w2]; [|tauto].
  change (replace_one_ok (with_gateway E g)) with (replace_one_ok E).
  destruct (replace_one_ok E); [|tauto].
  intros H. injection H as <- <-. cbn [posted gateway with_gateway].
  rewrite length_app. cbn [length].
  replace (pred (length (posted w2) + 1)) with (length (posted w2)) by lia.
  intros ->. reflexivity.
Qed.

End Outcome.

(** C2, as amended.  The handler never raises.  Its boolean is the
    gateway's verdict on the reply when the conversation was fetched and
    saved; when the fetch or the save fails it is [false] and no reply is
    posted at all.  A team alert, the only other request of a run, is
    posted before the reply and its fate is ignored: the run and its
    boolean are the same under any gateway that answers the last request
    the same way. *)
Theorem handle_returns_delivery_after_persistence :
  forall (U : unicode_db) (team_number : str) (bson_datetime : Z -> Z)
         (E : env) (phone text : str) (w : world),
  exists b w' alerts,
    handle_incoming_message U team_number bson_datetime E phone text w
    = (Ok b, w')
    /\ (alerts = []
        \/ exists body, alerts = [(normalize_to_e164 U team_number, body)])
    /\ (((exists conv0 w0,
            get_or_create_conversation U bson_datetime E phone w
            = (Ok conv0, w0))
         /\ replace_one_ok E = true
         /\ (exists reply,
               posted w' = (posted w ++ alerts)
                           ++ [(normalize_to_e164 U phone, reply)])
         /\ b = accepted (gateway E (length (posted w ++ alerts))))
        \/ (((exists w0,
                get_or_create_conversation U bson_datetime E phone w
                = (Raised, w0))
             \/ replace_one_ok E = false)
            /\ posted w' = posted w ++ alerts
            /\ b = false))
    /\ forall g : nat -> gateway_response,
         g (pred (length (posted w'))) = gateway E (pred (length (posted w'))) ->
         handle_incoming_message U team_number bson_datetime
           (with_gateway E g) phone text w
         = (Ok b, w').
Proof.
  intros U team_number bson_datetime E phone text w.
  destruct (handle_outcome U team_number bson_datetime E phone text w)
    as (b & w' & alerts & Hrun & Hal & Hcases).
  exists b, w', alerts. repeat split; try assumption.
  intros g Hg. eapply handle_ignores_other_answers; eassumption.
Qed.

(** C2, as stated, fails when the save fails: with a gateway that accepts
    every request, the first message of a new client returns [true] when
    the save goes through and [false] when it does not, and in the latter
    run no reply is ever posted. *)
Lemma save_failure_changes_return_value :
  gateway (with_replace_one all_ok false) = gateway all_ok
  /\ fst (handle_at all_ok PHONE (lit "hi") empty_world) = Ok true
  /\ fst (handle_at (with_replace_one all_ok false) PHONE (lit "hi") empty_world)
     = Ok false
  /\ posted (snd (handle_at (with_replace_one all_ok false) PHONE (lit "hi")
                    empty_world)) = [].
Proof. repeat split; vm_compute; reflexivity. Qed.

(** ** Runs on a stored and on a new conversation *)

Section StoredRuns.

Variable U : unicode_db.
Variable team_number : str.
Variable bson_datetime : Z -> Z.
Variable E : env.

Local Abbreviation handle := (handle_incoming_message U team_number bson_datetime E).
Local Abbreviation doc_of := (to_document bson_datetime).

(** A run over a stored conversation, given what the ladder does. *)
Lemma handle_on_stored (phone text : str) (w : world) (doc : document)
    (p : str) (conv' : WhatsAppConversation) (reply : str)
    (alerts : list (str * str)) :
  find_one_ok E = true ->
  replace_one_ok E = true ->
  collection w !! normalize_to_e164 U phone = Some doc ->
  d_phone_number doc = Some p ->
  respond U team_number E phone text
    (count_message
       (append_message
          (conversation_of_document (normalize_to_e164 U phone) p doc (clock w))
          (client_turn text (clock w + 1 + 1))))
    {| collection := collection w; clock := clock w + 1 + 1 + 1;
       posted := posted w |}
  = (Ok (conv', reply),
     {| collection := collection w; clock := clock w + 1 + 1 + 1;
        posted := posted w ++ alerts |}) ->
  handle phone text w
  = (Ok (accepted (gateway E (length (posted w ++ alerts)))),
     {| collection :=
          <[phone_number conv' :=
              doc_of (with_updated_at
                        (append_message conv'
                           (assistant_turn reply (clock w + 1 + 1 + 1)))
                        (clock w + 1 + 1 + 1 + 1))]> (collection w);
        clock := clock w + 1 + 1 + 1 + 1 + 1;
        posted := (posted w ++ alerts) ++ [(normalize_to_e164 U phone, reply)] |}).
Proof.
  intros Hfind Hrep Hdoc Hp Hr.
  rewrite handle_run, fetch_run. cbv zeta. rewrite Hfind, Hdoc, Hp.
  cbn [clock collection posted]. rewrite Hr, Hrep. reflexivity.
Qed.

(** A run over a phone number the store does not know. *)
Lemma handle_on_new (phone text : str) (w : world)
    (conv' : WhatsAppConversation) (reply : str) (alerts : list (str * str)) :
  let key := normalize_to_e164 U phone in
  let m0 := <[key := doc_of (fresh_conversation key (clock w))]> (collection w) in
  find_one_ok E = true ->
  insert_one_ok E = true ->
  replace_one_ok E = true ->
  collection w !! key = None ->
  respond U team_number E phone text
    (count_message
       (append_message (fresh_conversation key (clock w))
          (client_turn text (clock w + 1 + 1))))
    {| collection := m0; clock := clock w + 1 + 1 + 1; posted := posted w |}
  = (Ok (conv', reply),
     {| collection := m0; clock := clock w + 1 + 1 + 1;
        posted := posted w ++ alerts |}) ->
  handle phone text w
  = (Ok (accepted (gateway E (length (posted w ++ alerts)))),
     {| collection :=
          <[phone_number conv' :=
              doc_of (with_updated_at
                        (append_message conv'
                           (assistant_turn reply (clock w + 1 + 1 + 1)))
                        (clock w + 1 + 1 + 1 + 1))]> m0;
        clock := clock w + 1 + 1 + 1 + 1 + 1;
        posted := (posted w ++ alerts) ++ [(normalize_to_e164 U phone, reply)] |}).
Proof.
  intros key m0 Hfind Hins Hrep Hdoc Hr.
  rewrite handle_run, fetch_run. cbv zeta. fold key.
  rewrite Hfind, Hdoc, Hins.
  cbn [clock collection posted]. fold m0. rewrite Hr, Hrep. reflexivity.
Qed.

(** The name request is what a conversation without a name gets on its
    first counted message. *)
Lemma respond_name_request (phone text : str) (conv : WhatsAppConversation)
    (w : world) :
  truthy (client_name conv) = false ->
  messages_used conv = 1 ->
  respond U team_number E phone text conv w
  = (Ok (with_client_name conv (Some (lit "Unknown")),
         lit "Hello! What is your name, sir?"),
     w).
Proof.
  intros Hn Hm. unfold respond. rewrite Hn, Hm. reflexivity.
Qed.


Lemma respond_finalize (phone text : str) (conv : WhatsAppConversation)
    (w : world) :
  past_team_contact U (client_name conv) text ->
  check_for_completion_keywords U text = true ->
  respond U team_number E phone text conv w
  = (Ok (with_status conv (lit "finalized"),
         lit "Great! Your project description has been saved. Our team will reach out to you soon."),
     {| collection := collection w; clock := clock w;
        posted :=
          posted w
          ++ [(normalize_to_e164 U team_number,
               team_alert_text
                 (lit "✅ PROJECT FINALIZED" ++ nl ++ nl
                  ++ format_conversation_summary U
                       (with_status conv (lit "finalized")))
                 (Some phone) (client_name conv)
                 (Some (lit "Client has finalized their project requirements")))] |}).
Proof.
  intros (Hn & Hu & Hc & Ht) Hk. unfold respond.
  rewrite Hn, Hu, Hc, Ht, Hk. reflexivity.
Qed.

Lemma respond_budget (phone text : str) (conv : WhatsAppConversation)
    (w : world) :
  past_team_contact U (client_name conv) text ->
  check_for_completion_keywords U text = false ->
  20 <= messages_used conv ->
  respond U team_number E phone text conv w
  = (Ok (conv,
         lit "You've reached the message limit. Our team will contact you shortly."),
     {| collection := collection w; clock := clock w;
        posted :=
          posted w
          ++ [(normalize_to_e164 U team_number,
               team_alert_text
                 (lit "⚠️ MESSAGE LIMIT REACHED" ++ nl ++ nl
                  ++ lit "Messages used: " ++ str_of_int (messages_used conv))
                 (Some phone) (client_name conv)
                 (Some (lit "Client has reached the message limit and needs team follow-up")))] |}).
Proof.
  intros (Hn & Hu & Hc & Ht) Hk Hm. unfold respond.
  rewrite Hn, Hu, Hc, Ht, Hk.
  replace (messages_used conv >=? 20) with true
    by (rewrite Z.geb_leb; symmetry; apply Z.leb_le; exact Hm).
  reflexivity.
Qed.

Lemma respond_fallback (phone text : str) (conv : WhatsAppConversation)
    (w : world) :
  past_team_contact U (client_name conv) text ->
  check_for_completion_keywords U text = false ->
  messages_used conv < 20 ->
  respond U team_number E phone text conv w
  = (Ok (conv,
         get_llama_response E
           (List.map (fun msg => (role msg, message msg))
              (removelast (conversation conv)))
           text),
     w).
Proof.
  intros (Hn & Hu & Hc & Ht) Hk Hm. unfold respond.
  rewrite Hn, Hu, Hc, Ht, Hk.
  replace (messages_used conv >=? 20) with false
    by (rewrite Z.geb_leb; symmetry; apply Z.leb_gt; exact Hm).
  reflexivity.
Qed.

End StoredRuns.

(** ** The name exchange of a new client *)



(** ** The message budget *)

Lemma ladder_result_inv (c c' : WhatsAppConversation) (r r' : str)
    (m m' : gmap str document) (t t' : Z) (p p' : list (str * str)) :
  (Ok (c, r), {| collection := m; clock := t; posted := p |})
  = (Ok (c', r'), {| collection := m'; clock := t'; posted := p' |}) ->
  c = c' /\ r = r' /\ p = p'.
Proof. intros H. injection H as -> -> _ _ ->. auto. Qed.

(** C3, as amended.  Every inbound message of a stored conversation that
    is fetched and saved is counted once, before the ladder runs.  When no
    earlier branch takes the message (the client has a name that is not
    "Unknown", the classification is below 0.8, the text has neither a
    team-contact phrase nor a completion keyword), a count that reaches 20
    or more gets the limit reply and one team alert carrying the count, so
    the 20th message does; a count below 20, as for the 19th, gets the
    completion client's text and no team alert. *)
Theorem twentieth_message_hits_the_limit
    (U : unicode_db) (team_number : str) (bson_datetime : Z -> Z) (E : env)
    (phone text : str) (w : world) (doc : document) (p : str) (n : Z) :
  find_one_ok E = true -> replace_one_ok E = true ->
  collection w !! normalize_to_e164 U phone = Some doc ->
  d_phone_number doc = Some p ->
  d_messages_used doc = Some n ->
  exists b w' saved,
    handle_incoming_message U team_number bson_datetime E phone text w
    = (Ok b, w')
    /\ collection w' !! p = Some saved
    /\ d_messages_used saved = Some (n + 1)
    /\ (past_team_contact U (d_client_name doc) text ->
        check_for_completion_keywords U text = false ->
        (20 <= n + 1 ->
         posted w'
         = posted w
           ++ [(normalize_to_e164 U team_number,
                limit_alert phone (d_client_name doc) (n + 1));
               (normalize_to_e164 U phone, limit_reply)])
        /\ (n + 1 < 20 ->
            posted w'
            = posted w
              ++ [(normalize_to_e164 U phone,
                   get_llama_response E
                     (List.map (fun msg => (role msg, message msg))
                        (default [] (d_conversation doc)))
                     text)])).
Proof.
  intros Hfind Hrep Hdoc Hp Hn.
  set (conv1 :=
         count_message
           (append_message
              (conversation_of_document (normalize_to_e164 U phone) p doc
                 (clock w))
              (client_turn text (clock w + 1 + 1)))).
  set (w1 := {| collection := collection w; clock := clock w + 1 + 1 + 1;
                posted := posted w |}).
  assert (Hused : messages_used conv1 = n + 1).
  { unfold conv1. cbn [count_message append_message messages_used
                         conversation_of_document]. rewrite Hn. reflexivity. }
  destruct (respond_effects U team_number E phone text conv1 w1)
    as (conv' & reply & alerts & Hr & _ & Hph & _ & Hmu & _).
  pose proof (handle_on_stored U team_number bson_datetime E phone text w doc p
                conv' reply alerts Hfind Hrep Hdoc Hp Hr) as Hrun.
  do 3 eexists. split; [exact Hrun|].
  cbn [collection posted]. rewrite Hph.
  split; [apply lookup_insert_eq|].
  split; [cbn [to_document d_messages_used with_updated_at append_message
                 messages_used]; rewrite Hmu, Hused; reflexivity|].
  intros Hpast Hkw. split; intros Hcount.
  - rewrite (respond_budget U team_number E phone text conv1 w1) in Hr;
      [| exact Hpast | exact Hkw | rewrite Hused; exact Hcount].
    apply ladder_result_inv in Hr as (_ & <- & Hal).
    apply app_inv_head in Hal as <-.
    rewrite Hused, <- app_assoc. reflexivity.
  - rewrite (respond_fallback U team_number E phone text conv1 w1) in Hr;
      [| exact Hpast | exact Hkw | rewrite Hused; exact Hcount].
    unfold w1 in Hr.
    apply ladder_result_inv in Hr as (_ & <- & Hal). cbn [posted] in Hal.
    rewrite <- (app_nil_r (posted w)) in Hal at 1.
    apply app_inv_head in Hal as <-. rewrite app_nil_r.
    unfold conv1.
    cbn [count_message append_message conversation conversation_of_document].
    rewrite removelast_last. reflexivity.
Qed.

Lemma twentieth_message_hits_the_limit_witness :
  exists doc,
    collection nineteen_messages !! normalize_to_e164 ascii_only_db PHONE
    = Some doc
    /\ d_messages_used doc = Some 19
    /\ d_client_name doc = Some (lit "John")
    /\ exists b w' saved,
         handle_at all_ok PHONE (lit "ok") nineteen_messages = (Ok b, w')
         /\ collection w' !! lit "+923001112233" = Some saved
         /\ d_messages_used saved = Some (19 + 1)
         /\ (past_team_contact ascii_only_db (d_client_name doc) (lit "ok") ->
             check_for_completion_keywords ascii_only_db (lit "ok") = false ->
             (20 <= 19 + 1 ->
              posted w'
              = posted nineteen_messages
                ++ [(normalize_to_e164 ascii_only_db TEAM,
                     limit_alert PHONE (d_client_name doc) (19 + 1));
                    (normalize_to_e164 ascii_only_db PHONE, limit_reply)])
             /\ (19 + 1 < 20 ->
                 posted w'
                 = posted nineteen_messages
                   ++ [(normalize_to_e164 ascii_only_db PHONE,
                        get_llama_response all_ok
                          (List.map (fun msg => (role msg, message msg))
                             (default [] (d_conversation doc)))
                          (lit "ok"))])).
Proof.
  eexists. split; [vm_compute; reflexivity|].
  split; [reflexivity|]. split; [reflexivity|].
  apply (twentieth_message_hits_the_limit ascii_only_db TEAM (fun t => t)
           all_ok PHONE (lit "ok") nineteen_messages _ (lit "+923001112233") 19);
    vm_compute; reflexivity.
Defined.

(** C3, as stated, fails when an earlier branch takes the 20th message:
    after nineteen messages from a client named John, "hello" is counted
    as the 20th and answered by the greeting, with no team alert. *)
Lemma twentieth_greeting_gets_no_limit_reply :
  exists doc w' saved,
    collection nineteen_messages !! lit "+923001112233" = Some doc
    /\ d_client_name doc = Some (lit "John")
    /\ d_messages_used doc = Some 19
    /\ handle_at all_ok PHONE (lit "hello") nineteen_messages = (Ok true, w')
    /\ collection w' !! lit "+923001112233" = Some saved
    /\ d_messages_used saved = Some 20
    /\ posted w'
       = posted nineteen_messages
         ++ [(lit "+923001112233", lit "Hello 👋 How can I help you today?")]
    /\ lit "Hello 👋 How can I help you today?" <> limit_reply.
Proof.
  do 3 eexists. split; [vm_compute; reflexivity|].
  split; [reflexivity|]. split; [reflexivity|].
  split; [vm_compute; reflexivity|].
  split; [vm_compute; reflexivity|].
  split; [reflexivity|]. split; [vm_compute; reflexivity|].
  vm_compute. discriminate.
Qed.

(** ** Finalisation *)

Lemma team_alert_text_split (text : str) (phone client details : option str) :
  team_alert_text text phone client details
  = alert_banner ++ text ++ alert_footer phone client details.
Proof.
  unfold team_alert_text, alert_banner, alert_footer.
  rewrite <- !app_assoc. reflexivity.
Qed.

Lemma fold_left_append {A} (f : A -> str) (l : list A) (init : str) :
  fold_left (fun acc x => acc ++ f x) l init = init ++ concat (List.map f l).
Proof.
  revert init. induction l as [|x l IH]; intros init; cbn [fold_left List.map concat].
  - rewrite app_nil_r. reflexivity.
  - rewrite IH, <- app_assoc. reflexivity.
Qed.

Lemma format_conversation_summary_transcript U (conv : WhatsAppConversation) :
  format_conversation_summary U conv
  = summary_header conv ++ concat (List.map (render_turn U) (conversation conv)).
Proof.
  unfold format_conversation_summary. cbv zeta. rewrite fold_left_append.
  reflexivity.
Qed.

(** A rendered turn is its line: the engine's own roles come out as
    "👤 Client" and "🤖 Assistant". *)
Lemma render_turn_line U (msg : ConversationMessage) :
  render_turn U msg = transcript_line U msg.
Proof.
  unfold render_turn, transcript_line, speaker. cbv zeta.
  destruct (str_eqb (role msg) (lit "client")) eqn:Hc.
  - apply str_eqb_eq in Hc. rewrite Hc. reflexivity.
  - destruct (str_eqb (role msg) (lit "assistant")) eqn:Ha.
    + apply str_eqb_eq in Ha. rewrite Ha. reflexivity.
    + reflexivity.
Qed.

Lemma format_conversation_summary_lines U (conv : WhatsAppConversation) :
  format_conversation_summary U conv
  = summary_header conv
    ++ concat (List.map (transcript_line U) (conversation conv)).
Proof.
  rewrite format_conversation_summary_transcript. f_equal. f_equal.
  apply List.map_ext, render_turn_line.
Qed.

(** C4.  When a stored conversation is fetched and saved and the inbound
    message reaches the completion test (the client has a name that is not
    "Unknown", the classification is below 0.8, no team-contact phrase) and
    passes it, the saved status is "finalized", the reply is the
    finalisation acknowledgement, and one team alert is posted before it
    whose text contains, one after the other and in order, a line for
    every stored turn and then one for the inbound turn: the speaker,
    "👤 Client" or "🤖 Assistant", a colon and the text of the turn.  The
    acknowledgement itself is appended after the alert was posted. *)
Theorem completion_keyword_finalizes
    (U : unicode_db) (team_number : str) (bson_datetime : Z -> Z) (E : env)
    (phone text : str) (w : world) (doc : document) (p : str) :
  find_one_ok E = true -> replace_one_ok E = true ->
  collection w !! normalize_to_e164 U phone = Some doc ->
  d_phone_number doc = Some p ->
  past_team_contact U (d_client_name doc) text ->
  check_for_completion_keywords U text = true ->
  let turns :=
    default [] (d_conversation doc) ++ [client_turn text (clock w + 1 + 1)] in
  exists b w' saved alert,
    handle_incoming_message U team_number bson_datetime E phone text w
    = (Ok b, w')
    /\ collection w' !! p = Some saved
    /\ d_status saved = Some (lit "finalized")
    /\ d_conversation saved
       = Some (List.map (stored_message bson_datetime)
                 (turns ++ [assistant_turn finalized_reply (clock w + 1 + 1 + 1)]))
    /\ posted w'
       = posted w
         ++ [(normalize_to_e164 U team_number, alert);
             (normalize_to_e164 U phone, finalized_reply)]
    /\ exists before after,
         alert
         = before ++ concat (List.map (transcript_line U) turns) ++ after.
Proof.
  intros Hfind Hrep Hdoc Hp Hpast Hkw turns.
  epose proof (handle_on_stored U team_number bson_datetime E phone text w doc p
                 _ _ _ Hfind Hrep Hdoc Hp) as Hrun.
  rewrite respond_finalize in Hrun by assumption.
  specialize (Hrun eq_refl).
  do 4 eexists. split; [exact Hrun|].
  cbn [collection posted with_status phone_number conversation_of_document
         count_message append_message].
  split; [apply lookup_insert_eq|].
  split; [reflexivity|]. split; [reflexivity|].
  split; [rewrite <- app_assoc; reflexivity|].
  rewrite team_alert_text_split, format_conversation_summary_lines.
  cbn [conversation with_status count_message append_message
         conversation_of_document]. fold turns.
  match goal with
  | |- context [summary_header ?c ++ _] =>
      exists (alert_banner ++ (lit "✅ PROJECT FINALIZED" ++ nl ++ nl)
              ++ summary_header c)
  end.
  match goal with
  | |- context [alert_footer ?a ?b ?c] => exists (alert_footer a b c)
  end.
  rewrite <- !app_assoc. reflexivity.
Qed.

Lemma completion_keyword_finalizes_witness :
  let text := lit "sounds good, let's proceed" in
  exists doc,
    collection project_described !! normalize_to_e164 ascii_only_db PHONE
    = Some doc
    /\ d_status doc = Some (lit "pending")
    /\ past_team_contact ascii_only_db (d_client_name doc) text
    /\ check_for_completion_keywords ascii_only_db text = true
    /\ let turns :=
         default [] (d_conversation doc)
         ++ [client_turn text (clock project_described + 1 + 1)] in
       exists b w' saved alert,
         handle_at all_ok PHONE text project_described = (Ok b, w')
         /\ collection w' !! lit "+923001112233" = Some saved
         /\ d_status saved = Some (lit "finalized")
         /\ d_conversation saved
            = Some (List.map (stored_message (fun t => t))
                      (turns
                       ++ [assistant_turn finalized_reply
                             (clock project_described + 1 + 1 + 1)]))
         /\ posted w'
            = posted project_described
              ++ [(normalize_to_e164 ascii_only_db TEAM, alert);
                  (normalize_to_e164 ascii_only_db PHONE, finalized_reply)]
         /\ exists before after,
              alert
              = before
                ++ concat (List.map (transcript_line ascii_only_db) turns)
                ++ after.
Proof.
  intros text. eexists. split; [vm_compute; reflexivity|].
  split; [reflexivity|].
  assert (Hpast : past_team_contact ascii_only_db (Some (lit "John")) text)
    by (repeat split; vm_compute; reflexivity).
  assert (Hkw : check_for_completion_keywords ascii_only_db text = true)
    by (vm_compute; reflexivity).
  split; [exact Hpast|]. split; [exact Hkw|].
  apply (completion_keyword_finalizes ascii_only_db TEAM (fun t => t) all_ok
           PHONE text project_described _ (lit "+923001112233"));
    [reflexivity | reflexivity | vm_compute; reflexivity | reflexivity
    | exact Hpast | exact Hkw].
Defined.

(** ** Saving and fetching *)

(** C9.  A record whose phone number is canonical (it is what the
    normaliser returns for some number), once saved, is found again under
    that phone number: the fetch returns, creates nothing, and gives the
    same client name, status and count and the same turns in the same
    order, roles and texts unchanged and each timestamp as the datastore
    driver hands it back. *)
Theorem save_then_fetch_round_trip
    (U : unicode_db) (bson_datetime : Z -> Z) (E1 E2 : env)
    (conv : WhatsAppConversation) (raw : str) (w : world) :
  replace_one_ok E1 = true ->
  find_one_ok E2 = true ->
  phone_number conv = normalize_to_e164 U raw ->
  exists saved w1 fetched w2,
    save_conversation bson_datetime E1 conv w = (Ok saved, w1)
    /\ get_or_create_conversation U bson_datetime E2 (phone_number conv) w1
       = (Ok fetched, w2)
    /\ collection w2 = collection w1
    /\ conversation fetched
       = List.map (stored_message bson_datetime) (conversation conv)
    /\ List.map role (conversation fetched) = List.map role (conversation conv)
    /\ List.map message (conversation fetched)
       = List.map message (conversation conv)
    /\ messages_used fetched = messages_used conv
    /\ status fetched = status conv
    /\ client_name fetched = client_name conv
    /\ phone_number fetched = phone_number conv.
Proof.
  intros Hrep Hfind Hcanon.
  assert (Hkey : normalize_to_e164 U (phone_number conv) = phone_number conv)
    by (rewrite Hcanon; apply normalize_idempotent).
  rewrite save_run. cbv zeta. rewrite Hrep.
  do 4 eexists. split; [reflexivity|].
  rewrite fetch_run. cbv zeta. rewrite Hfind, Hkey.
  cbn [collection]. rewrite lookup_insert_eq.
  cbn [to_document d_phone_number with_updated_at phone_number].
  split; [reflexivity|].
  split; [reflexivity|].
  cbn [conversation_of_document conversation messages_used status client_name
         phone_number d_conversation d_messages_used d_status d_client_name
         from_option to_document with_updated_at Datatypes.id].
  split; [reflexivity|].
  split; [rewrite List.map_map; reflexivity|].
  split; [rewrite List.map_map; reflexivity|].
  repeat split; reflexivity.
Qed.

Lemma save_then_fetch_round_trip_witness :
  phone_number sample_conversation = normalize_to_e164 ascii_only_db PHONE
  /\ exists saved w1 fetched w2,
       save_conversation (fun t => t / 1000 * 1000) all_ok sample_conversation
         empty_world = (Ok saved, w1)
       /\ get_or_create_conversation ascii_only_db (fun t => t / 1000 * 1000)
            all_ok (phone_number sample_conversation) w1
          = (Ok fetched, w2)
       /\ collection w2 = collection w1
       /\ conversation fetched
          = List.map (stored_message (fun t => t / 1000 * 1000))
              (conversation sample_conversation)
       /\ List.map role (conversation fetched)
          = List.map role (conversation sample_conversation)
       /\ List.map message (conversation fetched)
          = List.map message (conversation sample_conversation)
       /\ messages_used fetched = messages_used sample_conversation
       /\ status fetched = status sample_conversation
       /\ client_name fetched = client_name sample_conversation
       /\ phone_number fetched = phone_number sample_conversation.
Proof.
  split; [reflexivity|].
  exact (save_then_fetch_round_trip ascii_only_db (fun t => t / 1000 * 1000)
           all_ok all_ok sample_conversation PHONE empty_world
           eq_refl eq_refl eq_refl).
Defined.

(** A record whose phone number is not canonical is saved under a key
    that no lookup reaches: the fetch creates a new, empty record. *)
Example save_under_raw_number_is_not_found :
  let conv :=
    {| id := None; client_name := Some (lit "John");
       phone_number := PHONE; conversation := [];
       status := lit "pending"; messages_used := 2;
       created_at := 0; updated_at := 0 |} in
  let w1 := snd (save_conversation (fun t => t) all_ok conv empty_world) in
  normalize_to_e164 ascii_only_db PHONE <> PHONE
  /\ exists fetched w2,
       get_or_create_conversation ascii_only_db (fun t => t) all_ok PHONE w1
       = (Ok fetched, w2)
       /\ client_name fetched = None
       /\ messages_used fetched = 0.
Proof.
  split; [vm_compute; discriminate|].
  do 2 eexists. split; [vm_compute; reflexivity|]. split; reflexivity.
Qed.

(** ** The status of a conversation *)

Section Status.

Variable U : unicode_db.
Variable team_number : str.
Variable bson_datetime : Z -> Z.

Local Abbreviation fetch := (get_or_create_conversation U bson_datetime).
Local Abbreviation handle := (handle_incoming_message U team_number bson_datetime).
Local Abbreviation doc_of := (to_document bson_datetime).

Lemma writes_at_well_kept key m m' :
  well_kept m -> writes_at bson_datetime key m m' -> well_kept m'.
Proof.
  intros Hm [->|(conv & -> & Hph & Hst & _)]; [exact Hm|].
  intros k d Hk. destruct (decide (key = k)) as [<-|Hne].
  - rewrite lookup_insert_eq in Hk. injection Hk as <-.
    cbn [to_document d_phone_number d_status]. rewrite Hph. split; [reflexivity|].
    destruct Hst as [-> | ->]; [left|right]; reflexivity.
  - rewrite lookup_insert_ne in Hk by exact Hne. apply Hm, Hk.
Qed.

Lemma writes_at_keeps_finalized key m m' :
  writes_at bson_datetime key m m' -> keeps_finalized m m'.
Proof.
  intros [->|(conv & -> & _ & _ & Hfin & _)] k d Hk; [eauto|].
  destruct (decide (key = k)) as [<-|Hne].
  - rewrite lookup_insert_eq. eexists. split; [reflexivity|].
    intros Hd. cbn [to_document d_status]. rewrite (Hfin d Hk Hd). reflexivity.
  - rewrite lookup_insert_ne by exact Hne. eauto.
Qed.

Lemma writes_at_new_are_pending key m m' :
  writes_at bson_datetime key m m' -> new_are_pending m m'.
Proof.
  intros [->|(conv & -> & _ & _ & _ & Hnew)] k d' Hk Hk'; [congruence|].
  destruct (decide (key = k)) as [<-|Hne].
  - rewrite lookup_insert_eq in Hk'. injection Hk' as <-.
    cbn [to_document d_status]. rewrite (Hnew Hk). reflexivity.
  - rewrite lookup_insert_ne in Hk' by exact Hne. congruence.
Qed.

Lemma keeps_finalized_trans m1 m2 m3 :
  keeps_finalized m1 m2 -> keeps_finalized m2 m3 -> keeps_finalized m1 m3.
Proof.
  intros H12 H23 k d Hk.
  destruct (H12 k d Hk) as (d2 & Hk2 & Hf2).
  destruct (H23 k d2 Hk2) as (d3 & Hk3 & Hf3).
  exists d3. split; [exact Hk3|]. auto.
Qed.

(** The three ways a fetch ends in a well-kept store. *)
Lemma fetch_cases (E : env) (phone : str) (w : world) :
  well_kept (collection w) ->
  let key := normalize_to_e164 U phone in
  (exists w0, fetch E phone w = (Raised, w0) /\ collection w0 = collection w)
  \/ (exists doc,
        collection w !! key = Some doc
        /\ fetch E phone w
           = (Ok (conversation_of_document key key doc (clock w)),
              {| collection := collection w; clock := clock w + 1 + 1;
                 posted := posted w |}))
  \/ (collection w !! key = None
      /\ (fetch E phone w
          = (Ok (fresh_conversation key (clock w)),
             {| collection :=
                  <[key := doc_of (fresh_conversation key (clock w))]>
                    (collection w);
                clock := clock w + 1 + 1; posted := posted w |})
          \/ exists w0, fetch E phone w = (Raised, w0)
                        /\ collection w0 = collection w)).
Proof.
  intros Hwf key. rewrite fetch_run. cbv zeta. fold key.
  destruct (find_one_ok E); [|left; eauto].
  destruct (collection w !! key) as [doc|] eqn:Hdoc.
  - destruct (Hwf key doc Hdoc) as [Hp _]. rewrite Hp.
    right. left. exists doc. split; reflexivity.
  - right. right. split; [reflexivity|].
    destruct (insert_one_ok E); [left; reflexivity|right; eauto].
Qed.

Lemma fetch_writes (E : env) (phone : str) (w : world) :
  well_kept (collection w) ->
  writes_at bson_datetime (normalize_to_e164 U phone) (collection w)
    (collection (snd (fetch E phone w))).
Proof.
  intros Hwf.
  destruct (fetch_cases E phone w Hwf)
    as [(w0 & -> & Hc)|[(doc & Hdoc & ->)|(Hnone & [->|(w0 & -> & Hc)])]];
    cbn [snd collection].
  - left. exact Hc.
  - left. reflexivity.
  - right. eexists. split; [reflexivity|]. cbn [fresh_conversation phone_number status].
    split; [reflexivity|]. split; [left; reflexivity|].
    split; [congruence|reflexivity].
  - left. exact Hc.
Qed.

Lemma handle_writes (E : env) (phone text : str) (w : world) :
  well_kept (collection w) ->
  writes_at bson_datetime (normalize_to_e164 U phone) (collection w)
    (collection (snd (handle E phone text w))).
Proof.
  intros Hwf. rewrite handle_run.
  destruct (fetch_cases E phone w Hwf)
    as [(w0 & -> & Hc)|[(doc & Hdoc & ->)|(Hnone & [->|(w0 & -> & Hc)])]];
    cbv zeta; cbn [snd collection clock posted].
  - left. exact Hc.
  - (* a stored conversation *)
    destruct (Hwf _ doc Hdoc) as [_ Hst].
    match goal with
    | |- context [respond U team_number E phone text ?c ?w1] =>
        destruct (respond_effects U team_number E phone text c w1)
          as (conv' & reply & alerts & -> & _ & Hph & _ & _ & Hstatus)
    end.
    cbn [fst snd collection clock posted count_message append_message
           conversation_of_document phone_number status] in *.
    destruct (replace_one_ok E); cbn [snd collection]; [|left; reflexivity].
    right. eexists. split; [rewrite Hph; reflexivity|].
    cbn [with_updated_at append_message phone_number status].
    split; [exact Hph|].
    assert (Hold : status conv' = default (lit "pending") (d_status doc)
                   \/ status conv' = lit "finalized") by exact Hstatus.
    split.
    + destruct Hold as [-> | ->]; [|right; reflexivity].
      destruct Hst as [-> | ->]; [left|right]; reflexivity.
    + split; [|congruence].
      intros d Hd Hfin. rewrite Hdoc in Hd. injection Hd as <-.
      destruct Hold as [-> | ->]; [|reflexivity]. rewrite Hfin. reflexivity.
  - (* a new conversation *)
    rewrite respond_name_request by reflexivity.
    cbn [fst snd collection clock posted count_message append_message
           fresh_conversation phone_number with_client_name].
    right. destruct (replace_one_ok E); cbn [snd collection].
    + eexists. split; [rewrite insert_insert_eq; reflexivity|].
      cbn [with_updated_at append_message phone_number status].
      split; [reflexivity|]. split; [left; reflexivity|].
      split; [congruence|reflexivity].
    + eexists. split; [reflexivity|].
      cbn [fresh_conversation phone_number status].
      split; [reflexivity|]. split; [left; reflexivity|].
      split; [congruence|reflexivity].
  - left. exact Hc.
Qed.

Lemma step_writes (op : operation) (w : world) :
  well_kept (collection w) ->
  exists key,
    writes_at bson_datetime key (collection w)
      (collection (step U team_number bson_datetime op w)).
Proof.
  intros Hwf. destruct op as [E phone text|E phone]; cbn [step].
  - eexists. apply handle_writes, Hwf.
  - eexists. apply fetch_writes, Hwf.
Qed.

Lemma step_well_kept (op : operation) (w : world) :
  well_kept (collection w) -> well_kept (collection (step U team_number bson_datetime op w)).
Proof.
  intros Hwf. destruct (step_writes op w Hwf) as (key & Hw).
  eapply writes_at_well_kept; eassumption.
Qed.

Lemma run_well_kept (ops : list operation) (w : world) :
  well_kept (collection w) -> well_kept (collection (run U team_number bson_datetime ops w)).
Proof.
  revert w. induction ops as [|op ops IH]; intros w Hwf; [exact Hwf|].
  cbn [run fold_left]. apply IH, step_well_kept, Hwf.
Qed.

Lemma run_keeps_finalized (ops : list operation) (w : world) :
  well_kept (collection w) ->
  keeps_finalized (collection w) (collection (run U team_number bson_datetime ops w)).
Proof.
  revert w. induction ops as [|op ops IH]; intros w Hwf.
  - intros k d Hk. eauto.
  - cbn [run fold_left].
    destruct (step_writes op w Hwf) as (key & Hw).
    eapply keeps_finalized_trans.
    + eapply writes_at_keeps_finalized, Hw.
    + apply IH, step_well_kept, Hwf.
Qed.

Lemma empty_well_kept : well_kept (collection empty_world).
Proof.
  intros k d Hk. cbn [empty_world collection] in Hk.
  rewrite lookup_empty in Hk. discriminate Hk.
Qed.

End Status.

(** A run that reaches "finalized" and goes on. *)
Example finalized_stays :
  let w := then_inbound (lit "sounds good, let's proceed") project_described in
  let w' := then_inbound (lit "one more thing") w in
  (exists d, collection project_described !! lit "+923001112233" = Some d
             /\ d_status d = Some (lit "pending"))
  /\ (exists d, collection w !! lit "+923001112233" = Some d
                /\ d_status d = Some (lit "finalized"))
  /\ (exists d, collection w' !! lit "+923001112233" = Some d
                /\ d_status d = Some (lit "finalized")
                /\ d_messages_used d = Some 5).
Proof.
  repeat split; eexists; (split; [vm_compute; reflexivity|]);
    repeat split; reflexivity.
Qed.


(** * Properties of the rest of the code *)

(** ** The older phone formatters *)

Lemma format_phone_number_unfold D (s : str) :
  format_phone_number D s
  = if falsy s then s else from_cleaned (strip_non_digits D s).
Proof. reflexivity. Qed.

Lemma strip_non_digits_all D (s : str) :
  forallb (re_digit D) (strip_non_digits D s) = true.
Proof.
  unfold strip_non_digits. induction s as [|c s IH]; [reflexivity|].
  cbn [List.filter]. destruct (re_digit D c) eqn:Hc; [|exact IH].
  cbn [forallb]. rewrite Hc, IH. reflexivity.
Qed.

Lemma strip_non_digits_fixed D (d : str) :
  forallb (re_digit D) d = true -> strip_non_digits D d = d.
Proof.
  unfold strip_non_digits. induction d as [|c d IH]; [reflexivity|].
  cbn [forallb List.filter]. intros H. apply andb_prop in H as [Hc Hd].
  rewrite Hc, (IH Hd). reflexivity.
Qed.

Lemma from_cleaned_all D (c : str) :
  forallb (re_digit D) c = true -> forallb (re_digit D) (from_cleaned c) = true.
Proof.
  intros Hc. unfold from_cleaned.
  destruct (startswith [57; 50]%N c); [exact Hc|].
  destruct (startswith [48]%N c) eqn:Hz.
  - destruct c as [|z c']; [discriminate Hz|].
    cbn [forallb] in Hc. apply andb_prop in Hc as [_ Hc'].
    change (drop 1 (z :: c')) with c'. cbn [forallb]. rewrite Hc'. reflexivity.
  - destruct (len c =? 10); [cbn [forallb]; rewrite Hc; reflexivity|].
    destruct ((len c =? 11) && startswith [51]%N c);
      [cbn [forallb]; rewrite Hc; reflexivity|exact Hc].
Qed.

Lemma from_cleaned_stable (c : str) :
  from_cleaned (from_cleaned c) = from_cleaned c.
Proof.
  unfold from_cleaned at 2 3.
  destruct (startswith [57; 50]%N c) eqn:H1.
  - unfold from_cleaned. rewrite H1. reflexivity.
  - destruct (startswith [48]%N c) eqn:H2; [reflexivity|].
    destruct (len c =? 10) eqn:H3; [reflexivity|].
    destruct ((len c =? 11) && startswith [51]%N c) eqn:H4; [reflexivity|].
    unfold from_cleaned. rewrite H1, H2, H3, H4. reflexivity.
Qed.

(** X1.  The module's [format_phone_number] returns nothing but digits:
    whatever the input, every character of the result is a decimal
    digit, so no [+], space or dash survives. *)
Theorem format_phone_number_only_digits :
  forall (D : char -> bool) (s : str),
    forallb (re_digit D) (format_phone_number D s) = true.
Proof.
  intros D s. rewrite format_phone_number_unfold.
  destruct s as [|c s]; [reflexivity|]. cbn [falsy].
  apply from_cleaned_all, strip_non_digits_all.
Qed.

(** X2.  The module's [format_phone_number] is idempotent: formatting its
    own result changes nothing. *)
Theorem format_phone_number_idempotent :
  forall (D : char -> bool) (s : str),
    format_phone_number D (format_phone_number D s) = format_phone_number D s.
Proof.
  intros D s. rewrite (format_phone_number_unfold D s).
  destruct s as [|c s]; [reflexivity|]. cbn [falsy].
  rewrite format_phone_number_unfold.
  destruct (from_cleaned (strip_non_digits D (c :: s))) as [|x r] eqn:Hr;
    [reflexivity|].
  cbn [falsy]. rewrite <- Hr.
  rewrite strip_non_digits_fixed
    by apply from_cleaned_all, strip_non_digits_all.
  apply from_cleaned_stable.
Qed.

(** X3.  On a non-empty input that does not start with [+], the E.164
    normaliser returns [+] followed by what the method
    [WhatsSMSService.format_phone_number] returns. *)
Theorem normalize_is_plus_then_method_format
    (U : unicode_db) (s : str) :
  s <> [] ->
  startswith (lit "+") s = false ->
  normalize_to_e164 U s = lit "+" ++ WhatsSMSService_format_phone_number U s.
Proof.
  intros Hs Hplus. rewrite normalize_unfold.
  destruct s as [|c s]; [congruence|]. cbn [falsy].
  unfold WhatsSMSService_format_phone_number. rewrite Hplus. cbn [negb].
  generalize (digits_of U (c :: s)) as d. intros d.
  unfold from_digits, slice_from.
  change (lit "92") with [57; 50]%N. change (lit "0") with [48]%N.
  change (lit "+") with [43]%N.
  destruct (len d =? 10) eqn:H10.
  - replace (12 <=? len d) with false by lia.
    replace (len d =? 11) with false by lia.
    rewrite !andb_false_r. cbn [andb]. reflexivity.
  - destruct (len d =? 11) eqn:H11.
    + replace (12 <=? len d) with false by lia.
      rewrite andb_false_r, andb_true_r. cbn [andb].
      destruct (startswith [48]%N d); reflexivity.
    + rewrite andb_false_r. cbn [andb].
      destruct (startswith [57; 50]%N d && (12 <=? len d)); reflexivity.
Qed.

Lemma normalize_is_plus_then_method_format_witness :
  lit "0300 111-2233" <> []
  /\ startswith (lit "+") (lit "0300 111-2233") = false
  /\ normalize_to_e164 ascii_only_db (lit "0300 111-2233")
     = lit "+"
       ++ WhatsSMSService_format_phone_number ascii_only_db (lit "0300 111-2233").
Proof.
  assert (H : lit "0300 111-2233" <> []) by (vm_compute; discriminate).
  split; [exact H|]. split; [reflexivity|].
  exact (normalize_is_plus_then_method_format ascii_only_db
           (lit "0300 111-2233") H eq_refl).
Defined.

(** With a leading [+] the two part ways, and the module's formatter
    agrees with neither on a short number with a leading zero. *)
Example formatters_disagree :
  normalize_to_e164 ascii_only_db (lit "+3001112233") = lit "+923001112233"
  /\ WhatsSMSService_format_phone_number ascii_only_db (lit "+3001112233")
     = lit "3001112233"
  /\ format_phone_number (fun _ => false) (lit "0300111") = lit "92300111"
  /\ WhatsSMSService_format_phone_number ascii_only_db (lit "0300111")
     = lit "0300111"
  /\ normalize_to_e164 ascii_only_db (lit "0300111") = lit "+0300111".
Proof. repeat split; reflexivity. Qed.

(** ** Sending and alerting *)

(** X4.  [send_whatsapp_message] never raises and leaves the store alone;
    it posts exactly one request, addressed to the normalised recipient,
    and returns [True] exactly when the gateway answers HTTP 200 with JSON
    status 200.  Sending to a number and to its normalised form is the
    same. *)
Theorem send_whatsapp_message_posts_once :
  forall (U : unicode_db) (E : env) (phone text : str) (w : world),
  exists b,
    send_whatsapp_message U E phone text w
    = (Ok b,
       {| collection := collection w; clock := clock w;
          posted := posted w ++ [(normalize_to_e164 U phone, text)] |})
    /\ (b = true
        <-> gateway E (length (posted w)) = GatewayHttp 200 (Some 200))
    /\ send_whatsapp_message U E (normalize_to_e164 U phone) text w
       = send_whatsapp_message U E phone text w.
Proof.
  intros U E phone text w. eexists. split; [apply send_run|]. split.
  - unfold accepted.
    destruct (gateway E (length (posted w))) as [|code [js|]].
    + split; discriminate.
    + rewrite andb_true_iff, !Z.eqb_eq. split.
      * intros [-> ->]. reflexivity.
      * intros H. injection H as -> ->. split; reflexivity.
    + split; discriminate.
  - rewrite !send_run, normalize_idempotent. reflexivity.
Qed.

Lemma startswith_app (n rest : str) : startswith n (n ++ rest) = true.
Proof.
  induction n as [|c n IH]; [reflexivity|].
  cbn [app startswith]. rewrite N.eqb_refl, IH. reflexivity.
Qed.

Lemma contains_app (n before rest : str) :
  contains n (before ++ n ++ rest) = true.
Proof.
  induction before as [|c before IH].
  - cbn [app]. destruct (n ++ rest) eqn:H; cbn [contains];
      rewrite <- H, startswith_app; reflexivity.
  - cbn [app contains]. rewrite IH. apply orb_true_r.
Qed.

(** X5.  [notify_team] never raises and leaves the store alone; it posts
    exactly one request, addressed to the normalised team number, whose
    text starts with the alert banner, contains the text it was given
    and, when a non-empty client phone was given, the phone after its
    label. *)
Theorem notify_team_posts_one_alert :
  forall (U : unicode_db) (team_number : str) (E : env) (text : str)
         (phone client details : option str) (w : world),
  exists b alert,
    notify_team U team_number E text phone client details w
    = (Ok b,
       {| collection := collection w; clock := clock w;
          posted := posted w ++ [(normalize_to_e164 U team_number, alert)] |})
    /\ startswith alert_banner alert = true
    /\ contains text alert = true
    /\ (truthy phone = true ->
        contains (lit "📱 Client Phone: " ++ fmt_opt phone) alert = true).
Proof.
  intros U team_number E text phone client details w.
  do 2 eexists. split; [apply notify_run|].
  rewrite team_alert_text_split. split; [apply startswith_app|]. split.
  - apply contains_app.
  - intros Hp. unfold alert_footer. rewrite Hp.
    set (name_line := if truthy client then _ else _).
    set (rest := (if truthy details then _ else _) ++ _).
    set (label := lit "📱 Client Phone: " ++ fmt_opt phone).
    assert (Heq : alert_banner ++ text ++ name_line ++ (nl ++ label) ++ rest
                  = (alert_banner ++ text ++ name_line ++ nl) ++ label ++ rest)
      by (rewrite <- !app_assoc; reflexivity).
    rewrite Heq. apply contains_app.
Qed.

(** ** Fetching and saving *)

(** X6.  A second [get_or_create_conversation] for the same number finds
    what the first one returned or created: it creates nothing, and gives
    the same phone number, client name, status, count and turns. *)
Theorem get_or_create_conversation_twice
    (U : unicode_db) (bson_datetime : Z -> Z) (E1 E2 : env) (phone : str)
    (w w1 : world) (c1 : WhatsAppConversation) :
  get_or_create_conversation U bson_datetime E1 phone w = (Ok c1, w1) ->
  find_one_ok E2 = true ->
  exists c2 w2,
    get_or_create_conversation U bson_datetime E2 phone w1 = (Ok c2, w2)
    /\ collection w2 = collection w1
    /\ phone_number c2 = phone_number c1
    /\ client_name c2 = client_name c1
    /\ status c2 = status c1
    /\ messages_used c2 = messages_used c1
    /\ conversation c2 = conversation c1.
Proof.
  intros H1 Hf2. rewrite fetch_run in H1. cbv zeta in H1.
  rewrite fetch_run. cbv zeta. rewrite Hf2.
  destruct (find_one_ok E1); [|discriminate H1].
  destruct (collection w !! normalize_to_e164 U phone) as [doc|] eqn:Hdoc.
  - destruct (d_phone_number doc) as [p|] eqn:Hp; [|discriminate H1].
    injection H1 as <- <-. cbn [collection]. rewrite Hdoc, Hp.
    do 2 eexists. split; [reflexivity|]. repeat split; reflexivity.
  - destruct (insert_one_ok E1); [|discriminate H1].
    injection H1 as <- <-. cbn [collection]. rewrite lookup_insert_eq.
    cbn [to_document d_phone_number].
    do 2 eexists. split; [reflexivity|]. repeat split; reflexivity.
Qed.

Lemma get_or_create_conversation_twice_witness :
  exists c1 w1,
    get_or_create_conversation ascii_only_db (fun t => t) all_ok PHONE
      empty_world = (Ok c1, w1)
    /\ exists c2 w2,
         get_or_create_conversation ascii_only_db (fun t => t) all_ok PHONE w1
         = (Ok c2, w2)
         /\ collection w2 = collection w1
         /\ phone_number c2 = phone_number c1
         /\ client_name c2 = client_name c1
         /\ status c2 = status c1
         /\ messages_used c2 = messages_used c1
         /\ conversation c2 = conversation c1.
Proof.
  do 2 eexists. split; [vm_compute; reflexivity|].
  eapply (get_or_create_conversation_twice ascii_only_db (fun t => t)
            all_ok all_ok PHONE empty_world); [vm_compute|]; reflexivity.
Defined.

(** X7.  When the conversation cannot be fetched (the lookup fails, the
    insert of a new record fails, or the stored document has no
    [phone_number]), the handler returns [False], posts nothing and
    leaves the store as it was. *)
Theorem unfetchable_conversation_changes_nothing
    (U : unicode_db) (team_number : str) (bson_datetime : Z -> Z) (E : env)
    (phone text : str) (w : world) :
  find_one_ok E = false
  \/ (collection w !! normalize_to_e164 U phone = None
      /\ insert_one_ok E = false)
  \/ (exists doc, collection w !! normalize_to_e164 U phone = Some doc
                  /\ d_phone_number doc = None) ->
  exists w',
    handle_incoming_message U team_number bson_datetime E phone text w
    = (Ok false, w')
    /\ collection w' = collection w
    /\ posted w' = posted w.
Proof.
  intros H. rewrite handle_run, fetch_run. cbv zeta.
  destruct H as [Hf|[[Hnone Hi]|(doc & Hdoc & Hp)]].
  - rewrite Hf. eexists. split; [reflexivity|]. split; reflexivity.
  - rewrite Hnone, Hi.
    destruct (find_one_ok E); eexists; (split; [reflexivity|]);
      split; reflexivity.
  - rewrite Hdoc, Hp.
    destruct (find_one_ok E); eexists; (split; [reflexivity|]);
      split; reflexivity.
Qed.

Lemma unfetchable_conversation_changes_nothing_witness :
  let E := {| find_one_ok := true; insert_one_ok := false;
              replace_one_ok := true; gateway := gateway all_ok;
              groq_api_key := true; groq := groq all_ok |} in
  (collection empty_world !! normalize_to_e164 ascii_only_db PHONE = None
   /\ insert_one_ok E = false)
  /\ exists w',
       handle_at E PHONE (lit "hi") empty_world = (Ok false, w')
       /\ collection w' = collection empty_world
       /\ posted w' = posted empty_world.
Proof.
  intros E. split; [split; reflexivity|].
  apply (unfetchable_conversation_changes_nothing ascii_only_db TEAM
           (fun t => t) E PHONE (lit "hi") empty_world).
  right. left. split; reflexivity.
Defined.

(** X8.  [save_conversation] writes one key, the record's phone number,
    and replaces what was there: of two saves under the same phone number
    only the second leaves a trace, and every other record is as before. *)
Theorem save_conversation_last_write_wins
    (bson_datetime : Z -> Z) (E1 E2 : env) (c1 c2 : WhatsAppConversation)
    (w : world) :
  replace_one_ok E1 = true -> replace_one_ok E2 = true ->
  phone_number c1 = phone_number c2 ->
  let w1 := snd (save_conversation bson_datetime E1 c1 w) in
  let w2 := snd (save_conversation bson_datetime E2 c2 w1) in
  collection w2
  = <[phone_number c2 :=
        to_document bson_datetime (with_updated_at c2 (clock w + 1))]>
      (collection w)
  /\ forall k, k <> phone_number c2 -> collection w2 !! k = collection w !! k.
Proof.
  intros H1 H2 Hph w1 w2. subst w2 w1.
  rewrite (save_run bson_datetime E1 c1 w). cbv zeta. rewrite H1. cbn [snd].
  rewrite save_run. cbv zeta. rewrite H2. cbn [snd collection clock].
  rewrite Hph, insert_insert_eq. split; [reflexivity|].
  intros k Hk. rewrite lookup_insert_ne by congruence. reflexivity.
Qed.

Lemma save_conversation_last_write_wins_witness :
  let c2 := with_client_name sample_conversation (Some (lit "Jane")) in
  let w1 := snd (save_conversation (fun t => t) all_ok sample_conversation
                   empty_world) in
  let w2 := snd (save_conversation (fun t => t) all_ok c2 w1) in
  phone_number sample_conversation = phone_number c2
  /\ collection w2
     = <[phone_number c2 :=
           to_document (fun t => t) (with_updated_at c2 (clock empty_world + 1))]>
         (collection empty_world)
  /\ forall k, k <> phone_number c2 ->
       collection w2 !! k = collection empty_world !! k.
Proof.
  intros c2 w1 w2. split; [reflexivity|].
  exact (save_conversation_last_write_wins (fun t => t) all_ok all_ok
           sample_conversation c2 empty_world eq_refl eq_refl eq_refl).
Defined.

(** ** The transcript *)

Section Transcript.

Variable U : unicode_db.
Variable team_number : str.
Variable bson_datetime : Z -> Z.

Local Abbreviation handle := (handle_incoming_message U team_number bson_datetime).
Local Abbreviation fetch := (get_or_create_conversation U bson_datetime).
Local Abbreviation doc_of := (to_document bson_datetime).

(** A run in which every datastore call goes through. *)
Lemma handle_exchange (E : env) (phone text : str) (w : world) :
  let key := normalize_to_e164 U phone in
  keyed (collection w) ->
  find_one_ok E = true ->
  (collection w !! key = None -> insert_one_ok E = true) ->
  replace_one_ok E = true ->
  exists conv reply alerts t t',
    handle E phone text w
    = (Ok (accepted (gateway E (length (posted w ++ alerts)))),
       {| collection := <[key := doc_of conv]> (collection w);
          clock := clock w + 1 + 1 + 1 + 1 + 1;
          posted := (posted w ++ alerts) ++ [(key, reply)] |})
    /\ (alerts = []
        \/ exists body, alerts = [(normalize_to_e164 U team_number, body)])
    /\ phone_number conv = key
    /\ conversation conv
       = old_turns (collection w !! key)
         ++ [client_turn text t; assistant_turn reply t']
    /\ messages_used conv = old_used (collection w !! key) + 1.
Proof.
  intros key Hkeyed Hfind Hins Hrep.
  destruct (collection w !! key) as [doc|] eqn:Hdoc.
  - pose proof (Hkeyed key doc Hdoc) as Hp.
    match type of Hp with _ = Some ?k => set (p := k) in Hp end.
    destruct (respond_effects U team_number E phone text
                (count_message
                   (append_message
                      (conversation_of_document key p doc (clock w))
                      (client_turn text (clock w + 1 + 1))))
                {| collection := collection w; clock := clock w + 1 + 1 + 1;
                   posted := posted w |})
      as (conv' & reply & alerts & Hr & Hal & Hph & Hconv & Hmu & _).
    cbn [collection clock posted] in Hr.
    pose proof (handle_on_stored U team_number bson_datetime E phone text w
                  doc p conv' reply alerts Hfind Hrep Hdoc Hp Hr) as Hrun.
    cbn [count_message append_message conversation_of_document phone_number
           conversation messages_used] in Hph, Hconv, Hmu.
    do 5 eexists. split; [rewrite Hrun, Hph; reflexivity|].
    split; [exact Hal|].
    cbn [with_updated_at append_message phone_number conversation messages_used
           old_turns old_used].
    split; [exact Hph|]. split.
    + rewrite Hconv, <- app_assoc. reflexivity.
    + exact Hmu.
  - epose proof (handle_on_new U team_number bson_datetime E phone text w
                   _ _ [] Hfind (Hins eq_refl) Hrep Hdoc) as Hrun.
    cbv zeta in Hrun. fold key in Hrun.
    rewrite respond_name_request in Hrun by reflexivity.
    rewrite !app_nil_r in Hrun. specialize (Hrun eq_refl).
    cbn [with_client_name count_message append_message fresh_conversation
           phone_number] in Hrun.
    rewrite insert_insert_eq in Hrun.
    do 5 eexists. split; [rewrite app_nil_r; exact Hrun|].
    split; [left; reflexivity|].
    cbn [with_updated_at append_message phone_number conversation messages_used
           old_turns old_used].
    repeat split; reflexivity.
Qed.

Lemma handle_one_operation (E : env) (phone text : str) (w : world) :
  keyed (collection w) ->
  one_operation bson_datetime (normalize_to_e164 U phone) (collection w)
    (collection (snd (handle E phone text w))).
Proof.
  intros Hkeyed. set (key := normalize_to_e164 U phone).
  destruct (find_one_ok E) eqn:Hfind.
  2:{ left. rewrite handle_run, fetch_run. cbv zeta. rewrite Hfind. reflexivity. }
  destruct (collection w !! key) as [doc|] eqn:Hdoc.
  - destruct (replace_one_ok E) eqn:Hrep.
    + destruct (handle_exchange E phone text w Hkeyed Hfind) as
        (conv & reply & alerts & t & t' & Hrun & _ & Hph & Hconv & Hmu);
        [fold key; congruence | exact Hrep |].
      rewrite Hrun. cbn [snd collection]. right. right.
      exists conv, text, reply, t, t'. fold key in Hph, Hconv, Hmu |- *.
      repeat split; assumption.
    + left. rewrite handle_run, fetch_run. cbv zeta. fold key.
      rewrite Hfind, Hdoc, (Hkeyed key doc Hdoc).
      match goal with
      | |- context [respond U team_number E phone text ?c ?w1] =>
          destruct (respond_effects U team_number E phone text c w1)
            as (conv' & reply & alerts & -> & _)
      end.
      rewrite Hrep. reflexivity.
  - destruct (insert_one_ok E) eqn:Hins.
    + destruct (replace_one_ok E) eqn:Hrep.
      * destruct (handle_exchange E phone text w Hkeyed Hfind) as
          (conv & reply & alerts & t & t' & Hrun & _ & Hph & Hconv & Hmu);
          [intros _; exact Hins | exact Hrep |].
        rewrite Hrun. cbn [snd collection]. right. right.
        exists conv, text, reply, t, t'. fold key in Hph, Hconv, Hmu |- *.
        repeat split; assumption.
      * right. left. split; [exact Hdoc|]. exists (clock w).
        rewrite handle_run, fetch_run. cbv zeta. fold key.
        rewrite Hfind, Hdoc, Hins.
        match goal with
        | |- context [respond U team_number E phone text ?c ?w1] =>
            destruct (respond_effects U team_number E phone text c w1)
              as (conv' & reply & alerts & -> & _)
        end.
        rewrite Hrep. reflexivity.
    + left. rewrite handle_run, fetch_run. cbv zeta. fold key.
      rewrite Hfind, Hdoc, Hins. reflexivity.
Qed.

Lemma fetch_one_operation (E : env) (phone : str) (w : world) :
  one_operation bson_datetime (normalize_to_e164 U phone) (collection w)
    (collection (snd (fetch E phone w))).
Proof.
  rewrite fetch_run. cbv zeta.
  destruct (find_one_ok E); [|left; reflexivity].
  destruct (collection w !! normalize_to_e164 U phone) as [doc|] eqn:Hdoc.
  - destruct (d_phone_number doc); left; reflexivity.
  - destruct (insert_one_ok E); [|left; reflexivity].
    right. left. split; [exact Hdoc|]. eexists. reflexivity.
Qed.

Lemma step_one_operation (op : operation) (w : world) :
  keyed (collection w) ->
  exists key,
    one_operation bson_datetime key (collection w)
      (collection (step U team_number bson_datetime op w)).
Proof.
  intros Hk. destruct op as [E phone text|E phone]; cbn [step]; eexists.
  - apply handle_one_operation, Hk.
  - apply fetch_one_operation.
Qed.

End Transcript.

Lemma alternating_S (n : nat) :
  alternating (S n) = lit "client" :: lit "assistant" :: alternating n.
Proof. reflexivity. Qed.

Lemma alternating_snoc (n : nat) :
  alternating n ++ [lit "client"; lit "assistant"] = alternating (S n).
Proof.
  induction n as [|n IH]; [reflexivity|].
  change (alternating (S n) ++ [lit "client"; lit "assistant"])
    with (lit "client" :: lit "assistant"
          :: (alternating n ++ [lit "client"; lit "assistant"])).
  rewrite IH. reflexivity.
Qed.

Lemma alternating_length (n : nat) : length (alternating n) = (2 * n)%nat.
Proof.
  induction n as [|n IH]; [reflexivity|].
  rewrite alternating_S. cbn [length]. rewrite IH. lia.
Qed.

Lemma turns_of_saved bson_datetime (conv : WhatsAppConversation) :
  turns_of (to_document bson_datetime conv)
  = List.map (stored_message bson_datetime) (conversation conv).
Proof. reflexivity. Qed.

Lemma used_of_saved bson_datetime (conv : WhatsAppConversation) :
  used_of (to_document bson_datetime conv) = messages_used conv.
Proof. reflexivity. Qed.

Lemma roles_of_stored bson_datetime (l : list ConversationMessage) :
  List.map role (List.map (stored_message bson_datetime) l) = List.map role l.
Proof. rewrite List.map_map. reflexivity. Qed.

Lemma said_of_stored bson_datetime (l : list ConversationMessage) :
  List.map said (List.map (stored_message bson_datetime) l) = List.map said l.
Proof. rewrite List.map_map. reflexivity. Qed.

Section StoreInvariants.

Variable bson_datetime : Z -> Z.

Lemma one_operation_keyed key m m' :
  keyed m -> one_operation bson_datetime key m m' -> keyed m'.
Proof.
  intros Hm [->|[(_ & t & ->)|(conv & inb & reply & t & t' & -> & Hph & _)]];
    [exact Hm| |]; intros k d Hk;
    (destruct (decide (key = k)) as [<-|Hne];
     [ rewrite lookup_insert_eq in Hk; injection Hk as <-
     | rewrite lookup_insert_ne in Hk by exact Hne; apply Hm, Hk ]).
  - reflexivity.
  - cbn [to_document d_phone_number]. rewrite Hph. reflexivity.
Qed.

Lemma one_operation_balanced key m m' :
  balanced m -> one_operation bson_datetime key m m' -> balanced m'.
Proof.
  intros Hm [->|[(_ & t & ->)|(conv & inb & reply & t & t' & -> & _ & Hc & Hu)]];
    [exact Hm| |]; intros k d Hk;
    (destruct (decide (key = k)) as [<-|Hne];
     [ rewrite lookup_insert_eq in Hk; injection Hk as <-
     | rewrite lookup_insert_ne in Hk by exact Hne; exact (Hm k d Hk) ]).
  - split; [reflexivity|reflexivity].
  - rewrite turns_of_saved, used_of_saved, roles_of_stored, Hc, Hu.
    assert (Hold : 0 <= old_used (m !! key)
                   /\ List.map role (old_turns (m !! key))
                      = alternating (Z.to_nat (old_used (m !! key)))).
    { destruct (m !! key) as [d0|] eqn:Hd0; cbn [old_used old_turns].
      - exact (Hm key d0 Hd0).
      - split; [lia|reflexivity]. }
    destruct Hold as [Hpos Hroles]. split; [lia|].
    rewrite List.map_app, Hroles.
    replace (Z.to_nat (old_used (m !! key) + 1))
      with (S (Z.to_nat (old_used (m !! key)))) by lia.
    rewrite <- alternating_snoc. reflexivity.
Qed.

Lemma extends_refl m : extends m m.
Proof.
  intros k d Hk. exists d, []. rewrite app_nil_r.
  split; [exact Hk|]. split; [reflexivity|lia].
Qed.

Lemma extends_trans m1 m2 m3 : extends m1 m2 -> extends m2 m3 -> extends m1 m3.
Proof.
  intros H12 H23 k d Hk.
  destruct (H12 k d Hk) as (d2 & more2 & Hk2 & Ht2 & Hu2).
  destruct (H23 k d2 Hk2) as (d3 & more3 & Hk3 & Ht3 & Hu3).
  exists d3, (more2 ++ more3). split; [exact Hk3|].
  split; [rewrite Ht3, Ht2, <- app_assoc; reflexivity|lia].
Qed.

Lemma one_operation_extends key m m' :
  one_operation bson_datetime key m m' -> extends m m'.
Proof.
  intros [->|[(Hnone & t & ->)|(conv & inb & reply & t & t' & -> & _ & Hc & Hu)]].
  - apply extends_refl.
  - intros k d Hk. destruct (decide (key = k)) as [<-|Hne]; [congruence|].
    exists d, []. rewrite lookup_insert_ne by exact Hne. rewrite app_nil_r.
    split; [exact Hk|]. split; [reflexivity|lia].
  - intros k d Hk. destruct (decide (key = k)) as [<-|Hne].
    + rewrite Hk in Hc, Hu. cbn [old_turns old_used] in Hc, Hu.
      eexists. eexists. rewrite lookup_insert_eq. split; [reflexivity|].
      rewrite turns_of_saved, used_of_saved, said_of_stored, Hc, Hu.
      rewrite List.map_app. split; [reflexivity|lia].
    + exists d, []. rewrite lookup_insert_ne by exact Hne. rewrite app_nil_r.
      split; [exact Hk|]. split; [reflexivity|lia].
Qed.

End StoreInvariants.

Section RunInvariants.

Variable U : unicode_db.
Variable team_number : str.
Variable bson_datetime : Z -> Z.

Lemma run_keyed (ops : list operation) (w : world) :
  keyed (collection w) ->
  keyed (collection (run U team_number bson_datetime ops w)).
Proof.
  revert w. induction ops as [|op ops IH]; intros w Hk; [exact Hk|].
  cbn [run fold_left]. apply IH.
  destruct (step_one_operation U team_number bson_datetime op w Hk) as (key & H).
  eapply one_operation_keyed; eassumption.
Qed.

Lemma run_balanced (ops : list operation) (w : world) :
  keyed (collection w) -> balanced (collection w) ->
  balanced (collection (run U team_number bson_datetime ops w)).
Proof.
  revert w. induction ops as [|op ops IH]; intros w Hk Hb; [exact Hb|].
  cbn [run fold_left].
  destruct (step_one_operation U team_number bson_datetime op w Hk) as (key & H).
  apply IH.
  - eapply one_operation_keyed; eassumption.
  - eapply one_operation_balanced; eassumption.
Qed.

Lemma run_extends (ops : list operation) (w : world) :
  keyed (collection w) ->
  extends (collection w) (collection (run U team_number bson_datetime ops w)).
Proof.
  revert w. induction ops as [|op ops IH]; intros w Hk; [apply extends_refl|].
  cbn [run fold_left].
  destruct (step_one_operation U team_number bson_datetime op w Hk) as (key & H).
  eapply extends_trans.
  - eapply one_operation_extends, H.
  - apply IH. eapply one_operation_keyed; eassumption.
Qed.

End RunInvariants.

Lemma empty_keyed : keyed (collection empty_world).
Proof. intros k d Hk. vm_compute in Hk. discriminate Hk. Qed.

Lemma empty_balanced : balanced (collection empty_world).
Proof. intros k d Hk. vm_compute in Hk. discriminate Hk. Qed.

(** X9.  When the datastore calls go through, a handled message is
    recorded as one exchange: the saved transcript is the stored one
    followed by the inbound turn and an assistant turn, the count goes up
    by one, the reply posted to the client is the text of that assistant
    turn, and no other record changes. *)
Theorem handled_message_is_recorded_as_one_exchange
    (U : unicode_db) (team_number : str) (bson_datetime : Z -> Z) (E : env)
    (phone text : str) (w : world) :
  let key := normalize_to_e164 U phone in
  keyed (collection w) ->
  find_one_ok E = true -> insert_one_ok E = true -> replace_one_ok E = true ->
  exists b w' saved reply t t' alerts,
    handle_incoming_message U team_number bson_datetime E phone text w
    = (Ok b, w')
    /\ collection w' !! key = Some saved
    /\ turns_of saved
       = List.map (stored_message bson_datetime)
           (old_turns (collection w !! key)
            ++ [client_turn text t; assistant_turn reply t'])
    /\ used_of saved = old_used (collection w !! key) + 1
    /\ posted w' = (posted w ++ alerts) ++ [(key, reply)]
    /\ forall k, k <> key -> collection w' !! k = collection w !! k.
Proof.
  intros key Hk Hf Hi Hr.
  destruct (handle_exchange U team_number bson_datetime E phone text w Hk Hf
              (fun _ => Hi) Hr)
    as (conv & reply & alerts & t & t' & Hrun & _ & _ & Hc & Hu).
  fold key in Hrun, Hc, Hu.
  do 7 eexists. split; [exact Hrun|]. cbn [collection posted].
  split; [apply lookup_insert_eq|].
  rewrite turns_of_saved, used_of_saved, Hc, Hu.
  split; [reflexivity|]. split; [reflexivity|]. split; [reflexivity|].
  intros k Hne. rewrite lookup_insert_ne by congruence. reflexivity.
Qed.

Lemma handled_message_is_recorded_as_one_exchange_witness :
  let w := project_described in
  let text := lit "what about hosting" in
  let key := normalize_to_e164 ascii_only_db PHONE in
  keyed (collection w)
  /\ exists b w' saved reply t t' alerts,
       handle_at all_ok PHONE text w = (Ok b, w')
       /\ collection w' !! key = Some saved
       /\ turns_of saved
          = List.map (stored_message (fun t => t))
              (old_turns (collection w !! key)
               ++ [client_turn text t; assistant_turn reply t'])
       /\ used_of saved = old_used (collection w !! key) + 1
       /\ posted w' = (posted w ++ alerts) ++ [(key, reply)]
       /\ forall k, k <> key -> collection w' !! k = collection w !! k.
Proof.
  intros w text key.
  assert (Hk : keyed (collection w)).
  { apply (run_keyed ascii_only_db TEAM (fun t => t)
             [Inbound all_ok PHONE (lit "hi"); Inbound all_ok PHONE (lit "John");
              Inbound all_ok PHONE (lit "I need an online store")]
             empty_world empty_keyed). }
  split; [exact Hk|].
  exact (handled_message_is_recorded_as_one_exchange ascii_only_db TEAM
           (fun t => t) all_ok PHONE text w Hk eq_refl eq_refl eq_refl).
Defined.

(** X10.  Take a store where every record sits under its own phone number
    and holds as many client-assistant exchanges as its count says, the
    empty store for one.  After any inbound messages and lookups,
    whatever the outside world answers, every transcript is still a
    sequence of client-assistant pairs and has exactly twice as many turns
    as [messages_used]. *)
Theorem transcript_has_two_turns_per_message
    (U : unicode_db) (team_number : str) (bson_datetime : Z -> Z)
    (w0 : world) (ops : list operation) :
  keyed (collection w0) -> balanced (collection w0) ->
  forall k d,
    collection (run U team_number bson_datetime ops w0) !! k = Some d ->
    List.map role (turns_of d) = alternating (Z.to_nat (used_of d))
    /\ Z.of_nat (length (turns_of d)) = 2 * used_of d.
Proof.
  intros Hk Hb k d Hd.
  destruct (run_balanced U team_number bson_datetime ops w0 Hk Hb k d Hd)
    as [Hpos Hroles].
  split; [exact Hroles|].
  rewrite <- (length_map role), Hroles, alternating_length. lia.
Qed.

Lemma transcript_has_two_turns_per_message_witness :
  let ops :=
    [Inbound all_ok PHONE (lit "hi");
     Inbound (with_replace_one all_ok false) PHONE (lit "John");
     Inbound all_ok PHONE (lit "John");
     Lookup all_ok (lit "0321 5556677");
     Inbound all_ok PHONE (lit "how much is it")] in
  keyed (collection empty_world) /\ balanced (collection empty_world)
  /\ forall k d,
       collection (run ascii_only_db TEAM (fun t => t) ops empty_world) !! k
       = Some d ->
       List.map role (turns_of d) = alternating (Z.to_nat (used_of d))
       /\ Z.of_nat (length (turns_of d)) = 2 * used_of d.
Proof.
  intros ops. split; [exact empty_keyed|]. split; [exact empty_balanced|].
  exact (transcript_has_two_turns_per_message ascii_only_db TEAM (fun t => t)
           empty_world ops empty_keyed empty_balanced).
Defined.

(** ** Classified replies *)

(** The five results of the classifier. *)
Lemma classify_message_cases U (text : str) :
  let c := classify_message U text in
  (c_type c = lit "pricing" /\ c_confidence c = 0.9%float
   /\ c_response c
      = lit "Our pricing starts from $99. Would you like the full details?")
  \/ (c_type c = lit "support" /\ c_confidence c = 0.8%float
      /\ c_response c
         = lit "I'm here to help. Could you share more details about the issue?")
  \/ (c_type c = lit "general" /\ c_confidence c = 0.7%float)
  \/ (c_type c = lit "greeting" /\ c_confidence c = 0.9%float
      /\ c_response c = lit "Hello 👋 How can I help you today?")
  \/ (c_type c = lit "other" /\ c_confidence c = 0.5%float).
Proof.
  cbv zeta. unfold classify_message.
  destruct (matches_patterns U _ pricing_patterns); [tauto|].
  destruct (matches_patterns U _ support_patterns); [tauto|].
  destruct (matches_patterns U _ general_patterns); [tauto|].
  destruct (matches_patterns U _ greeting_inline_patterns); tauto.
Qed.

Ltac other_type H :=
  exfalso; rewrite H in *;
  match goal with
  | H' : lit _ = lit _ |- _ => vm_compute in H'; discriminate H'
  end.

(** X12.  For a stored conversation of a named client, fetched and saved:
    a message classified as pricing is answered by the fixed pricing reply
    and raises exactly one team alert, which carries the message; a message
    classified with confidence 0.8 or more as anything else is answered by
    the classifier's response and raises no alert. *)
Theorem confident_classification_is_answered_from_the_table
    (U : unicode_db) (team_number : str) (bson_datetime : Z -> Z) (E : env)
    (phone text : str) (w : world) (doc : document) (p : str) :
  find_one_ok E = true -> replace_one_ok E = true ->
  collection w !! normalize_to_e164 U phone = Some doc ->
  d_phone_number doc = Some p ->
  truthy (d_client_name doc) = true ->
  opt_eqb (d_client_name doc) (lit "Unknown") = false ->
  (0.8 <=? c_confidence (classify_message U text))%float = true ->
  exists b w',
    handle_incoming_message U team_number bson_datetime E phone text w
    = (Ok b, w')
    /\ (c_type (classify_message U text) = lit "pricing" ->
        posted w'
        = posted w
          ++ [(normalize_to_e164 U team_number,
               team_alert_text
                 (lit "💰 PRICING INQUIRY" ++ nl ++ nl ++ lit "Message: " ++ text)
                 (Some phone) (d_client_name doc)
                 (Some (lit "Client is asking about pricing for our services")));
              (normalize_to_e164 U phone,
               lit "Our pricing starts from $99. Would you like the full details?")])
    /\ (c_type (classify_message U text) <> lit "pricing" ->
        posted w'
        = posted w
          ++ [(normalize_to_e164 U phone, c_response (classify_message U text))]).
Proof.
  intros Hfind Hrep Hdoc Hp Hname Hunk Hconf.
  set (conv1 :=
         count_message
           (append_message
              (conversation_of_document (normalize_to_e164 U phone) p doc
                 (clock w))
              (client_turn text (clock w + 1 + 1)))).
  set (w1 := {| collection := collection w; clock := clock w + 1 + 1 + 1;
                posted := posted w |}).
  assert (Hresp :
            respond U team_number E phone text conv1 w1
            = ((if str_eqb (c_type (classify_message U text)) (lit "pricing")
                then
                  notify_team U team_number E
                    (lit "💰 PRICING INQUIRY" ++ nl ++ nl ++ lit "Message: "
                     ++ text)
                    (Some phone) (d_client_name doc)
                    (Some (lit "Client is asking about pricing for our services"))
                else ret false) ;;;
               ret (conv1, c_response (classify_message U text))) w1).
  { unfold respond.
    change (client_name conv1) with (d_client_name doc).
    rewrite Hname, Hunk, Hconf. reflexivity. }
  destruct (str_eqb (c_type (classify_message U text)) (lit "pricing")) eqn:Hty.
  - apply str_eqb_eq in Hty.
    unfold bind in Hresp. rewrite notify_run in Hresp.
    pose proof (handle_on_stored U team_number bson_datetime E phone text w doc
                  p _ _ _ Hfind Hrep Hdoc Hp Hresp) as Hrun.
    do 2 eexists. split; [exact Hrun|]. cbn [posted]. split; [|congruence].
    intros _. rewrite <- app_assoc. cbn [app].
    destruct (classify_message_cases U text)
      as [(_ & _ & ->)|[(H & _)|[(H & _)|[(H & _)|(H & _)]]]];
      [reflexivity| | | |]; other_type H.
  - assert (Hne : c_type (classify_message U text) <> lit "pricing").
    { intros H. apply str_eqb_eq in H. congruence. }
    unfold bind, ret in Hresp. unfold w1 in Hresp.
    rewrite <- (app_nil_r (posted w)) in Hresp at 2.
    pose proof (handle_on_stored U team_number bson_datetime E phone text w doc
                  p _ _ _ Hfind Hrep Hdoc Hp Hresp) as Hrun.
    do 2 eexists. split; [exact Hrun|]. cbn [posted]. split; [congruence|].
    intros _. rewrite app_nil_r. reflexivity.
Qed.

Lemma confident_classification_is_answered_from_the_table_witness :
  let text := lit "How much does it cost?" in
  exists doc,
    collection project_described !! normalize_to_e164 ascii_only_db PHONE
    = Some doc
    /\ c_type (classify_message ascii_only_db text) = lit "pricing"
    /\ exists b w',
         handle_at all_ok PHONE text project_described = (Ok b, w')
         /\ (c_type (classify_message ascii_only_db text) = lit "pricing" ->
             posted w'
             = posted project_described
               ++ [(normalize_to_e164 ascii_only_db TEAM,
                    team_alert_text
                      (lit "💰 PRICING INQUIRY" ++ nl ++ nl ++ lit "Message: "
                       ++ text)
                      (Some PHONE) (d_client_name doc)
                      (Some (lit "Client is asking about pricing for our services")));
                   (normalize_to_e164 ascii_only_db PHONE,
                    lit "Our pricing starts from $99. Would you like the full details?")])
         /\ (c_type (classify_message ascii_only_db text) <> lit "pricing" ->
             posted w'
             = posted project_described
               ++ [(normalize_to_e164 ascii_only_db PHONE,
                    c_response (classify_message ascii_only_db text))]).
Proof.
  intros text. eexists. split; [vm_compute; reflexivity|].
  split; [vm_compute; reflexivity|].
  apply (confident_classification_is_answered_from_the_table ascii_only_db TEAM
           (fun t => t) all_ok PHONE text project_described _
           (lit "+923001112233"));
    vm_compute; reflexivity.
Defined.

(** X13.  [get_enhanced_response] gives the classifier's response exactly
    for the types pricing, support and greeting, and nothing for general
    and other: the response text of a general inquiry is never returned. *)
Theorem get_enhanced_response_by_type :
  forall (U : unicode_db) (text : str),
    let c := classify_message U text in
    match get_enhanced_response U text with
    | Some r =>
        r = c_response c
        /\ (c_type c = lit "pricing" \/ c_type c = lit "support"
            \/ c_type c = lit "greeting")
    | None => c_type c = lit "general" \/ c_type c = lit "other"
    end.
Proof.
  intros U text. cbv zeta. unfold get_enhanced_response.
  destruct (classify_message_cases U text)
    as [(Ht & -> & _)|[(Ht & -> & _)|[(Ht & ->)|[(Ht & -> & _)|(Ht & ->)]]]];
    match goal with
    | |- context [PrimFloat.leb ?a ?b] =>
        let v := eval vm_compute in (PrimFloat.leb a b) in
        change (PrimFloat.leb a b) with v
    end; cbv iota; tauto.
Qed.

(** ** The request to the completion API *)

Lemma chat_history_of_exchanges (n : nat) :
  forall turns : list ConversationMessage,
    List.map role turns = alternating n ->
    let sent :=
      flat_map
        (fun msg =>
           if str_eqb (fst msg) (lit "client") then [(lit "user", snd msg)]
           else if str_eqb (fst msg) (lit "assistant")
                then [(lit "assistant", snd msg)]
                else [])
        (List.map said turns) in
    List.map fst sent = concat (repeat [lit "user"; lit "assistant"] n)
    /\ List.map snd sent = List.map message turns.
Proof.
  induction n as [|n IH]; intros turns Hroles.
  - destruct turns; [split; reflexivity|discriminate Hroles].
  - rewrite alternating_S in Hroles.
    destruct turns as [|c [|a rest]]; try discriminate Hroles.
    cbn [List.map] in Hroles. injection Hroles as Hc Ha Hrest.
    destruct (IH rest Hrest) as [IH1 IH2]. cbv zeta.
    cbn [List.map flat_map said fst snd]. rewrite Hc, Ha.
    replace (str_eqb (lit "client") (lit "client")) with true by reflexivity.
    replace (str_eqb (lit "assistant") (lit "client")) with false by reflexivity.
    replace (str_eqb (lit "assistant") (lit "assistant")) with true
      by reflexivity.
    cbn [app List.map fst snd repeat concat]. rewrite IH1, IH2.
    split; reflexivity.
Qed.

(** X14.  For a transcript made of client-assistant exchanges,
    [get_llama_response] sends the system prompt, then every turn in
    order with its text unchanged and role [client] renamed [user], then
    the new message as [user]: nothing is dropped or reordered. *)
Theorem chat_messages_keep_the_transcript
    (turns : list ConversationMessage) (n : nat) (user_message : str) :
  List.map role turns = alternating n ->
  let sent := chat_messages (List.map said turns) user_message in
  List.map fst sent
  = lit "system" :: concat (repeat [lit "user"; lit "assistant"] n)
    ++ [lit "user"]
  /\ List.map snd sent
     = SYSTEM_PROMPT :: List.map message turns ++ [user_message].
Proof.
  intros Hroles. destruct (chat_history_of_exchanges n turns Hroles) as [H1 H2].
  cbv zeta in H1, H2. cbv zeta. unfold chat_messages.
  cbn [List.map fst snd]. rewrite !List.map_app, H1, H2. split; reflexivity.
Qed.

Lemma chat_messages_keep_the_transcript_witness :
  let turns := [client_turn (lit "hi") 2; assistant_turn name_request_reply 3] in
  List.map role turns = alternating 1
  /\ (let sent := chat_messages (List.map said turns) (lit "John") in
      List.map fst sent
      = lit "system" :: concat (repeat [lit "user"; lit "assistant"] 1)
        ++ [lit "user"]
      /\ List.map snd sent
         = SYSTEM_PROMPT :: List.map message turns ++ [lit "John"]).
Proof.
  intros turns. split; [reflexivity|].
  exact (chat_messages_keep_the_transcript turns 1 (lit "John") eq_refl).
Defined.

(** ** What the ladder does not look at *)

Lemma respond_ignores_status U team_number E (phone text s : str)
    (conv : WhatsAppConversation) :
  exists c c' reply alerts,
    phone_number c' = phone_number c
    /\ forall w1 w2 : world,
         respond U team_number E phone text conv w1
         = (Ok (c, reply),
            {| collection := collection w1; clock := clock w1;
               posted := posted w1 ++ alerts |})
         /\ respond U team_number E phone text (with_status conv s) w2
            = (Ok (c', reply),
               {| collection := collection w2; clock := clock w2;
                  posted := posted w2 ++ alerts |}).
Proof.
  assert (Hsel : select_branch U name_falsy text (with_status conv s)
                 = select_branch U name_falsy text conv) by reflexivity.
  destruct (select_branch U name_falsy text conv) eqn:Hb.
  - exists (with_client_name conv (Some (lit "Unknown"))),
           (with_client_name (with_status conv s) (Some (lit "Unknown"))),
           (lit "Hello! What is your name, sir?"), [].
    split; [reflexivity|]. intros w1 w2.
    rewrite !respond_is_table. unfold respond_by_table. rewrite Hsel, Hb.
    cbn [branch_body]. unfold ret. rewrite <- !world_eta. split; reflexivity.
  - exists (with_client_name conv (Some (strip U text))),
           (with_client_name (with_status conv s) (Some (strip U text))),
           (project_inquiry_reply (strip U text)), [].
    split; [reflexivity|]. intros w1 w2.
    rewrite !respond_is_table. unfold respond_by_table. rewrite Hsel, Hb.
    cbn [branch_body]. unfold ret. rewrite <- !world_eta. split; reflexivity.
  - destruct (str_eqb (c_type (classify_message U text)) (lit "pricing")) eqn:Hp.
    + do 4 eexists. split; [|intros w1 w2].
      2:{ rewrite !respond_is_table. unfold respond_by_table. rewrite Hsel, Hb.
          cbn [branch_body]. rewrite Hp. unfold bind. rewrite !notify_run.
          split; reflexivity. }
      reflexivity.
    + exists conv, (with_status conv s),
             (c_response (classify_message U text)), [].
      split; [reflexivity|]. intros w1 w2.
      rewrite !respond_is_table. unfold respond_by_table. rewrite Hsel, Hb.
      cbn [branch_body]. rewrite Hp. unfold bind, ret.
      rewrite <- !world_eta. split; reflexivity.
  - do 4 eexists. split; [|intros w1 w2].
    2:{ rewrite !respond_is_table. unfold respond_by_table. rewrite Hsel, Hb.
        cbn [branch_body]. unfold bind. rewrite !notify_run.
        split; reflexivity. }
    reflexivity.
  - do 4 eexists. split; [|intros w1 w2].
    2:{ rewrite !respond_is_table. unfold respond_by_table. rewrite Hsel, Hb.
        cbn [branch_body]. unfold bind. rewrite !notify_run.
        split; reflexivity. }
    reflexivity.
  - do 4 eexists. split; [|intros w1 w2].
    2:{ rewrite !respond_is_table. unfold respond_by_table. rewrite Hsel, Hb.
        cbn [branch_body]. unfold bind. rewrite !notify_run.
        split; reflexivity. }
    reflexivity.
  - exists conv, (with_status conv s),
           (get_llama_response E
              (List.map (fun msg => (role msg, message msg))
                 (removelast (conversation conv)))
              text), [].
    split; [reflexivity|]. intros w1 w2.
    rewrite !respond_is_table. unfold respond_by_table. rewrite Hsel, Hb.
    cbn [branch_body]. unfold ret. rewrite <- !world_eta. split; reflexivity.
Qed.

(** X15.  The stored status plays no part in what the handler answers: a
    conversation whose record says "finalized" (or anything else) gets the
    same return value and the same requests, alert and reply, as the same
    record with any other status. *)
Theorem stored_status_does_not_change_the_answer :
  forall (U : unicode_db) (team_number : str) (bson_datetime : Z -> Z)
         (E : env) (phone text s : str) (m : gmap str document)
         (doc : document) (t : Z) (requests : list (str * str)),
    let key := normalize_to_e164 U phone in
    let w1 := {| collection := <[key := doc]> m; clock := t;
                 posted := requests |} in
    let w2 := {| collection := <[key := with_d_status doc s]> m; clock := t;
                 posted := requests |} in
    let r1 := handle_incoming_message U team_number bson_datetime E phone text w1 in
    let r2 := handle_incoming_message U team_number bson_datetime E phone text w2 in
    fst r1 = fst r2 /\ posted (snd r1) = posted (snd r2).
Proof.
  intros U team_number bson_datetime E phone text s m doc t requests
         key w1 w2 r1 r2.
  subst r1 r2. rewrite !handle_run, !fetch_run. cbv zeta. fold key.
  subst w1 w2. cbn [collection clock posted]. rewrite !lookup_insert_eq.
  destruct (find_one_ok E); [|split; reflexivity].
  change (d_phone_number (with_d_status doc s)) with (d_phone_number doc).
  destruct (d_phone_number doc) as [p|]; [|split; reflexivity].
  cbn [clock collection posted].
  set (conv1 := count_message
                  (append_message (conversation_of_document key p doc t)
                     (client_turn text (t + 1 + 1)))).
  change (count_message
            (append_message
               (conversation_of_document key p (with_d_status doc s) t)
               (client_turn text (t + 1 + 1))))
    with (with_status conv1 s).
  destruct (respond_ignores_status U team_number E phone text s conv1)
    as (c & c' & reply & alerts & Hph & Hboth).
  match goal with
  | |- context [respond U team_number E phone text conv1 ?wa] =>
      match goal with
      | |- context [respond U team_number E phone text (with_status conv1 s) ?wb] =>
          destruct (Hboth wa wb) as [-> ->]
      end
  end.
  cbn [fst snd collection clock posted].
  destruct (replace_one_ok E); split; reflexivity.
Qed.

Lemma respond_other_spelling U team_number E (p q text : str)
    (conv : WhatsAppConversation) (w : world) :
  exists c reply alerts_p alerts_q,
    respond U team_number E p text conv w
    = (Ok (c, reply),
       {| collection := collection w; clock := clock w;
          posted := posted w ++ alerts_p |})
    /\ respond U team_number E q text conv w
       = (Ok (c, reply),
          {| collection := collection w; clock := clock w;
             posted := posted w ++ alerts_q |})
    /\ List.map fst alerts_p = List.map fst alerts_q.
Proof.
  rewrite !respond_is_table. unfold respond_by_table.
  destruct (select_branch U name_falsy text conv); cbn [branch_body].
  - do 2 eexists. exists [], [].
    unfold ret. rewrite <- world_eta. repeat split; reflexivity.
  - do 2 eexists. exists [], [].
    unfold ret. rewrite <- world_eta. repeat split; reflexivity.
  - destruct (str_eqb (c_type (classify_message U text)) (lit "pricing")).
    + unfold bind. rewrite !notify_run.
      do 4 eexists. split; [reflexivity|]. split; reflexivity.
    + do 2 eexists. exists [], [].
      unfold bind, ret. rewrite <- world_eta. repeat split; reflexivity.
  - unfold bind. rewrite !notify_run.
    do 4 eexists. split; [reflexivity|]. split; reflexivity.
  - unfold bind. rewrite !notify_run.
    do 4 eexists. split; [reflexivity|]. split; reflexivity.
  - unfold bind. rewrite !notify_run.
    do 4 eexists. split; [reflexivity|]. split; reflexivity.
  - do 2 eexists. exists [], [].
    unfold ret. rewrite <- world_eta. repeat split; reflexivity.
Qed.

(** X16.  A conversation is identified by the normalised number: two
    spellings that normalise alike continue the same conversation.  The
    handler returns the same value, leaves the same store and clock and
    posts to the same recipients in the same order; when the save goes
    through, the last request, the reply, is the same. *)
Theorem spellings_of_a_number_share_the_conversation
    (U : unicode_db) (team_number : str) (bson_datetime : Z -> Z) (E : env)
    (p q text : str) (w : world) :
  normalize_to_e164 U p = normalize_to_e164 U q ->
  let r1 := handle_incoming_message U team_number bson_datetime E p text w in
  let r2 := handle_incoming_message U team_number bson_datetime E q text w in
  fst r1 = fst r2
  /\ collection (snd r1) = collection (snd r2)
  /\ clock (snd r1) = clock (snd r2)
  /\ List.map fst (posted (snd r1)) = List.map fst (posted (snd r2))
  /\ (replace_one_ok E = true ->
      last (posted (snd r1)) = last (posted (snd r2))).
Proof.
  intros Hn r1 r2. subst r1 r2. rewrite !handle_run.
  assert (Hfetch : get_or_create_conversation U bson_datetime E p w
                   = get_or_create_conversation U bson_datetime E q w)
    by (rewrite !fetch_run, Hn; reflexivity).
  rewrite Hfetch.
  destruct (get_or_create_conversation U bson_datetime E q w)
    as [[conv0|] w0]; [|repeat split; reflexivity].
  cbv zeta.
  match goal with
  | |- context [respond U team_number E p text ?c ?w1] =>
      destruct (respond_other_spelling U team_number E p q text c w1)
        as (c' & reply & ap & aq & -> & -> & Hrec)
  end.
  assert (Hlen : length ap = length aq)
    by (rewrite <- (length_map fst ap), Hrec, length_map; reflexivity).
  cbn [fst snd collection clock posted]. rewrite Hn.
  destruct (replace_one_ok E); cbn [fst snd collection clock posted].
  - rewrite !List.map_app, !length_app, Hrec, Hlen, !last_snoc.
    repeat split; reflexivity.
  - rewrite !List.map_app, Hrec. repeat split; try reflexivity. discriminate.
Qed.

Lemma spellings_of_a_number_share_the_conversation_witness :
  let p := lit "0300 1112233" in
  let q := lit "+92 (300) 111-2233" in
  let text := lit "how much is a website" in
  let r1 := handle_at all_ok p text project_described in
  let r2 := handle_at all_ok q text project_described in
  normalize_to_e164 ascii_only_db p = normalize_to_e164 ascii_only_db q
  /\ fst r1 = fst r2
  /\ collection (snd r1) = collection (snd r2)
  /\ clock (snd r1) = clock (snd r2)
  /\ List.map fst (posted (snd r1)) = List.map fst (posted (snd r2))
  /\ (replace_one_ok all_ok = true ->
      last (posted (snd r1)) = last (posted (snd r2))).
Proof.
  intros p q text r1 r2. split; [reflexivity|].
  exact (spellings_of_a_number_share_the_conversation ascii_only_db TEAM
           (fun t => t) all_ok p q text project_described eq_refl).
Defined.

(** ** What a classification rests on *)

Example pricing_words :
  group_words
    {| g_type := lit "pricing"; g_patterns := pricing_patterns;
       g_response := []; g_confidence := 0.9 |}
  = List.map lit
      [ "price"; "cost"; "budget"; "expensive"; "cheap"; "affordable";
        "how much"; "pricing"; "quote"; "estimate"; "fee"; "charge";
        "payment"; "money"; "dollar"; "rupee"; "costs";
        "rate"; "rates"; "tariff"; "tariffs" ]%string.
Proof. vm_compute. reflexivity. Qed.

Section Matching.

Variable U : unicode_db.

Lemma rmatch_sound (r : regex) :
  forall prev s res,
    In res (rmatch U r prev s) ->
    exists a pre,
      In a (alternatives r) /\ s = pre ++ snd res /\ Forall2 (matches_char U) a pre.
Proof.
  induction r as [p| |r1 IH1 r2 IH2|r1 IH1 r2 IH2|]; intros prev s res Hin;
    cbn [rmatch alternatives] in *.
  - destruct s as [|c s']; [destruct Hin|].
    destruct (ignorecase_eq U p c) eqn:Hpc; [|destruct Hin].
    destruct Hin as [<-|[]]. exists [p], [c]. cbn [snd].
    split; [left; reflexivity|]. split; [reflexivity|].
    constructor; [exact Hpc|constructor].
  - destruct Hin as [<-|[]]. exists [], []. cbn [snd].
    split; [left; reflexivity|]. split; [reflexivity|constructor].
  - apply in_flat_map in Hin as (mid & Hmid & Hres).
    destruct (IH1 _ _ _ Hmid) as (a1 & pre1 & Ha1 & Hs1 & Hf1).
    destruct (IH2 _ _ _ Hres) as (a2 & pre2 & Ha2 & Hs2 & Hf2).
    exists (a1 ++ a2), (pre1 ++ pre2). split.
    + apply in_flat_map. exists a1. split; [exact Ha1|].
      apply in_map_iff. exists a2. split; [reflexivity|exact Ha2].
    + split; [rewrite Hs1, Hs2, app_assoc; reflexivity|].
      apply Forall2_app; assumption.
  - apply in_app_or in Hin as [Hin|Hin].
    + destruct (IH1 _ _ _ Hin) as (a & pre & Ha & Hs & Hf).
      exists a, pre. split; [apply in_or_app; left; exact Ha|]. tauto.
    + destruct (IH2 _ _ _ Hin) as (a & pre & Ha & Hs & Hf).
      exists a, pre. split; [apply in_or_app; right; exact Ha|]. tauto.
  - destruct (at_boundary U prev s); [|destruct Hin].
    destruct Hin as [<-|[]]. exists [], []. cbn [snd].
    split; [left; reflexivity|]. split; [reflexivity|constructor].
Qed.

Lemma search_from_sound (r : regex) :
  forall s prev,
    search_from U r prev s = true ->
    exists a before pre rest,
      In a (alternatives r) /\ s = before ++ pre ++ rest
      /\ Forall2 (matches_char U) a pre.
Proof.
  induction s as [|c s IH]; intros prev Hs; cbn [search_from] in Hs.
  - destruct (rmatch U r prev []) as [|res l] eqn:Hm; [discriminate Hs|].
    destruct (rmatch_sound r prev [] res) as (a & pre & Ha & Hpre & Hf);
      [rewrite Hm; left; reflexivity|].
    exists a, [], pre, (snd res). tauto.
  - destruct (rmatch U r prev (c :: s)) as [|res l] eqn:Hm.
    + destruct (IH _ Hs) as (a & before & pre & rest & Ha & -> & Hf).
      exists a, (c :: before), pre, rest. tauto.
    + destruct (rmatch_sound r prev (c :: s) res) as (a & pre & Ha & Hpre & Hf);
        [rewrite Hm; left; reflexivity|].
      exists a, [], pre, (snd res). tauto.
Qed.

Lemma matches_patterns_sound (patterns : list regex) (s : str) :
  matches_patterns U s patterns = true ->
  exists a before pre rest,
    In a (flat_map alternatives patterns) /\ s = before ++ pre ++ rest
    /\ Forall2 (matches_char U) a pre.
Proof.
  unfold matches_patterns. intros H.
  apply existsb_exists in H as (r & Hr & Hs).
  destruct (search_from_sound r s None Hs)
    as (a & before & pre & rest & Ha & Heq & Hf).
  exists a, before, pre, rest. split; [|tauto].
  apply in_flat_map. exists r. tauto.
Qed.

(** On lower-case ASCII text a lower-case pattern matches only itself. *)
Lemma matches_lowercase (a pre : str) :
  Forall2 (matches_char U) a pre ->
  forallb lowercase_ascii a = true ->
  forallb lowercase_ascii pre = true ->
  a = pre.
Proof.
  induction 1 as [|p c a pre Hpc _ IH]; [reflexivity|].
  cbn [forallb]. intros Ha Hp.
  apply andb_prop in Ha as [Hp1 Ha']. apply andb_prop in Hp as [Hc1 Hp'].
  rewrite (IH Ha' Hp'). f_equal.
  unfold lowercase_ascii in Hp1, Hc1.
  apply andb_prop in Hp1 as [Hpa Hpl]. apply andb_prop in Hc1 as [Hca Hcl].
  unfold matches_char, ignorecase_eq in Hpc. rewrite Hpa, Hca in Hpc.
  cbn [andb] in Hpc. apply N.eqb_eq in Hpc, Hpl, Hcl. congruence.
Qed.

Lemma lstrip_suffix (s : str) : exists before, s = before ++ lstrip U s.
Proof.
  induction s as [|c s [before IH]]; [exists []; reflexivity|].
  cbn [lstrip]. destruct (isspace U c).
  - exists (c :: before). cbn [app]. rewrite <- IH. reflexivity.
  - exists []. reflexivity.
Qed.

Lemma strip_infix (s : str) : exists before rest, s = before ++ strip U s ++ rest.
Proof.
  unfold strip.
  destruct (lstrip_suffix s) as [p1 H1].
  destruct (lstrip_suffix (rev (lstrip U s))) as [p2 H2].
  exists p1, (rev p2). rewrite H1 at 1. f_equal.
  rewrite <- rev_app_distr, <- H2, rev_involutive. reflexivity.
Qed.

Lemma ascii_lower_lowercase (c : char) :
  is_ascii c = true -> lowercase_ascii (ascii_lower c) = true.
Proof.
  unfold lowercase_ascii, ascii_lower, ascii_upper_letter, between, is_ascii.
  intros Hc. apply N.ltb_lt in Hc.
  destruct ((65 <=? c)%N && (c <=? 90)%N) eqn:Hup.
  - apply andb_prop in Hup as [H1 H2].
    apply N.leb_le in H1, H2.
    assert (Hno : ((65 <=? c + 32)%N && (c + 32 <=? 90)%N) = false)
      by (apply andb_false_iff; right; apply N.leb_gt; lia).
    rewrite Hno, N.eqb_refl, andb_true_r. apply N.ltb_lt. lia.
  - rewrite Hup, N.eqb_refl, andb_true_r. apply N.ltb_lt. exact Hc.
Qed.

Lemma lower_ascii_text (text : str) :
  forallb is_ascii text = true ->
  forallb lowercase_ascii (lower U text) = true.
Proof.
  intros Hascii. unfold lower. rewrite Hascii.
  induction text as [|c text IH]; [reflexivity|].
  cbn [forallb] in Hascii. apply andb_prop in Hascii as [Hc Ht].
  cbn [List.map forallb]. rewrite (ascii_lower_lowercase c Hc), (IH Ht).
  reflexivity.
Qed.

Lemma forallb_app_inv (P : char -> bool) (a b : str) :
  forallb P (a ++ b) = true -> forallb P a = true /\ forallb P b = true.
Proof. rewrite forallb_app. apply andb_prop. Qed.

(** A pattern group that matches the trimmed lower-case form of an ASCII
    text has one of its words in the lower-case text. *)
Lemma group_match_has_word (patterns : list regex) (text : str) :
  forallb is_ascii text = true ->
  forallb (forallb lowercase_ascii) (flat_map alternatives patterns) = true ->
  matches_patterns U (strip U (lower U text)) patterns = true ->
  exists word,
    In word (flat_map alternatives patterns)
    /\ contains word (lower U text) = true.
Proof.
  intros Hascii Hpat Hm.
  destruct (matches_patterns_sound patterns _ Hm)
    as (a & before & pre & rest & Ha & Heq & Hf).
  destruct (strip_infix (lower U text)) as (s1 & s2 & Hstrip).
  pose proof (lower_ascii_text text Hascii) as Hlow.
  rewrite Hstrip, Heq in Hlow.
  apply forallb_app_inv in Hlow as [_ Hlow].
  apply forallb_app_inv in Hlow as [Hlow _].
  apply forallb_app_inv in Hlow as [_ Hlow].
  apply forallb_app_inv in Hlow as [Hpre _].
  assert (Hword : forallb lowercase_ascii a = true).
  { rewrite forallb_forall in Hpat. apply Hpat, Ha. }
  rewrite (matches_lowercase a pre Hf Hword Hpre) in Ha.
  exists pre. split; [exact Ha|].
  rewrite Hstrip, Heq.
  replace (s1 ++ (before ++ pre ++ rest) ++ s2)
    with ((s1 ++ before) ++ pre ++ (rest ++ s2))
    by (rewrite <- !app_assoc; reflexivity).
  apply contains_app.
Qed.

End Matching.

Lemma group_words_lowercase (g : pattern_group) :
  In g ordered_groups ->
  forallb (forallb lowercase_ascii) (group_words g) = true.
Proof.
  intros [<-|[<-|[<-|[<-|[]]]]]; vm_compute; reflexivity.
Qed.

Lemma classified_group_matches U (text : str) (g : pattern_group) :
  In g ordered_groups ->
  c_type (classify_message U text) = g_type g ->
  matches_patterns U (strip U (lower U text)) (g_patterns g) = true.
Proof.
  intros Hg. unfold classify_message.
  destruct (matches_patterns U _ pricing_patterns) eqn:H1;
    [| destruct (matches_patterns U _ support_patterns) eqn:H2;
       [| destruct (matches_patterns U _ general_patterns) eqn:H3;
          [| destruct (matches_patterns U _ greeting_inline_patterns) eqn:H4]]];
    destruct Hg as [<-|[<-|[<-|[<-|[]]]]];
    cbn [c_type g_type g_patterns]; intros Hty;
    first [assumption | vm_compute in Hty; discriminate Hty].
Qed.

(** X17.  On ASCII text a classification rests on a word that is there:
    when [classify_message] returns the type of a pattern group (pricing,
    support, general or greeting), one of that group's words occurs in the
    lower-cased message. *)
Theorem classification_rests_on_a_word
    (U : unicode_db) (text : str) (g : pattern_group) :
  forallb is_ascii text = true ->
  In g ordered_groups ->
  c_type (classify_message U text) = g_type g ->
  exists word,
    In word (group_words g) /\ contains word (lower U text) = true.
Proof.
  intros Hascii Hg Hty.
  apply (group_match_has_word U (g_patterns g) text Hascii).
  - apply group_words_lowercase, Hg.
  - apply classified_group_matches; assumption.
Qed.

Lemma classification_rests_on_a_word_witness :
  let text := lit "How much does it COST?" in
  let g := {| g_type := lit "pricing"; g_patterns := pricing_patterns;
              g_response := lit "Our pricing starts from $99. Would you like the full details?";
              g_confidence := 0.9 |} in
  forallb is_ascii text = true
  /\ In g ordered_groups
  /\ c_type (classify_message ascii_only_db text) = g_type g
  /\ exists word,
       In word (group_words g)
       /\ contains word (lower ascii_only_db text) = true.
Proof.
  intros text g.
  assert (Hg : In g ordered_groups) by (left; reflexivity).
  assert (Hty : c_type (classify_message ascii_only_db text) = g_type g)
    by (vm_compute; reflexivity).
  split; [reflexivity|]. split; [exact Hg|]. split; [exact Hty|].
  exact (classification_rests_on_a_word ascii_only_db text g eq_refl Hg Hty).
Defined.

Lemma startswith_inv (a s : str) :
  startswith a s = true -> exists rest, s = a ++ rest.
Proof.
  revert s. induction a as [|x a IH]; intros s H; [exists s; reflexivity|].
  destruct s as [|y s]; [discriminate H|]. cbn [startswith] in H.
  apply andb_prop in H as [Hxy Hrest]. apply N.eqb_eq in Hxy as ->.
  destruct (IH s Hrest) as [rest ->]. exists rest. reflexivity.
Qed.

Lemma contains_inv (a s : str) :
  contains a s = true -> exists before rest, s = before ++ a ++ rest.
Proof.
  induction s as [|c s IH]; cbn [contains]; intros H.
  - rewrite orb_false_r in H. apply startswith_inv in H as [rest ->].
    exists [], rest. reflexivity.
  - apply orb_prop in H as [H|H].
    + apply startswith_inv in H as [rest ->]. exists [], rest. reflexivity.
    + destruct (IH H) as (before & rest & ->).
      exists (c :: before), rest. reflexivity.
Qed.

Lemma contains_prefix (a b s : str) :
  contains (a ++ b) s = true -> contains a s = true.
Proof.
  intros H. apply contains_inv in H as (before & rest & ->).
  rewrite <- app_assoc. apply contains_app.
Qed.

Ltac keyword_case Hc :=
  first
    [ left; unfold check_for_pricing_keywords, any_keyword_in;
      apply existsb_exists;
      match type of Hc with
      | contains ?wd _ = true => exists wd
      end;
      split; [solve [vm_compute; repeat (first [left; reflexivity | right])]
             | exact Hc]
    | right; left; exact Hc
    | right; left; apply (contains_prefix (lit "rate") [115%N]); exact Hc
    | right; right; exact Hc
    | right; right; apply (contains_prefix (lit "tariff") [115%N]); exact Hc ].

(** X18.  On ASCII text the keyword test is at least as permissive as the
    classifier: a message classified as pricing passes
    [check_for_pricing_keywords], unless the word it rests on is one of
    the rate and tariff words, which the keyword list does not have. *)
Theorem pricing_classification_has_a_pricing_keyword
    (U : unicode_db) (text : str) :
  forallb is_ascii text = true ->
  c_type (classify_message U text) = lit "pricing" ->
  check_for_pricing_keywords U text = true
  \/ contains (lit "rate") (lower U text) = true
  \/ contains (lit "tariff") (lower U text) = true.
Proof.
  intros Hascii Hty.
  destruct (group_match_has_word U pricing_patterns text Hascii)
    as (word & Hin & Hc).
  - vm_compute. reflexivity.
  - apply (classified_group_matches U text
             {| g_type := lit "pricing"; g_patterns := pricing_patterns;
                g_response := lit "Our pricing starts from $99. Would you like the full details?";
                g_confidence := 0.9 |});
      [left; reflexivity|exact Hty].
  - vm_compute in Hin.
    repeat (destruct Hin as [<-|Hin]; [keyword_case Hc|]).
    destruct Hin.
Qed.

Lemma pricing_classification_has_a_pricing_keyword_witness :
  let text := lit "What is your fee?" in
  forallb is_ascii text = true
  /\ c_type (classify_message ascii_only_db text) = lit "pricing"
  /\ (check_for_pricing_keywords ascii_only_db text = true
      \/ contains (lit "rate") (lower ascii_only_db text) = true
      \/ contains (lit "tariff") (lower ascii_only_db text) = true).
Proof.
  intros text.
  assert (Hty : c_type (classify_message ascii_only_db text) = lit "pricing")
    by (vm_compute; reflexivity).
  split; [reflexivity|]. split; [exact Hty|].
  exact (pricing_classification_has_a_pricing_keyword ascii_only_db text
           eq_refl Hty).
Defined.

(** The converse fails: the keyword test has no word boundaries. *)
Example keyword_without_classification :
  check_for_pricing_keywords ascii_only_db (lit "Nice prices") = true
  /\ c_type (classify_message ascii_only_db (lit "Nice prices")) = lit "other"
  /\ check_for_pricing_keywords ascii_only_db (lit "our rates") = false
  /\ c_type (classify_message ascii_only_db (lit "our rates")) = lit "pricing".
Proof. repeat split; vm_compute; reflexivity. Qed.

(** ** More on the normaliser *)

Lemma from_digits_shape U (d : str) :
  forallb (isdigit U) d = true ->
  exists x, from_digits d = 43%N :: x /\ forallb (isdigit U) x = true.
Proof.
  intros Hd. unfold from_digits.
  destruct (startswith [57; 50]%N d && (12 <=? len d)); [eauto|].
  destruct (startswith [48]%N d && (len d =? 11)) eqn:H2.
  - apply andb_prop in H2 as [Hz _].
    destruct d as [|z d']; [discriminate Hz|].
    cbn [forallb] in Hd. apply andb_prop in Hd as [_ Hd'].
    change (drop 1 (z :: d')) with d'.
    eexists. split; [reflexivity|]. cbn [forallb]. rewrite Hd'. reflexivity.
  - destruct (len d =? 10); [|eauto].
    eexists. split; [reflexivity|]. cbn [forallb]. rewrite Hd. reflexivity.
Qed.

(** X19.  Whatever non-empty text it is given, [normalize_to_e164]
    returns a [+] followed by digits only; nothing is rejected, and a
    text without any digit becomes the bare [+]. *)
Theorem normalize_to_e164_is_plus_and_digits (U : unicode_db) (s : str) :
  s <> [] ->
  exists d,
    normalize_to_e164 U s = lit "+" ++ d
    /\ forallb (isdigit U) d = true
    /\ (digits_of U s = [] -> d = []).
Proof.
  intros Hs. rewrite normalize_unfold.
  destruct s as [|c s]; [congruence|]. cbn [falsy].
  destruct (from_digits_shape U (digits_of U (c :: s))
              (digits_of_all_digits U (c :: s))) as (x & Hx & Hdig).
  exists x. split; [exact Hx|]. split; [exact Hdig|].
  intros Hnone. rewrite Hnone in Hx. vm_compute in Hx.
  injection Hx as <-. reflexivity.
Qed.

Lemma normalize_to_e164_is_plus_and_digits_witness :
  lit "n/a" <> []
  /\ exists d,
       normalize_to_e164 ascii_only_db (lit "n/a") = lit "+" ++ d
       /\ forallb (isdigit ascii_only_db) d = true
       /\ (digits_of ascii_only_db (lit "n/a") = [] -> d = []).
Proof.
  assert (H : lit "n/a" <> []) by (vm_compute; discriminate).
  split; [exact H|].
  exact (normalize_to_e164_is_plus_and_digits ascii_only_db (lit "n/a") H).
Defined.

(** * Calls that overlap *)

(** ** Coroutines run alone *)

Lemma bind_ext {A B} (m m' : M A) (k k' : A -> M B) (w : world) :
  (forall w, m w = m' w) -> (forall a w, k a w = k' a w) ->
  bind m k w = bind m' k' w.
Proof.
  intros Hm Hk. unfold bind. rewrite Hm.
  destruct (m' w) as [[a|] w']; [apply Hk|reflexivity].
Qed.

Lemma try_except_ext {A} (m m' h h' : M A) (w : world) :
  (forall w, m w = m' w) -> (forall w, h w = h' w) ->
  try_except m h w = try_except m' h' w.
Proof.
  intros Hm Hh. unfold try_except. rewrite Hm.
  destruct (m' w) as [[a|] w']; [reflexivity|apply Hh].
Qed.

Lemma alone_now {A} (m : M A) (w : world) : alone (now m) w = m w.
Proof. unfold alone, now. destruct (m w) as [r w']. reflexivity. Qed.

Lemma alone_await {A} (m : M A) (w : world) : alone (await m) w = m w.
Proof.
  unfold alone, await, suspend. cbn [finish fst snd].
  destruct (m w) as [r w']. reflexivity.
Qed.

Lemma finish_after {A B} (p : paused A) (k : A -> C B) (w : world) :
  finish (fst (after p k w)) (snd (after p k w))
  = match finish p w with
    | (Ok a, w') => alone (k a) w'
    | (Raised, w') => (Raised, w')
    end.
Proof.
  revert w. induction p as [[a|]|next IH effect]; intros w.
  - cbn [after finish]. unfold alone. destruct (k a w). reflexivity.
  - reflexivity.
  - cbn [after finish suspend fst snd]. apply IH.
Qed.

Lemma alone_bind {A B} (c : C A) (k : A -> C B) (w : world) :
  alone (co_bind c k) w = bind (alone c) (fun a => alone (k a)) w.
Proof.
  unfold alone at 1, co_bind, bind. unfold alone at 1.
  destruct (c w) as [p w'].
  destruct (after p k w') as [q w''] eqn:Hq.
  change q with (fst (q, w'')). change w'' with (snd (q, w'')) at 2.
  rewrite <- Hq. apply finish_after.
Qed.

Lemma finish_rescue {A} (p : paused A) (h : C A) (w : world) :
  finish (fst (rescue p h w)) (snd (rescue p h w))
  = match finish p w with
    | (Ok a, w') => (Ok a, w')
    | (Raised, w') => alone h w'
    end.
Proof.
  revert w. induction p as [[a|]|next IH effect]; intros w.
  - reflexivity.
  - cbn [rescue finish]. unfold alone. destruct (h w). reflexivity.
  - cbn [rescue finish suspend fst snd]. apply IH.
Qed.

Lemma alone_try {A} (c h : C A) (w : world) :
  alone (co_try c h) w = try_except (alone c) (alone h) w.
Proof.
  unfold alone at 1, co_try, try_except. unfold alone at 1.
  destruct (c w) as [p w'].
  destruct (rescue p h w') as [q w''] eqn:Hq.
  change q with (fst (q, w'')). change w'' with (snd (q, w'')) at 2.
  rewrite <- Hq. apply finish_rescue.
Qed.

Section Alone.

Variable U : unicode_db.
Variable team_number : str.
Variable bson_datetime : Z -> Z.
Variable E : env.

Lemma alone_get_or_create_conversation (phone : str) (w : world) :
  alone (Async.get_or_create_conversation U bson_datetime E phone) w
  = get_or_create_conversation U bson_datetime E phone w.
Proof.
  rewrite fetch_run. unfold Async.get_or_create_conversation.
  cbv zeta. rewrite alone_bind. unfold bind at 1. rewrite alone_await.
  unfold bind at 1, guard.
  destruct (find_one_ok E); [|reflexivity].
  cbn [ret find_one].
  destruct (collection w !! normalize_to_e164 U phone) as [doc|] eqn:Hdoc.
  - destruct (d_phone_number doc) as [p|]; rewrite alone_now; reflexivity.
  - rewrite alone_bind. unfold bind at 1. rewrite alone_now.
    cbn [bind utcnow ret clock collection posted].
    rewrite alone_bind. unfold bind at 1.
    rewrite alone_await.
    unfold bind, guard, insert_document.
    destruct (insert_one_ok E); cbn [ret raise collection];
      [rewrite Hdoc; cbn [put_document]; rewrite alone_now|]; reflexivity.
Qed.

Lemma alone_save_conversation (conv : WhatsAppConversation) (w : world) :
  alone (Async.save_conversation bson_datetime E conv) w
  = save_conversation bson_datetime E conv w.
Proof.
  rewrite save_run. unfold Async.save_conversation.
  rewrite alone_bind. unfold bind at 1. rewrite alone_now.
  cbn [utcnow]. rewrite alone_bind. unfold bind at 1. rewrite alone_await.
  unfold guard.
  destruct (replace_one_ok E); cbn [bind ret raise put_document utcnow];
    [rewrite alone_now|]; reflexivity.
Qed.

Lemma alone_respond (phone text : str) (conv : WhatsAppConversation)
    (w : world) :
  alone (Async.respond U team_number E phone text conv) w
  = respond U team_number E phone text conv w.
Proof.
  unfold Async.respond, respond. cbv zeta.
  repeat match goal with
         | |- context [if ?b then _ else _] =>
             destruct b; [apply alone_now|]
         end.
  rewrite alone_bind. unfold bind, Async.get_llama_response.
  destruct (negb (groq_api_key E)); [rewrite alone_now|rewrite alone_await];
    cbn [ret]; apply alone_now.
Qed.

Lemma alone_handle_incoming_message (phone text : str) (w : world) :
  alone (Async.handle_incoming_message U team_number bson_datetime E phone text) w
  = handle_incoming_message U team_number bson_datetime E phone text w.
Proof.
  unfold Async.handle_incoming_message, handle_incoming_message.
  rewrite alone_try. apply try_except_ext; [|apply alone_now].
  clear w. intros w. rewrite alone_bind.
  apply bind_ext; [apply alone_get_or_create_conversation|].
  clear w. intros conv w. rewrite alone_bind.
  apply bind_ext; [apply alone_now|].
  clear w. intros t w. cbv zeta. rewrite alone_bind.
  apply bind_ext; [apply alone_respond|].
  clear w. intros reply w. rewrite alone_bind.
  apply bind_ext; [apply alone_now|].
  clear w. intros t' w. rewrite alone_bind.
  apply bind_ext; [apply alone_save_conversation|].
  clear w. intros _ w. rewrite alone_bind.
  apply bind_ext; [apply alone_now|].
  clear w. intros success w. apply alone_now.
Qed.

End Alone.

(** ** What a call does to the store *)

Section UnfoldingRules.

Variable rely guar : gmap str document -> gmap str document -> Prop.

Lemma runs_ext {A} (Q : post_of A) (c c' : C A) ms m :
  (forall w, c w = c' w) -> runs rely guar Q c' ms m -> runs rely guar Q c ms m.
Proof. intros Hc H w Hw. rewrite Hc. apply H, Hw. Qed.

Lemma runs_now {A} (Q : post_of A) (mm : M A) ms m :
  (forall w, collection w = m -> Q (fst (mm w)) ms (collection (snd (mm w)))) ->
  runs rely guar Q (now mm) ms m.
Proof.
  intros H w Hw. unfold now. specialize (H w Hw).
  destruct (mm w) as [r w']. exact H.
Qed.

Lemma runs_await {A} (Q : post_of A) (mm : M A) ms m :
  guar ms m ->
  (forall w, rely m (collection w) ->
     guar (collection w) (collection (snd (mm w)))
     /\ forall w', rely (collection (snd (mm w))) (collection w') ->
          Q (fst (mm w)) (collection w') (collection w')) ->
  runs rely guar Q (await mm) ms m.
Proof.
  intros Hs H w Hw. unfold await, suspend. cbn [fst snd unfolds].
  rewrite Hw. split; [exact Hs|]. intros w1 Hw1.
  specialize (H w1 Hw1). destruct (mm w1) as [r w2]. cbn [fst snd unfolds] in *.
  destruct H as [Hstep HQ]. split; [exact Hstep|].
  intros w3 Hw3. apply HQ, Hw3.
Qed.

Lemma unfolds_after {A B} (Q1 : post_of A) (Q : post_of B) (p : paused A)
    (k : A -> C B) ms (w : world) :
  unfolds rely guar Q1 p ms (collection w) ->
  (forall a ms' m', Q1 (Ok a) ms' m' -> runs rely guar Q (k a) ms' m') ->
  (forall ms' m', Q1 Raised ms' m' -> Q Raised ms' m') ->
  unfolds rely guar Q (fst (after p k w)) ms (collection (snd (after p k w))).
Proof.
  intros Hp Hk Hr. revert ms w Hp.
  induction p as [[a|]|next IH effect]; intros ms w Hp; cbn [after unfolds] in *.
  - exact (Hk a ms (collection w) Hp w eq_refl).
  - apply Hr, Hp.
  - destruct Hp as [Hs Hn]. unfold suspend. cbn [fst snd unfolds].
    split; [exact Hs|]. intros w1 Hw1. apply IH. apply Hn, Hw1.
Qed.

Lemma runs_bind {A B} (Q1 : post_of A) (Q : post_of B) (c : C A)
    (k : A -> C B) ms m :
  runs rely guar Q1 c ms m ->
  (forall a ms' m', Q1 (Ok a) ms' m' -> runs rely guar Q (k a) ms' m') ->
  (forall ms' m', Q1 Raised ms' m' -> Q Raised ms' m') ->
  runs rely guar Q (co_bind c k) ms m.
Proof.
  intros Hc Hk Hr w Hw. unfold co_bind. specialize (Hc w Hw).
  destruct (c w) as [p w']. cbn [fst snd] in Hc.
  eapply unfolds_after; eassumption.
Qed.

Lemma unfolds_rescue {A} (Q1 Q : post_of A) (p : paused A) (h : C A) ms
    (w : world) :
  unfolds rely guar Q1 p ms (collection w) ->
  (forall a ms' m', Q1 (Ok a) ms' m' -> Q (Ok a) ms' m') ->
  (forall ms' m', Q1 Raised ms' m' -> runs rely guar Q h ms' m') ->
  unfolds rely guar Q (fst (rescue p h w)) ms (collection (snd (rescue p h w))).
Proof.
  intros Hp Hk Hr. revert ms w Hp.
  induction p as [[a|]|next IH effect]; intros ms w Hp; cbn [rescue unfolds] in *.
  - apply Hk, Hp.
  - exact (Hr ms (collection w) Hp w eq_refl).
  - destruct Hp as [Hs Hn]. unfold suspend. cbn [fst snd unfolds].
    split; [exact Hs|]. intros w1 Hw1. apply IH. apply Hn, Hw1.
Qed.

Lemma runs_try {A} (Q1 Q : post_of A) (c h : C A) ms m :
  runs rely guar Q1 c ms m ->
  (forall a ms' m', Q1 (Ok a) ms' m' -> Q (Ok a) ms' m') ->
  (forall ms' m', Q1 Raised ms' m' -> runs rely guar Q h ms' m') ->
  runs rely guar Q (co_try c h) ms m.
Proof.
  intros Hc Hk Hr w Hw. unfold co_try. specialize (Hc w Hw).
  destruct (c w) as [p w']. cbn [fst snd] in Hc.
  eapply unfolds_rescue; eassumption.
Qed.

Lemma unfolds_guar {A} (p : paused A) ms m :
  unfolds rely guar (fun _ ms m => guar ms m) p ms m -> guar ms m.
Proof.
  destruct p as [r|next effect]; cbn [unfolds]; [auto|intros [H _]; exact H].
Qed.

End UnfoldingRules.

Section CallsOnARecordFacts.

Variable bson_datetime : Z -> Z.
Variable key : str.
Variable good : document -> Prop.
Variable undisturbed : Prop.
Hypothesis good_kept : kept_by_the_engine bson_datetime good.

Local Abbreviation rely := (found_on_resumption key good undisturbed).
Local Abbreviation guar :=
  (done_between_suspensions bson_datetime key good undisturbed).
Local Abbreviation holds := (holds_copy key good undisturbed).

Lemma done_nothing m : guar m m.
Proof. left. reflexivity. Qed.

Lemma holds_copy_rely doc m m1 : holds doc m -> rely m m1 -> holds doc m1.
Proof.
  intros (_ & Hg & Hsome & Hsame) (Hev & Hstay & Hund).
  split; [exact Hev|]. split; [exact Hg|]. split; [auto|].
  intros Hu. rewrite (Hund Hu). auto.
Qed.

Lemma done_every m m' : every good m -> guar m m' -> every good m'.
Proof.
  destruct good_kept as [Hfresh _].
  intros Hm [->|[(_ & t & ->)|(conv & -> & Hph & Hg & _)]]; [exact Hm| |];
    intros k d Hk;
    (destruct (decide (key = k)) as [<-|Hne];
     [ rewrite lookup_insert_eq in Hk; injection Hk as <-
     | rewrite lookup_insert_ne in Hk by exact Hne; exact (Hm k d Hk) ]).
  - split; [reflexivity|apply Hfresh].
  - split; [cbn [to_document d_phone_number]; rewrite Hph; reflexivity|exact Hg].
Qed.

Lemma done_stays m m' k : guar m m' -> is_Some (m !! k) -> is_Some (m' !! k).
Proof.
  intros [->|[(_ & t & ->)|(conv & -> & _)]] Hk; [exact Hk| |];
    (destruct (decide (key = k)) as [<-|Hne];
     [ rewrite lookup_insert_eq; eauto
     | rewrite lookup_insert_ne by exact Hne; exact Hk ]).
Qed.

Lemma done_elsewhere m m' k : guar m m' -> k <> key -> m' !! k = m !! k.
Proof.
  intros [->|[(_ & t & ->)|(conv & -> & _)]] Hk; [reflexivity| |];
    rewrite lookup_insert_ne by congruence; reflexivity.
Qed.

Lemma done_new_are_pending m m' : guar m m' -> new_are_pending m m'.
Proof.
  intros [->|[(_ & t & ->)|(conv & -> & _ & _ & Hsome & _)]] k d' Hk Hk';
    [congruence| |];
    (destruct (decide (key = k)) as [<-|Hne];
     [|rewrite lookup_insert_ne in Hk' by exact Hne; congruence]).
  - rewrite lookup_insert_eq in Hk'. injection Hk' as <-. reflexivity.
  - rewrite Hk in Hsome. destruct Hsome as [x Hx]. discriminate Hx.
Qed.

End CallsOnARecordFacts.

Section UndisturbedCalls.

Variable bson_datetime : Z -> Z.
Variable key : str.
Variable good : document -> Prop.

Local Abbreviation guar :=
  (done_between_suspensions bson_datetime key good True).

Lemma done_keeps_finalized m m' : guar m m' -> keeps_finalized m m'.
Proof.
  intros [->|[(Hnone & t & ->)|(conv & -> & _ & _ & _ & Hdoc)]] k d Hk;
    [eauto| |].
  - destruct (decide (key = k)) as [<-|Hne]; [congruence|].
    rewrite lookup_insert_ne by exact Hne. eauto.
  - destruct (decide (key = k)) as [<-|Hne].
    + rewrite lookup_insert_eq. eexists. split; [reflexivity|].
      intros Hfin. destruct (Hdoc I) as (doc & Hd & _ & _ & _ & _ & _ & _ & Hst).
      rewrite Hk in Hd. injection Hd as <-. rewrite Hfin in Hst.
      cbn [to_document d_status].
      destruct Hst as [-> | ->]; reflexivity.
    + rewrite lookup_insert_ne by exact Hne. eauto.
Qed.

Lemma done_extends m m' : guar m m' -> extends m m'.
Proof.
  intros [->|[(Hnone & t & ->)|(conv & -> & _ & _ & _ & Hdoc)]].
  - apply extends_refl.
  - intros k d Hk. destruct (decide (key = k)) as [<-|Hne]; [congruence|].
    exists d, []. rewrite lookup_insert_ne by exact Hne. rewrite app_nil_r.
    split; [exact Hk|]. split; [reflexivity|lia].
  - intros k d Hk. destruct (decide (key = k)) as [<-|Hne].
    + destruct (Hdoc I) as (doc & Hd & inb & reply & t & t' & Hc & Hu & _).
      rewrite Hk in Hd. injection Hd as <-.
      eexists. eexists. rewrite lookup_insert_eq. split; [reflexivity|].
      rewrite turns_of_saved, used_of_saved, said_of_stored, Hc, Hu.
      rewrite List.map_app. split; [reflexivity|lia].
    + exists d, []. rewrite lookup_insert_ne by exact Hne. rewrite app_nil_r.
      split; [exact Hk|]. split; [reflexivity|lia].
Qed.

End UndisturbedCalls.

Section CallsUnfold.

Variable U : unicode_db.
Variable team_number : str.
Variable bson_datetime : Z -> Z.
Variable E : env.
Variable good : document -> Prop.
Variable undisturbed : Prop.
Hypothesis good_kept : kept_by_the_engine bson_datetime good.

Section OnePhone.

Variable phone : str.

Local Abbreviation key := (normalize_to_e164 U phone).
Local Abbreviation rely := (found_on_resumption key good undisturbed).
Local Abbreviation guar :=
  (done_between_suspensions bson_datetime key good undisturbed).
Local Abbreviation holds := (holds_copy key good undisturbed).

Lemma get_or_create_conversation_runs m :
  every good m ->
  runs rely guar (fetched bson_datetime key good undisturbed)
    (Async.get_or_create_conversation U bson_datetime E phone) m m.
Proof.
  intros Hev. unfold Async.get_or_create_conversation. cbv zeta.
  apply runs_bind with
    (Q1 := fun r ms m1 =>
             ms = m1 /\ every good m1
             /\ match r with
                | Raised => True
                | Ok None => undisturbed -> m1 !! key = None
                | Ok (Some doc) => d_phone_number doc = Some key /\ holds doc m1
                end).
  - apply runs_await; [apply done_nothing|].
    intros w (Hw & _ & _). unfold bind, guard, find_one.
    destruct (find_one_ok E); cbn [ret raise fst snd];
      (split; [apply done_nothing|]).
    + intros w' (Hw' & Hstay & Hsame). split; [reflexivity|].
      split; [exact Hw'|].
      destruct (collection w !! key) as [doc|] eqn:Hdoc.
      * destruct (Hw key doc Hdoc) as [Hp Hg]. split; [exact Hp|].
        split; [exact Hw'|]. split; [exact Hg|]. split; [apply Hstay; eauto|].
        exact Hsame.
      * exact Hsame.
    + intros w' (Hw' & _). auto.
  - intros o ms' m' (-> & Hev' & H). destruct o as [doc|].
    + destruct H as [Hp Hholds]. rewrite Hp.
      apply runs_now. intros w Hw. cbn [bind utcnow ret fst snd collection].
      rewrite Hw. cbn [fetched]. split; [reflexivity|].
      exists doc. split; [exact Hholds|]. repeat split; reflexivity.
    + apply runs_bind with
        (Q1 := fun r ms m1 =>
                 ms = m' /\ m1 = m'
                 /\ exists t, r = Ok (fresh_conversation key t)).
      * apply runs_now. intros w Hw. cbn [bind utcnow ret fst snd collection].
        rewrite Hw. split; [reflexivity|]. split; [reflexivity|].
        exists (clock w). reflexivity.
      * intros conv ms'' m'' (-> & -> & t & Hc). injection Hc as ->.
        apply runs_bind with
          (Q1 := fun r ms m1 =>
                   match r with
                   | Raised => guar ms m1
                   | Ok _ =>
                       ms = m1
                       /\ holds (to_document bson_datetime
                                   (fresh_conversation key t)) m1
                   end).
        -- apply runs_await; [apply done_nothing|].
           intros w (Hw & _ & Hsame). unfold bind, guard, insert_document.
           destruct (insert_one_ok E); cbn [ret raise fst snd collection].
           2:{ split; [apply done_nothing|]. intros w' _. apply done_nothing. }
           destruct (collection w !! key) as [d|] eqn:Hd;
             cbn [put_document fst snd collection].
           { split; [apply done_nothing|]. intros w' _. apply done_nothing. }
           split.
           ++ right. left. split; [exact Hd|]. exists t. reflexivity.
           ++ intros w' (Hw' & Hstay & Hsame'). split; [reflexivity|].
              split; [exact Hw'|]. split; [apply good_kept|].
              split; [apply Hstay; rewrite lookup_insert_eq; eauto|].
              intros Hu. rewrite (Hsame' Hu). apply lookup_insert_eq.
        -- intros _ ms'' m'' [-> Hholds]. apply runs_now. intros w Hw.
           cbn [ret fst snd fetched]. rewrite Hw.
           split; [reflexivity|]. eexists. split; [exact Hholds|].
           repeat split; reflexivity.
        -- intros ms'' m'' Hg. exact Hg.
      * intros ms'' m'' (_ & _ & t & Hc). discriminate Hc.
  - intros ms' m' (-> & _). apply done_nothing.
Qed.

Lemma save_conversation_runs (doc : document) (conv : WhatsAppConversation) m :
  holds doc m ->
  phone_number conv = key ->
  one_exchange_on doc conv ->
  runs rely guar
    (fun r ms m1 => match r with
                    | Ok _ => ms = m1
                    | Raised => guar ms m1
                    end)
    (Async.save_conversation bson_datetime E conv) m m.
Proof.
  intros Hholds Hph Hex. unfold Async.save_conversation.
  apply runs_bind with
    (Q1 := fun r ms m1 => ms = m /\ m1 = m /\ exists t, r = Ok t).
  - apply runs_now. intros w Hw. cbn [utcnow fst snd collection]. eauto.
  - intros t0 ms' m' (-> & -> & _).
    apply runs_bind with
      (Q1 := fun r ms m1 => match r with
                            | Ok _ => ms = m1
                            | Raised => guar ms m1
                            end).
    + apply runs_await; [apply done_nothing|].
      intros w Hw. pose proof (holds_copy_rely _ _ _ _ _ _ Hholds Hw)
        as (Hev & Hg & Hsome & Hsame).
      unfold bind, guard, put_document.
      destruct (replace_one_ok E); cbn [ret raise fst snd collection].
      2:{ split; [apply done_nothing|]. intros w' _. apply done_nothing. }
      split; [|reflexivity].
      cbn [with_updated_at phone_number]. rewrite Hph.
      right. right. eexists. split; [reflexivity|].
      cbn [with_updated_at phone_number]. split; [exact Hph|].
      assert (Hex' : one_exchange_on doc (with_updated_at conv t0)) by exact Hex.
      split; [exact (proj2 good_kept doc _ Hg Hex')|].
      split; [exact Hsome|]. intros Hu. exists doc. split; [auto|exact Hex'].
    + intros _ ms' m' ->. apply runs_now. intros w Hw. cbn [ret fst snd].
      rewrite Hw. reflexivity.
    + intros ms' m' Hg. exact Hg.
  - intros ms' m' (_ & _ & t0 & Hc). discriminate Hc.
Qed.

Lemma respond_cases (text : str) (conv : WhatsAppConversation) :
  (forall w, Async.respond U team_number E phone text conv w
             = now (respond U team_number E phone text conv) w)
  \/ (forall w, Async.respond U team_number E phone text conv w
                = await (respond U team_number E phone text conv) w).
Proof.
  unfold Async.respond, respond. cbv zeta.
  repeat match goal with
         | |- context [if ?b then _ else _] =>
             destruct b; [left; reflexivity|]
         end.
  unfold Async.get_llama_response.
  destruct (negb (groq_api_key E)); [left|right]; reflexivity.
Qed.

Lemma respond_runs (text : str) (doc : document)
    (conv : WhatsAppConversation) m :
  holds doc m ->
  runs rely guar
    (fun r ms m1 =>
       ms = m1 /\ holds doc m1
       /\ exists conv' reply,
            r = Ok (conv', reply)
            /\ phone_number conv' = phone_number conv
            /\ conversation conv' = conversation conv
            /\ messages_used conv' = messages_used conv
            /\ (status conv' = status conv \/ status conv' = lit "finalized"))
    (Async.respond U team_number E phone text conv) m m.
Proof.
  intros Hholds.
  assert (Hpost : forall w,
            collection (snd (respond U team_number E phone text conv w))
            = collection w
            /\ exists conv' reply,
                 fst (respond U team_number E phone text conv w)
                 = Ok (conv', reply)
                 /\ phone_number conv' = phone_number conv
                 /\ conversation conv' = conversation conv
                 /\ messages_used conv' = messages_used conv
                 /\ (status conv' = status conv
                     \/ status conv' = lit "finalized")).
  { intros w.
    destruct (respond_effects U team_number E phone text conv w)
      as (conv' & reply & alerts & -> & _ & H).
    cbn [fst snd collection]. split; [reflexivity|]. eauto. }
  destruct (respond_cases text conv) as [Hc|Hc];
    (eapply runs_ext; [exact Hc|]).
  - apply runs_now. intros w Hw. destruct (Hpost w) as [-> H].
    rewrite Hw. auto.
  - apply runs_await; [apply done_nothing|].
    intros w Hw. destruct (Hpost w) as [-> H].
    split; [apply done_nothing|]. intros w' Hw'.
    split; [reflexivity|]. split; [|exact H].
    eapply holds_copy_rely; [|exact Hw'].
    eapply holds_copy_rely; [exact Hholds|exact Hw].
Qed.

Lemma handle_incoming_message_runs (text : str) m :
  every good m ->
  runs rely guar (fun _ ms m1 => guar ms m1)
    (Async.handle_incoming_message U team_number bson_datetime E phone text)
    m m.
Proof.
  intros Hev. unfold Async.handle_incoming_message.
  apply runs_try with (Q1 := fun _ ms m1 => guar ms m1).
  2:{ intros a ms' m' H. exact H. }
  2:{ intros ms' m' H. apply runs_now. intros w Hw. cbn [ret fst snd].
      rewrite Hw. exact H. }
  eapply runs_bind; [apply get_or_create_conversation_runs, Hev| |].
  2:{ intros ms' m' H. exact H. }
  intros conv0 ms' m' (-> & doc & Hholds & Hph & Hconv & Hused & Hst).
  clear m Hev. rename m' into m.
  apply runs_bind with
    (Q1 := fun r ms m1 => ms = m /\ m1 = m /\ exists t, r = Ok t).
  { apply runs_now. intros w Hw. cbn [utcnow fst snd collection]. eauto. }
  2:{ intros ms' m' (_ & _ & t & H). discriminate H. }
  intros t ms' m' (-> & -> & _). cbv zeta.
  eapply runs_bind; [apply (respond_runs text doc), Hholds| |].
  2:{ intros ms' m' (_ & _ & c & r & H & _). discriminate H. }
  intros reply ms' m' (-> & Hholds' & conv' & text' & H & Hph' & Hconv' & Hused' & Hst').
  injection H as ->. cbn [fst snd]. clear m Hholds. rename m' into m.
  cbn [count_message append_message phone_number conversation messages_used
         status] in Hph', Hconv', Hused', Hst'.
  apply runs_bind with
    (Q1 := fun r ms m1 => ms = m /\ m1 = m /\ exists t, r = Ok t).
  { apply runs_now. intros w Hw. cbn [utcnow fst snd collection]. eauto. }
  2:{ intros ms' m' (_ & _ & t0 & H). discriminate H. }
  intros t' ms' m' (-> & -> & _).
  eapply runs_bind.
  { apply (save_conversation_runs doc _ m Hholds').
    - cbn [append_message phone_number]. congruence.
    - exists text, text', t, t'.
      cbn [append_message conversation messages_used status].
      split; [rewrite Hconv', Hconv, <- app_assoc; reflexivity|].
      split; [congruence|].
      destruct Hst' as [H|H]; [left|right]; congruence. }
  2:{ intros ms' m' H. exact H. }
  intros _ ms' m' ->.
  apply runs_bind with (Q1 := fun r ms m1 => ms = m1).
  { apply runs_now. intros w Hw. rewrite send_run. cbn [fst snd collection].
    symmetry. exact Hw. }
  2:{ intros ms' m'' ->. apply done_nothing. }
  intros b ms' m'' ->. apply runs_now. intros w Hw. cbn [ret fst snd].
  rewrite Hw. apply done_nothing.
Qed.

End OnePhone.

End CallsUnfold.

Lemma call_runs U team_number bson_datetime good undisturbed
    (op : operation) m :
  kept_by_the_engine bson_datetime good ->
  every good m ->
  let key := record_of U op in
  runs (found_on_resumption key good undisturbed)
    (done_between_suspensions bson_datetime key good undisturbed)
    (fun _ ms m1 =>
       done_between_suspensions bson_datetime key good undisturbed ms m1)
    (call U team_number bson_datetime op) m m.
Proof.
  intros good_kept Hev.
  destruct op as [E phone text|E phone]; cbn [call record_of caller].
  - eapply runs_bind.
    + apply handle_incoming_message_runs; [exact good_kept|exact Hev].
    + intros a ms' m' H. apply runs_now. intros w Hw. cbn [ret fst snd].
      rewrite Hw. exact H.
    + intros ms' m' H. exact H.
  - eapply runs_bind.
    + apply get_or_create_conversation_runs; [exact good_kept|exact Hev].
    + intros conv ms' m' (-> & _). apply runs_now. intros w Hw.
      cbn [ret fst snd]. rewrite Hw. apply done_nothing.
    + intros ms' m' H. exact H.
Qed.

(** ** The event loop *)

Lemma forallb_lookup {A} (f : A -> bool) (l : list A) (j : nat) (x : A) :
  forallb f l = true -> l !! j = Some x -> f x = true.
Proof.
  revert j. induction l as [|y l IH]; intros j Hall Hj; [discriminate Hj|].
  cbn [forallb] in Hall. apply andb_true_iff in Hall as [Hy Hl].
  destruct j as [|j]; [injection Hj as <-; exact Hy|exact (IH j Hl Hj)].
Qed.

Lemma str_eqb_refl (a : str) : str_eqb a a = true.
Proof.
  induction a as [|x a IH]; [reflexivity|].
  cbn [str_eqb]. rewrite N.eqb_refl, IH. reflexivity.
Qed.

Lemma out_of_the_way_spec U (op : operation) (t : task) :
  out_of_the_way U op t = true ->
  finished (state t) = true \/ record_of U (request t) <> record_of U op.
Proof.
  unfold out_of_the_way. intros H. apply orb_true_iff in H as [H|H]; [auto|].
  right. intros Heq. rewrite Heq, str_eqb_refl in H. discriminate H.
Qed.

Lemma one_call_per_number_app U team_number bson_datetime
    (a b : list event) (s : system) :
  one_call_per_number U team_number bson_datetime (a ++ b) s
  = one_call_per_number U team_number bson_datetime a s
    && one_call_per_number U team_number bson_datetime b
         (exec U team_number bson_datetime a s).
Proof.
  revert s. induction a as [|e a IH]; intros s; [reflexivity|].
  cbn [app one_call_per_number exec fold_left]. rewrite IH, andb_assoc.
  reflexivity.
Qed.

Lemma exec_app U team_number bson_datetime (a b : list event) (s : system) :
  exec U team_number bson_datetime (a ++ b) s
  = exec U team_number bson_datetime b (exec U team_number bson_datetime a s).
Proof. unfold exec. apply fold_left_app. Qed.

Section CalmSystem.

Variable U : unicode_db.
Variable team_number : str.
Variable bson_datetime : Z -> Z.
Variable good : document -> Prop.
Variable undisturbed : Prop.
Hypothesis good_kept : kept_by_the_engine bson_datetime good.

Local Abbreviation happens := (happen U team_number bson_datetime).
Local Abbreviation allowed := (one_call_per_number U team_number bson_datetime).
Local Abbreviation guar key :=
  (done_between_suspensions bson_datetime key good undisturbed).
Local Abbreviation on_its_way key :=
  (goes_on bson_datetime key good undisturbed).

Lemma idle_calm (w : world) :
  every good (collection w) -> calm U bson_datetime good undisturbed (idle w).
Proof. intros Hw. split; [exact Hw|]. intros i t Ht. discriminate Ht. Qed.

(** A suspended call is not put off by what another call does, as long as
    its record stays and, where that matters, is left alone. *)
Lemma goes_on_stable key (p : paused unit) m m' :
  on_its_way key p m ->
  (is_Some (m !! key) -> is_Some (m' !! key)) ->
  (undisturbed -> m' !! key = m !! key) ->
  on_its_way key p m'.
Proof.
  intros [ms Hp] Hstay Hsame. exists m'.
  destruct p as [r|next effect]; cbn [unfolds] in *; [left; reflexivity|].
  destruct Hp as [_ Hnext]. split; [left; reflexivity|].
  intros w (Hev & Hstay' & Hsame'). apply Hnext.
  split; [exact Hev|]. split; [auto|].
  intros Hu. rewrite (Hsame' Hu). auto.
Qed.

(** One event. *)
Lemma happen_calm (e : event) (s : system) :
  calm U bson_datetime good undisturbed s ->
  (undisturbed -> allowed [e] s = true) ->
  calm U bson_datetime good undisturbed (happens e s)
  /\ exists key,
       guar key (collection (store s)) (collection (store (happens e s))).
Proof.
  intros [Hev Hpool] He. destruct e as [op|i]; cbn [happen].
  - (* a call is started *)
    pose proof (call_runs U team_number bson_datetime good undisturbed op _
                  good_kept Hev (store s) eq_refl) as Hrun.
    cbv zeta in Hrun.
    assert (Hway : undisturbed ->
              forall j t, pool s !! j = Some t ->
                finished (state t) = true
                \/ record_of U (request t) <> record_of U op).
    { intros Hu j t Hj. specialize (He Hu). cbn [one_call_per_number] in He.
      rewrite andb_true_r in He.
      apply out_of_the_way_spec. eapply forallb_lookup; eassumption. }
    destruct (call U team_number bson_datetime op (store s)) as [p w].
    cbn [fst snd store pool] in *.
    pose proof (unfolds_guar _ _ _ _ _ Hrun) as Hg.
    split; [|eauto]. split; [eapply done_every; eassumption|].
    intros i t Hi. cbn [store pool] in Hi |- *.
    apply lookup_snoc_Some in Hi as [[Hlt Hi]|[-> <-]].
    + destruct (finished (state t)) eqn:Hfin; [left; reflexivity|right].
      destruct (Hpool i t Hi) as [Hfin'|[Hon Hothers]]; [congruence|].
      assert (Hne : undisturbed ->
                record_of U (request t) <> record_of U op).
      { intros Hu. destruct (Hway Hu i t Hi) as [Hfin'|Hne]; [congruence|].
        exact Hne. }
      split.
      * eapply goes_on_stable; [exact Hon| |].
        -- eapply done_stays, Hg.
        -- intros Hu. eapply done_elsewhere; [exact Hg|exact (Hne Hu)].
      * intros Hu j t' Hj Hji.
        apply lookup_snoc_Some in Hj as [[_ Hj]|[-> <-]].
        -- exact (Hothers Hu j t' Hj Hji).
        -- cbn [state request]. right. intros Heq. apply (Hne Hu).
           symmetry. exact Heq.
    + cbn [state request]. right.
      split; [exists (collection (store s)); exact Hrun|].
      intros Hu j t' Hj Hji.
      apply lookup_snoc_Some in Hj as [[_ Hj]|[-> _]]; [|congruence].
      exact (Hway Hu j t' Hj).
  - (* a call is resumed *)
    destruct (pool s !! i) as [[op [r|next effect]]|] eqn:Hi;
      [split; [split; assumption|exists []; left; reflexivity]|
      |split; [split; assumption|exists []; left; reflexivity]].
    destruct (Hpool i _ Hi) as [Hfin|[[ms Hon] Hothers]]; [discriminate Hfin|].
    cbn [state request unfolds] in Hon, Hothers. destruct Hon as [_ Hnext].
    assert (Hrely : found_on_resumption (record_of U op) good undisturbed
                      (collection (store s)) (collection (store s))).
    { split; [exact Hev|]. split; auto. }
    specialize (Hnext (store s) Hrely).
    pose proof (unfolds_guar _ _ _ _ _ Hnext) as Hg.
    cbn [store pool]. split; [|eauto].
    split; [eapply done_every; eassumption|].
    intros j t Hj. cbn [store pool] in Hj |- *.
    destruct (decide (i = j)) as [<-|Hne].
    + rewrite list_lookup_insert_eq in Hj by (eapply lookup_lt_Some, Hi).
      injection Hj as <-. cbn [state request]. right.
      split; [exists (collection (store s)); exact Hnext|].
      intros Hu j t' Hj Hji.
      rewrite list_lookup_insert_ne in Hj by congruence.
      exact (Hothers Hu j t' Hj Hji).
    + rewrite list_lookup_insert_ne in Hj by exact Hne.
      destruct (finished (state t)) eqn:Hfin; [left; reflexivity|right].
      destruct (Hpool j t Hj) as [Hfin'|[Hon Hothers']]; [congruence|].
      assert (Hkeys : undisturbed ->
                record_of U (request t) <> record_of U op).
      { intros Hu. destruct (Hothers Hu j t Hj) as [Hfin'|Hk];
          [congruence|congruence|exact Hk]. }
      split.
      * eapply goes_on_stable; [exact Hon| |].
        -- eapply done_stays, Hg.
        -- intros Hu. eapply done_elsewhere; [exact Hg|exact (Hkeys Hu)].
      * intros Hu j' t' Hj' Hjj.
        destruct (decide (i = j')) as [<-|Hne'].
        -- rewrite list_lookup_insert_eq in Hj' by (eapply lookup_lt_Some, Hi).
           injection Hj' as <-. cbn [state request]. right.
           intros Heq. apply (Hkeys Hu). symmetry. exact Heq.
        -- rewrite list_lookup_insert_ne in Hj' by exact Hne'.
           exact (Hothers' Hu j' t' Hj' Hjj).
Qed.

(** A whole schedule.  [T] is any relation between stores that holds
    across what one call does between two suspensions and that chains. *)
Lemma exec_calm (T : gmap str document -> gmap str document -> Prop)
    (sched : list event) (s : system) :
  (forall m, T m m) ->
  (forall m1 m2 m3, T m1 m2 -> T m2 m3 -> T m1 m3) ->
  (forall key m m', every good m -> guar key m m' -> T m m') ->
  calm U bson_datetime good undisturbed s ->
  (undisturbed -> allowed sched s = true) ->
  calm U bson_datetime good undisturbed
    (exec U team_number bson_datetime sched s)
  /\ T (collection (store s))
       (collection (store (exec U team_number bson_datetime sched s))).
Proof.
  intros Trefl Ttrans Tstep. revert s.
  induction sched as [|e rest IH]; intros s Hcalm Hsched; [split; auto|].
  destruct (happen_calm e s Hcalm) as [Hcalm1 [key Hg]].
  { intros Hu. specialize (Hsched Hu). cbn [one_call_per_number] in Hsched |- *.
    apply andb_true_iff in Hsched as [-> _]. reflexivity. }
  destruct (IH (happens e s) Hcalm1) as [Hcalm' HT].
  { intros Hu. specialize (Hsched Hu). cbn [one_call_per_number] in Hsched.
    apply andb_true_iff in Hsched as [_ H]. exact H. }
  cbn [exec fold_left]. split; [exact Hcalm'|].
  eapply Ttrans; [|exact HT]. eapply Tstep; [exact (proj1 Hcalm)|exact Hg].
Qed.

End CalmSystem.

(** ** Requests taken in turn *)

Section InTurn.

Variable U : unicode_db.
Variable team_number : str.
Variable bson_datetime : Z -> Z.

Local Abbreviation happens := (happen U team_number bson_datetime).
Local Abbreviation execs := (exec U team_number bson_datetime).

Lemma alone_call (op : operation) (w : world) :
  snd (alone (call U team_number bson_datetime op) w)
  = step U team_number bson_datetime op w.
Proof.
  destruct op as [E phone text|E phone]; cbn [call step];
    rewrite alone_bind; unfold bind.
  - rewrite alone_handle_incoming_message.
    destruct (handle_incoming_message _ _ _ _ _ _ w) as [[b|] w']; reflexivity.
  - rewrite alone_get_or_create_conversation.
    destruct (get_or_create_conversation _ _ _ _ w) as [[c|] w']; reflexivity.
Qed.

(** A call that is resumed until it ends. *)
Lemma resumed_to_the_end (op : operation) (p : paused unit) (w : world)
    (before : list task) :
  execs (repeat (Resume (length before)) (suspensions p w))
    {| store := w; pool := before ++ [{| request := op; state := p |}] |}
  = {| store := snd (finish p w);
       pool := before ++ [{| request := op; state := Done (fst (finish p w)) |}] |}.
Proof.
  revert w. induction p as [r|next IH effect]; intros w; [reflexivity|].
  cbn [suspensions repeat exec fold_left happen finish store pool].
  rewrite list_lookup_middle by reflexivity.
  rewrite insert_app_r_alt by lia. rewrite Nat.sub_diag. apply IH.
Qed.

Lemma resumes_allowed (i n : nat) (s : system) :
  one_call_per_number U team_number bson_datetime (repeat (Resume i) n) s = true.
Proof.
  revert s. induction n as [|n IH]; intros s; [reflexivity|].
  cbn [repeat one_call_per_number]. apply IH.
Qed.

Lemma all_finished_out_of_the_way (op : operation) (l : list task) :
  forallb (fun t => finished (state t)) l = true ->
  forallb (out_of_the_way U op) l = true.
Proof.
  induction l as [|t l IH]; [reflexivity|]. cbn [forallb].
  intros H. apply andb_true_iff in H as [Ht Hl].
  unfold out_of_the_way at 1. rewrite Ht, (IH Hl). reflexivity.
Qed.

(** Taking the requests in turn is a schedule of the event loop in which
    no two calls overlap, and it leaves the world that [run] computes. *)
Lemma in_turn_is_run (ops : list operation) (s : system) :
  forallb (fun t => finished (state t)) (pool s) = true ->
  let sched := in_turn U team_number bson_datetime ops s in
  one_call_per_number U team_number bson_datetime sched s = true
  /\ store (execs sched s) = run U team_number bson_datetime ops (store s).
Proof.
  revert s. induction ops as [|op ops IH]; intros s Hfin; [split; reflexivity|].
  cbn [in_turn run fold_left]. cbv zeta.
  pose proof (alone_call op (store s)) as Hstep. unfold alone in Hstep.
  destruct (call U team_number bson_datetime op (store s)) as [p w] eqn:Hcall.
  set (this := Start op :: repeat (Resume (length (pool s))) (suspensions p w)).
  assert (Hthis : execs this s
                  = {| store := step U team_number bson_datetime op (store s);
                       pool := pool s ++ [{| request := op;
                                             state := Done (fst (finish p w)) |}] |}).
  { unfold this. cbn [exec fold_left happen]. rewrite Hcall.
    rewrite <- Hstep. apply resumed_to_the_end. }
  destruct (IH (execs this s)) as [Hallowed Hstore].
  { rewrite Hthis. cbn [pool]. rewrite forallb_app, Hfin. reflexivity. }
  rewrite one_call_per_number_app, exec_app. split.
  - rewrite Hallowed, andb_true_r. unfold this.
    cbn [one_call_per_number]. rewrite resumes_allowed, andb_true_r.
    apply all_finished_out_of_the_way, Hfin.
  - rewrite Hstore, Hthis. reflexivity.
Qed.

End InTurn.

(** ** The status of a conversation, calls overlapping *)

Lemma status_kept_by_the_engine bson_datetime :
  kept_by_the_engine bson_datetime status_in_range.
Proof.
  split.
  - intros key t. left. reflexivity.
  - intros doc conv Hdoc (_ & _ & _ & _ & _ & _ & Hst).
    unfold status_in_range, pending_or_finalized in *.
    cbn [to_document d_status].
    destruct Hst as [-> | ->]; [|right; reflexivity].
    destruct Hdoc as [-> | ->]; [left|right]; reflexivity.
Qed.

(** C8, as amended.  Take a store where every record sits under its own
    phone number with status "pending" or "finalized", the empty store
    for one, and let the event loop start and resume calls of
    [handle_incoming_message] and [get_or_create_conversation] in any
    order, whatever the outside world answers.  Then each record's status
    is still one of the two, and a record that the next event creates is
    "pending".  If moreover no call was started while another call about
    the same phone number was suspended, a record that is "finalized" is
    still there and still "finalized" after any further events. *)
Theorem status_only_moves_to_finalized
    (U : unicode_db) (team_number : str) (bson_datetime : Z -> Z)
    (w0 : world) (sched : list event) (e : event) (more : list event) :
  well_kept (collection w0) ->
  let s := exec U team_number bson_datetime sched (idle w0) in
  (forall k d, collection (store s) !! k = Some d ->
     d_status d = Some (lit "pending") \/ d_status d = Some (lit "finalized"))
  /\ (forall k d',
        collection (store s) !! k = None ->
        collection (store (happen U team_number bson_datetime e s)) !! k
        = Some d' ->
        d_status d' = Some (lit "pending"))
  /\ (one_call_per_number U team_number bson_datetime (sched ++ more) (idle w0)
      = true ->
      forall k d,
        collection (store s) !! k = Some d ->
        d_status d = Some (lit "finalized") ->
        exists d',
          collection (store (exec U team_number bson_datetime more s)) !! k
          = Some d'
          /\ d_status d' = Some (lit "finalized")).
Proof.
  intros Hw0 s.
  pose proof (status_kept_by_the_engine bson_datetime) as Hkept.
  assert (Hcalm : calm U bson_datetime status_in_range False s).
  { refine (proj1 (exec_calm U team_number bson_datetime status_in_range False
                     Hkept (fun _ _ => True) sched (idle w0) _ _ _ _ _));
      [auto|auto|auto|apply idle_calm, Hw0|intros []]. }
  split; [|split].
  - intros k d Hk. exact (proj2 (proj1 Hcalm k d Hk)).
  - destruct (happen_calm U team_number bson_datetime status_in_range False
                Hkept e s Hcalm) as [_ [key Hg]]; [intros []|].
    exact (done_new_are_pending _ _ _ _ _ _ Hg).
  - intros Hsched k d Hk Hfin.
    rewrite one_call_per_number_app in Hsched.
    apply andb_true_iff in Hsched as [Hfirst Hmore].
    assert (Hcalm' : calm U bson_datetime status_in_range True s).
    { refine (proj1 (exec_calm U team_number bson_datetime status_in_range True
                       Hkept (fun _ _ => True) sched (idle w0) _ _ _ _ _));
        [auto|auto|auto|apply idle_calm, Hw0|intros _; exact Hfirst]. }
    assert (Hkeeps : keeps_finalized (collection (store s))
                       (collection (store (exec U team_number bson_datetime
                                             more s)))).
    { refine (proj2 (exec_calm U team_number bson_datetime status_in_range True
                       Hkept keeps_finalized more s _ _ _ Hcalm' _)).
      - intros m k' d' Hk'. eauto.
      - apply keeps_finalized_trans.
      - intros key m m' _ Hg. eapply done_keeps_finalized, Hg.
      - intros _. exact Hmore. }
    destruct (Hkeeps k d Hk) as (d' & Hk' & Hf). eauto.
Qed.

Lemma status_only_moves_to_finalized_witness :
  let first := Inbound all_ok PHONE in
  let second := Inbound all_ok OTHER in
  let both i j :=
    repeat (Resume i) 3 ++ repeat (Resume j) 6 ++ repeat (Resume i) 3 in
  let sched :=
    [Start (first (lit "hi")); Start (second (lit "hi"))] ++ both 0%nat 1%nat
    ++ [Start (first (lit "John")); Start (second (lit "Jane"))]
    ++ both 2%nat 3%nat
    ++ [Start (first (lit "sounds good, let's proceed"))]
    ++ repeat (Resume 4) 6
    ++ [Start (Lookup all_ok (lit "0333 1234567")); Resume 5; Resume 5] in
  let e := Resume 5 in
  let more :=
    [Start (second (lit "how much is it"));
     Start (Inbound (with_replace_one all_ok false) PHONE (lit "hello"))]
    ++ both 6%nat 7%nat ++ repeat (Resume 5) 3
    ++ [Start (first (lit "one more thing"))] ++ repeat (Resume 8) 6 in
  let s := exec ascii_only_db TEAM (fun t => t) sched (idle empty_world) in
  well_kept (collection empty_world)
  /\ one_call_per_number ascii_only_db TEAM (fun t => t) (sched ++ more)
       (idle empty_world) = true
  /\ (forall k d, collection (store s) !! k = Some d ->
        d_status d = Some (lit "pending") \/ d_status d = Some (lit "finalized"))
  /\ (forall k d',
        collection (store s) !! k = None ->
        collection (store (happen ascii_only_db TEAM (fun t => t) e s)) !! k
        = Some d' ->
        d_status d' = Some (lit "pending"))
  /\ (forall k d,
        collection (store s) !! k = Some d ->
        d_status d = Some (lit "finalized") ->
        exists d',
          collection (store (exec ascii_only_db TEAM (fun t => t) more s)) !! k
          = Some d'
          /\ d_status d' = Some (lit "finalized")).
Proof.
  intros first second both sched e more s.
  assert (H0 : well_kept (collection empty_world)).
  { intros k d Hk. vm_compute in Hk. discriminate Hk. }
  assert (Hsched : one_call_per_number ascii_only_db TEAM (fun t => t)
                     (sched ++ more) (idle empty_world) = true)
    by (vm_compute; reflexivity).
  split; [exact H0|]. split; [exact Hsched|].
  destruct (status_only_moves_to_finalized ascii_only_db TEAM (fun t => t)
              empty_world sched e more H0) as (H1 & H2 & H3).
  split; [exact H1|]. split; [exact H2|]. exact (H3 Hsched).
Defined.

(** C8, as stated, fails when two calls about one phone number overlap:
    the first has read the record, still "pending", and is suspended when
    the second arrives and finalizes it; resumed, the first saves its copy
    and the record is "pending" again. *)
Lemma overlapping_calls_reopen_a_finalized_record :
  let late := Inbound all_ok PHONE (lit "one more thing") in
  let last := Inbound all_ok PHONE (lit "sounds good, let's proceed") in
  let s1 :=
    exec ascii_only_db TEAM (fun t => t)
      ([Start late; Resume 0; Start last] ++ repeat (Resume 1) 6)
      (idle project_described) in
  let s2 := exec ascii_only_db TEAM (fun t => t) (repeat (Resume 0) 6) s1 in
  (exists d, collection (store s1) !! lit "+923001112233" = Some d
             /\ d_status d = Some (lit "finalized"))
  /\ (exists d, collection (store s2) !! lit "+923001112233" = Some d
                /\ d_status d = Some (lit "pending")).
Proof.
  split; eexists; (split; [vm_compute; reflexivity|reflexivity]).
Qed.

(** ** The transcript, calls overlapping *)

Lemma anything_kept_by_the_engine bson_datetime :
  kept_by_the_engine bson_datetime (fun _ => True).
Proof. split; auto. Qed.

Lemma keyed_every (m : gmap str document) :
  keyed m -> every (fun _ => True) m.
Proof. intros Hm k d Hk. split; [exact (Hm k d Hk)|exact I]. Qed.

(** X11.  Transcripts are append-only and counts never go down, as long
    as no call is started while another call about the same phone number
    is suspended: in a store where every record sits under its own phone
    number, after any such schedule of calls each record is still there,
    its transcript (who said what) starts with the old one, and its
    [messages_used] is at least the old one.  Calls about different
    numbers may overlap as they like. *)
Theorem transcript_only_grows
    (U : unicode_db) (team_number : str) (bson_datetime : Z -> Z)
    (w0 : world) (sched : list event) :
  keyed (collection w0) ->
  one_call_per_number U team_number bson_datetime sched (idle w0) = true ->
  forall k d,
    collection w0 !! k = Some d ->
    exists d' more,
      collection (store (exec U team_number bson_datetime sched (idle w0))) !! k
      = Some d'
      /\ List.map said (turns_of d') = List.map said (turns_of d) ++ more
      /\ used_of d <= used_of d'.
Proof.
  intros Hk Hsched.
  refine (proj2 (exec_calm U team_number bson_datetime (fun _ => True) True
                   (anything_kept_by_the_engine bson_datetime)
                   extends sched (idle w0) _ _ _ _ _)).
  - apply extends_refl.
  - apply extends_trans.
  - intros key m m' _ Hg. eapply done_extends, Hg.
  - apply idle_calm, keyed_every, Hk.
  - intros _. exact Hsched.
Qed.

Lemma transcript_only_grows_witness :
  let w0 := project_described in
  let sched :=
    [Start (Inbound all_ok PHONE (lit "sounds good, let's proceed"));
     Start (Inbound all_ok OTHER (lit "hi")); Resume 1; Resume 0; Resume 0]
    ++ repeat (Resume 1) 5 ++ repeat (Resume 0) 4
    ++ [Start (Inbound all_ok (lit "+92 300 1112233") (lit "thanks"))]
    ++ repeat (Resume 2) 6 in
  keyed (collection w0)
  /\ one_call_per_number ascii_only_db TEAM (fun t => t) sched (idle w0) = true
  /\ exists d,
       collection w0 !! lit "+923001112233" = Some d
       /\ exists d' more,
            collection (store (exec ascii_only_db TEAM (fun t => t) sched
                                 (idle w0)))
              !! lit "+923001112233" = Some d'
            /\ List.map said (turns_of d')
               = List.map said (turns_of d) ++ more
            /\ used_of d <= used_of d'.
Proof.
  intros w0 sched.
  assert (Hk : keyed (collection w0)).
  { apply (run_keyed ascii_only_db TEAM (fun t => t)
             [Inbound all_ok PHONE (lit "hi"); Inbound all_ok PHONE (lit "John");
              Inbound all_ok PHONE (lit "I need an online store")]
             empty_world empty_keyed). }
  assert (Hsched : one_call_per_number ascii_only_db TEAM (fun t => t) sched
                     (idle w0) = true) by (vm_compute; reflexivity).
  split; [exact Hk|]. split; [exact Hsched|].
  eexists. split; [vm_compute; reflexivity|].
  apply (transcript_only_grows ascii_only_db TEAM (fun t => t) w0 sched Hk Hsched).
  vm_compute. reflexivity.
Defined.

(** The lost update: two calls about one phone number overlap, and the
    exchange that the second one saved is gone when the first one has
    saved its copy. *)
Example overlapping_calls_lose_an_exchange :
  let late := Inbound all_ok PHONE (lit "one more thing") in
  let last := Inbound all_ok PHONE (lit "sounds good, let's proceed") in
  let s1 :=
    exec ascii_only_db TEAM (fun t => t)
      ([Start late; Resume 0; Start last] ++ repeat (Resume 1) 6)
      (idle project_described) in
  let s2 := exec ascii_only_db TEAM (fun t => t) (repeat (Resume 0) 6) s1 in
  exists d1 d2,
    collection (store s1) !! lit "+923001112233" = Some d1
    /\ collection (store s2) !! lit "+923001112233" = Some d2
    /\ In (lit "client", lit "sounds good, let's proceed")
         (List.map said (turns_of d1))
    /\ ~ In (lit "client", lit "sounds good, let's proceed")
           (List.map said (turns_of d2))
    /\ used_of d1 = 4 /\ used_of d2 = 4.
Proof.
  do 2 eexists. split; [vm_compute; reflexivity|].
  split; [vm_compute; reflexivity|].
  split; [vm_compute; tauto|].
  split; [|split; reflexivity].
  vm_compute. intros H.
  repeat (destruct H as [H|H]; [discriminate H|]). exact H.
Qed.

(** ** Whole exchanges, calls overlapping *)

Lemma balance_kept_by_the_engine bson_datetime :
  kept_by_the_engine bson_datetime balanced_record.
Proof.
  split.
  - intros key t. split; reflexivity.
  - intros doc conv [Hpos Hroles] (inb & reply & t & t' & Hc & Hu & _).
    unfold balanced_record.
    rewrite turns_of_saved, used_of_saved, roles_of_stored, Hc, Hu.
    split; [lia|]. rewrite List.map_app, Hroles.
    replace (Z.to_nat (used_of doc + 1)) with (S (Z.to_nat (used_of doc)))
      by lia.
    rewrite <- alternating_snoc. reflexivity.
Qed.

(** X21.  Overlapping calls lose exchanges but never half of one.  Take a
    store where every record sits under its own phone number and holds as
    many client-assistant exchanges as its count says, and let the event
    loop start and resume calls in any order, two calls about one number
    overlapping or not.  Every record still sits under its own phone
    number, its transcript is still a sequence of client-assistant pairs,
    and it has exactly twice as many turns as [messages_used]. *)
Theorem overlapping_calls_keep_exchanges_whole
    (U : unicode_db) (team_number : str) (bson_datetime : Z -> Z)
    (w0 : world) (sched : list event) :
  keyed (collection w0) -> balanced (collection w0) ->
  forall k d,
    collection (store (exec U team_number bson_datetime sched (idle w0))) !! k
    = Some d ->
    d_phone_number d = Some k
    /\ List.map role (turns_of d) = alternating (Z.to_nat (used_of d))
    /\ Z.of_nat (length (turns_of d)) = 2 * used_of d.
Proof.
  intros Hk Hb k d Hd.
  assert (Hcalm : calm U bson_datetime balanced_record False
                    (exec U team_number bson_datetime sched (idle w0))).
  { refine (proj1 (exec_calm U team_number bson_datetime balanced_record False
                     (balance_kept_by_the_engine bson_datetime)
                     (fun _ _ => True) sched (idle w0) _ _ _ _ _));
      [auto|auto|auto| |intros []].
    apply idle_calm. intros k' d' Hk'. split; [exact (Hk k' d' Hk')|].
    exact (Hb k' d' Hk'). }
  destruct (proj1 Hcalm k d Hd) as (Hp & Hpos & Hroles).
  split; [exact Hp|]. split; [exact Hroles|].
  rewrite <- (length_map role), Hroles, alternating_length. lia.
Qed.

Lemma overlapping_calls_keep_exchanges_whole_witness :
  let late := Inbound all_ok PHONE (lit "one more thing") in
  let last := Inbound all_ok PHONE (lit "sounds good, let's proceed") in
  let sched :=
    [Start late; Resume 0; Start last] ++ repeat (Resume 1) 6
    ++ repeat (Resume 0) 6 in
  keyed (collection project_described)
  /\ balanced (collection project_described)
  /\ forall k d,
       collection (store (exec ascii_only_db TEAM (fun t => t) sched
                            (idle project_described))) !! k = Some d ->
       d_phone_number d = Some k
       /\ List.map role (turns_of d) = alternating (Z.to_nat (used_of d))
       /\ Z.of_nat (length (turns_of d)) = 2 * used_of d.
Proof.
  intros late last sched.
  pose (ops := [Inbound all_ok PHONE (lit "hi"); Inbound all_ok PHONE (lit "John");
                Inbound all_ok PHONE (lit "I need an online store")]).
  assert (Hk : keyed (collection project_described))
    by exact (run_keyed ascii_only_db TEAM (fun t => t) ops empty_world
                empty_keyed).
  assert (Hb : balanced (collection project_described))
    by exact (run_balanced ascii_only_db TEAM (fun t => t) ops empty_world
                empty_keyed empty_balanced).
  split; [exact Hk|]. split; [exact Hb|].
  exact (overlapping_calls_keep_exchanges_whole ascii_only_db TEAM (fun t => t)
           project_described sched Hk Hb).
Defined.
